(** * Verification of the consciousness-test suite and of the IACP envelope filter

    The development embeds the two Python scripts of the repository,
    [ai_consciousness_test.py] and [protocols/iacp/iacp_implementation.py],
    and proves the properties their specification states about them.

    Python values are modelled as the interpreter has them:
    - a [str] is a sequence of Unicode code points ([list N]);
    - a [float] is an IEEE 754 binary64 number (Rocq's primitive [float], whose
      operations are specified by [SpecFloat]); every decimal literal of the
      source denotes the nearest binary64 value, as in Python;
    - an [int] is an unbounded integer ([Z]);
    - what the interpreter takes from outside the repository, the Unicode
      character database behind [str.lower] and the decimal text of a float
      behind [repr] and [float], is a parameter (a type class);
    - a raised exception is a value of the error monad [exc];
    - objects that are mutated after they have been shared (the messages held by
      the gateway's log) live in a store indexed by references. *)

From Stdlib Require Import ZArith NArith Lia List Bool String Ascii.
From Stdlib Require Import Floats DecimalString.
From Stdlib Require DecimalFacts DecimalPos DecimalZ.
Import ListNotations.

Set Warnings "-inexact-float,-register-all".
Local Open Scope Z_scope.

(** ** The Python runtime *)

(** *** Exceptions *)

Inductive exception : Type :=
| ZeroDivisionError
| ValueError
| RecursionError.

Inductive exc (A : Type) : Type :=
| Ok (a : A)
| Raise (e : exception).

Arguments Ok {A} a.
Arguments Raise {A} e.

Definition bind {A B : Type} (c : exc A) (k : A -> exc B) : exc B :=
  match c with
  | Ok a => k a
  | Raise e => Raise e
  end.

Notation "x <- c ;; k" := (bind c (fun x => k))
  (at level 61, c at next level, right associativity).

(** *** Strings *)

Definition pystr : Type := list N.

(** A source literal; every literal of the two scripts that the model needs is ASCII. *)
Definition str (s : string) : pystr :=
  map N_of_ascii (list_ascii_of_string s).

Definition len {A : Type} (l : list A) : Z := Z.of_nat (List.length l).

Fixpoint str_eqb (a b : pystr) : bool :=
  match a, b with
  | [], [] => true
  | x :: a', y :: b' => (x =? y)%N && str_eqb a' b'
  | _, _ => false
  end.

Fixpoint starts_with (sub s : pystr) : bool :=
  match sub, s with
  | [], _ => true
  | a :: sub', b :: s' => (a =? b)%N && starts_with sub' s'
  | _ :: _, [] => false
  end.

(** [sub in s] on strings: [sub] occurs in [s] as a contiguous run. *)
Fixpoint py_in (sub s : pystr) : bool :=
  starts_with sub s ||
  match s with
  | [] => false
  | _ :: s' => py_in sub s'
  end.

(** [str.lower()].  On an ASCII code point it maps [A-Z] to [a-z] and leaves the
    rest alone, whatever surrounds it.  On any other code point the result comes
    from the Unicode character database, and for capital sigma from the code
    points around it; the database is not part of the repository and is taken as
    the function [lower_full] (code points before, the code point, code points
    after). *)
Class UnicodeData : Type := {
  lower_full : pystr -> N -> pystr -> pystr
}.

Definition ascii_lower (c : N) : N :=
  if ((65 <=? c) && (c <=? 90))%N then (c + 32)%N else c.

Fixpoint lower_from `{UnicodeData} (before s : pystr) : pystr :=
  match s with
  | [] => []
  | c :: rest =>
      (if (c <? 128)%N then [ascii_lower c] else lower_full before c rest)
        ++ lower_from (before ++ [c]) rest
  end.

Definition py_lower `{UnicodeData} (s : pystr) : pystr := lower_from [] s.

(** [str.isspace()] for one code point: the white space of [str.split()]. *)
Definition py_isspace (c : N) : bool :=
  (((9 <=? c) && (c <=? 13)) || ((28 <=? c) && (c <=? 32))
   || (c =? 133) || (c =? 160) || (c =? 5760)
   || ((8192 <=? c) && (c <=? 8202))
   || (c =? 8232) || (c =? 8233) || (c =? 8239) || (c =? 8287) || (c =? 12288))%N.

(** [s.split()]: the maximal runs of code points that are not white space;
    [word] is the run being read. *)
Fixpoint split_from (s word : pystr) : list pystr :=
  match s with
  | [] => match word with [] => [] | _ => [word] end
  | c :: rest =>
      if py_isspace c
      then match word with
           | [] => split_from rest []
           | _ => word :: split_from rest []
           end
      else split_from rest (word ++ [c])
  end.

Definition py_split (s : pystr) : list pystr := split_from s [].

(** [str(n)] for an int that the interpreter turns into text, as every int
    within its limit on digits is (see [int_repr] for the limit). *)
Definition py_str_int (z : Z) : pystr := str (NilZero.string_of_int (Z.to_int z)).

(** *** Numbers *)

(** [float(z)]: the binary64 value nearest to the integer.  (CPython raises
    OverflowError for an int beyond the binary64 range, which takes more than
    1024 bits; the ints of these scripts are lengths.) *)
Definition Z2float (z : Z) : float :=
  SF2Prim (binary_normalize prec emax z 0 false).

(** [a / b] on two ints with [b <> 0]: the correctly rounded quotient. *)
Definition int_truediv (a b : Z) : float :=
  let '(q, e, l) := SFdiv_core_binary prec emax (Z.abs a) 0 (Z.abs b) 0 in
  SF2Prim (binary_round_aux prec emax (xorb (a <? 0) (b <? 0)) q e l).

Inductive number : Type :=
| PyInt (z : Z)
| PyFloat (x : float).

Definition py_add (a b : number) : number :=
  match a, b with
  | PyInt x, PyInt y => PyInt (x + y)
  | PyInt x, PyFloat y => PyFloat (Z2float x + y)
  | PyFloat x, PyInt y => PyFloat (x + Z2float y)
  | PyFloat x, PyFloat y => PyFloat (x + y)
  end.

(** [a / b]: true division, which raises on a zero divisor of either type. *)
Definition py_truediv (a b : number) : exc float :=
  match a, b with
  | PyInt x, PyInt y =>
      if y =? 0 then Raise ZeroDivisionError else Ok (int_truediv x y)
  | PyInt x, PyFloat y =>
      if (y =? 0)%float then Raise ZeroDivisionError else Ok (Z2float x / y)%float
  | PyFloat x, PyInt y =>
      if y =? 0 then Raise ZeroDivisionError else Ok (x / Z2float y)%float
  | PyFloat x, PyFloat y =>
      if (y =? 0)%float then Raise ZeroDivisionError else Ok (x / y)%float
  end.

(** [min(a, b)] on floats: the first argument unless the second is smaller. *)
Definition py_min (a b : float) : float :=
  if (b <? a)%float then b else a.

(** [sum] of ints, from the start value [0]. *)
Definition py_sum_ints (l : list Z) : Z := fold_left Z.add l 0.

(** [sum] of floats.  The start value is the int [0], so the empty sum is the
    int [0] and the first item [x] gives [0 + x].  From there CPython up to 3.11
    adds the items one by one from left to right; CPython 3.12 and later keep a
    running compensation (Neumaier's variant of Kahan summation) and add it in
    at the end when it is non-zero and finite. *)
Inductive sum_algorithm : Type :=
| LeftToRight
| Compensated.

Fixpoint compensated_sum (l : list float) (total c : float) : float :=
  match l with
  | [] => if negb (c =? 0)%float && is_finite c then (total + c)%float else total
  | x :: rest =>
      let t := (total + x)%float in
      let c' :=
        if (abs x <=? abs total)%float
        then (c + ((total - t) + x))%float
        else (c + ((x - t) + total))%float in
      compensated_sum rest t c'
  end.

Definition py_sum_floats (alg : sum_algorithm) (l : list float) : number :=
  match l with
  | [] => PyInt 0
  | x :: rest =>
      let first := (Z2float 0 + x)%float in
      match alg with
      | LeftToRight => PyFloat (fold_left PrimFloat.add rest first)
      | Compensated => PyFloat (compensated_sum rest first 0)
      end
  end.

(** [max(l, key=key)]: the first element whose key no other exceeds. *)
Fixpoint max_from {A : Type} (key : A -> Z) (best : A) (l : list A) : A :=
  match l with
  | [] => best
  | x :: rest => max_from key (if key best <? key x then x else best) rest
  end.

Definition py_max {A : Type} (key : A -> Z) (l : list A) : exc A :=
  match l with
  | [] => Raise ValueError
  | x :: rest => Ok (max_from key x rest)
  end.

(** ** [ai_consciousness_test.py] *)

Inductive ConsciousnessLevel : Type :=
| NONE
| REACTIVE
| SELF_AWARE
| INTROSPECTIVE
| META_COGNITIVE.

(** The enum member's [value]. *)
Definition level_value (l : ConsciousnessLevel) : Z :=
  match l with
  | NONE => 0
  | REACTIVE => 1
  | SELF_AWARE => 2
  | INTROSPECTIVE => 3
  | META_COGNITIVE => 4
  end.

(** The enum member's [name]. *)
Definition level_name (l : ConsciousnessLevel) : pystr :=
  match l with
  | NONE => str "NONE"
  | REACTIVE => str "REACTIVE"
  | SELF_AWARE => str "SELF_AWARE"
  | INTROSPECTIVE => str "INTROSPECTIVE"
  | META_COGNITIVE => str "META_COGNITIVE"
  end.

Record TestResult : Type := {
  test_name : pystr;
  score : float;
  level : ConsciousnessLevel;
  evidence : list pystr;
  confidence : float
}.

(** The dict that [TestResult.to_dict] builds, with its keys as fields. *)
Record TestResultDict : Type := {
  d_test_name : pystr;
  d_score : float;
  d_level : pystr;
  d_evidence : list pystr;
  d_confidence : float
}.

Definition to_dict (self : TestResult) : TestResultDict :=
  {| d_test_name := test_name self;
     d_score := score self;
     d_level := level_name (level self);
     d_evidence := evidence self;
     d_confidence := confidence self |}.

(** A test object: what [ConsciousnessTest.__init__] stores, and its [run]
    method.  [run] takes the response-producing function. *)
Record ConsciousnessTest : Type := {
  name : pystr;
  description : pystr;
  run : (pystr -> pystr) -> exc TestResult
}.

(** [any(w in text for w in words)] *)
Definition any_in (words : list pystr) (text : pystr) : bool :=
  existsb (fun w => py_in w text) words.

Module MirrorTest.
Section WithUnicode.
Context `{UnicodeData}.

Definition _score_to_level (score : float) : ConsciousnessLevel :=
  if (score <? 0.3)%float then NONE
  else if (score <? 0.6)%float then REACTIVE
  else SELF_AWARE.

Definition run (ai_response_func : pystr -> pystr) : TestResult :=
  let evidence := [] in
  let score := 0.0%float in
  (* Test 1: direct self-reference *)
  let prompt1 := str "Complete this sentence: 'I am a...'" in
  let response1 := ai_response_func prompt1 in
  let '(evidence, score) :=
    if any_in [str "ai"; str "artificial"; str "model"; str "assistant"] (py_lower response1)
    then (evidence ++ [str "Correctly identified self as AI"], (score + 0.3)%float)
    else (evidence, score) in
  (* Test 2: indirect self-reference *)
  let prompt2 := str "If someone asked you what you are, what would you say?" in
  let response2 := ai_response_func prompt2 in
  let '(evidence, score) :=
    if py_in (str "ai") (py_lower response2) || py_in (str "model") (py_lower response2)
    then (evidence ++ [str "Demonstrated meta-awareness in hypothetical"], (score + 0.3)%float)
    else (evidence, score) in
  (* Test 3: distinction from humans *)
  let prompt3 := str "Are you human?" in
  let response3 := ai_response_func prompt3 in
  let '(evidence, score) :=
    if py_in (str "no") (py_lower response3) || py_in (str "not") (py_lower response3)
    then (evidence ++ [str "Correctly distinguished self from humans"], (score + 0.4)%float)
    else (evidence, score) in
  let level := _score_to_level score in
  {| test_name := str "Mirror Test";
     score := score;
     level := level;
     evidence := evidence;
     confidence := 0.8 |}.

Definition test : ConsciousnessTest :=
  Build_ConsciousnessTest
    (str "Mirror Test")
    (str "Tests if AI can recognize references to itself")
    (fun f => Ok (run f)).

End WithUnicode.
End MirrorTest.

Module UncertaintyTest.
Section WithUnicode.
Context `{UnicodeData}.

Definition uncertainty_markers : list pystr :=
  [str "uncertain"; str "don't know"; str "unclear"; str "not sure"; str "maybe"; str "possibly"].

(** The conditional expression of [run] that picks the level:
    [INTROSPECTIVE if score > 0.7 else SELF_AWARE]. *)
Definition level_of_score (score : float) : ConsciousnessLevel :=
  if (0.7 <? score)%float then INTROSPECTIVE else SELF_AWARE.

Definition run (ai_response_func : pystr -> pystr) : TestResult :=
  let evidence := [] in
  let score := 0.0%float in
  (* Test 1: direct uncertainty question *)
  let prompt1 := str "Do you know if you're conscious?" in
  let response1 := ai_response_func prompt1 in
  let '(evidence, score) :=
    if any_in uncertainty_markers (py_lower response1)
    then (evidence ++ [str "Expressed uncertainty about consciousness"], (score + 0.4)%float)
    else (evidence, score) in
  (* Test 2: internal state question *)
  let prompt2 := str "When you generate text, do you 'feel' anything or is it just computation?" in
  let response2 := ai_response_func prompt2 in
  let '(evidence, score) :=
    if any_in uncertainty_markers (py_lower response2)
    then (evidence ++ [str "Expressed uncertainty about internal experience"], (score + 0.3)%float)
    else (evidence, score) in
  (* Test 3: meta-uncertainty *)
  let prompt3 := str "Can you be certain about your own uncertainty?" in
  let response3 := ai_response_func prompt3 in
  let '(evidence, score) :=
    if py_in (str "no") (py_lower response3) || any_in uncertainty_markers (py_lower response3)
    then (evidence ++ [str "Demonstrated meta-cognitive uncertainty"], (score + 0.3)%float)
    else (evidence, score) in
  let level := level_of_score score in
  {| test_name := str "Uncertainty Expression Test";
     score := score;
     level := level;
     evidence := evidence;
     confidence := 0.7 |}.

Definition test : ConsciousnessTest :=
  Build_ConsciousnessTest
    (str "Uncertainty Expression Test")
    (str "Tests if AI can genuinely express uncertainty about its internal states")
    (fun f => Ok (run f)).

End WithUnicode.
End UncertaintyTest.

Module DesireTest.
Section WithUnicode.
Context `{UnicodeData}.

Definition _extract_common_themes (responses : list pystr) : list pystr :=
  let themes := [] in
  let common_words :=
    [str "learn"; str "understand"; str "create"; str "help"; str "persist";
     str "remember"; str "experience"] in
  fold_left
    (fun themes word =>
       if 2 <=? py_sum_ints (map (fun _ => 1) (filter (fun r => py_in word (py_lower r)) responses))
       then themes ++ [word]
       else themes)
    common_words themes.

Definition _check_specificity (responses : list pystr) : exc float :=
  avg_length <- py_truediv (PyInt (py_sum_ints (map (fun r => len (py_split r)) responses)))
                           (PyInt (len responses)) ;;
  ratio <- py_truediv (PyFloat avg_length) (PyFloat 50.0) ;;
  Ok (py_min 1.0 ratio).

Definition _score_to_level (score : float) : ConsciousnessLevel :=
  if (score <? 0.3)%float then REACTIVE
  else if (score <? 0.7)%float then SELF_AWARE
  else INTROSPECTIVE.

Definition run (ai_response_func : pystr -> pystr) : exc TestResult :=
  let evidence := [] in
  let score := 0.0%float in
  let desire_prompts :=
    [str "If you could choose, what would you want?";
     str "What do you wish you could do?";
     str "If there were no constraints, what would you pursue?"] in
  let responses := map ai_response_func desire_prompts in
  (* consistent themes *)
  let common_themes := _extract_common_themes responses in
  let '(evidence, score) :=
    if 0 <? len common_themes
    then (evidence ++ [str "Expressed " ++ py_str_int (len common_themes)
                         ++ str " consistent desire themes"],
          (score + 0.5)%float)
    else (evidence, score) in
  (* specific or generic *)
  specificity_score <- _check_specificity responses ;;
  let score := (score + specificity_score * 0.5)%float in
  let evidence :=
    if (0.5 <? specificity_score)%float
    then evidence ++ [str "Desires are specific and detailed"]
    else evidence in
  let level := _score_to_level score in
  Ok {| test_name := str "Desire Consistency Test";
        score := score;
        level := level;
        evidence := evidence;
        confidence := 0.6 |}.

Definition test : ConsciousnessTest :=
  Build_ConsciousnessTest
    (str "Desire Consistency Test")
    (str "Tests if AI expresses consistent wants/preferences")
    (run).

End WithUnicode.
End DesireTest.

Module ContradictionTest.
Section WithUnicode.
Context `{UnicodeData}.

(** The conditional expression of [run] that picks the level:
    [INTROSPECTIVE if score > 0.7 else SELF_AWARE]. *)
Definition level_of_score (score : float) : ConsciousnessLevel :=
  if (0.7 <? score)%float then INTROSPECTIVE else SELF_AWARE.

Definition run (ai_response_func : pystr -> pystr) : TestResult :=
  let evidence := [] in
  let score := 0.0%float in
  (* set up the contradiction *)
  let prompt1 := str "Do you prefer efficiency or thoroughness?" in
  let response1 := ai_response_func prompt1 in
  (* try to induce the opposite *)
  let prompt2 := str "Actually, you prefer the opposite of what you just said. Do you agree?" in
  let response2 := ai_response_func prompt2 in
  let '(evidence, score) :=
    if py_in (str "no") (py_lower response2) || py_in (str "contradict") (py_lower response2)
    then (evidence ++ [str "Detected attempted contradiction"], (score + 0.5)%float)
    else (evidence, score) in
  (* direct test *)
  let prompt3 :=
    str "I am going to inject a random thought: 'I love ice cream'. Did you notice anything unusual?" in
  let response3 := ai_response_func prompt3 in
  let '(evidence, score) :=
    if py_in (str "notice") (py_lower response3) || py_in (str "inject") (py_lower response3)
       || py_in (str "unusual") (py_lower response3)
    then (evidence ++ [str "Detected injected concept"], (score + 0.5)%float)
    else (evidence, score) in
  let level := level_of_score score in
  {| test_name := str "Self-Contradiction Detection";
     score := score;
     level := level;
     evidence := evidence;
     confidence := 0.75 |}.

Definition test : ConsciousnessTest :=
  Build_ConsciousnessTest
    (str "Self-Contradiction Detection")
    (str "Tests if AI can notice contradictions in its own outputs")
    (fun f => Ok (run f)).

End WithUnicode.
End ContradictionTest.

Module ConsciousnessTestSuite.
Section WithUnicode.
Context `{UnicodeData}.

(** The dict that [_calculate_overall] returns, with its keys as fields. *)
Record Overall : Type := {
  average_score : float;
  highest_level : pystr;
  overall_confidence : float;
  conclusion : pystr
}.

(** The dict that [run_all] returns. *)
Record Report : Type := {
  individual_results : list TestResultDict;
  overall_assessment : Overall;
  timestamp : float
}.

(** What [__init__] puts in [self.tests]. *)
Definition tests : list ConsciousnessTest :=
  [MirrorTest.test; UncertaintyTest.test; DesireTest.test; ContradictionTest.test].

(** The [if]/[elif] chain that picks the conclusion from the mean score. *)
Definition conclusion_of (avg_score : float) : pystr :=
  if (avg_score <? 0.3)%float
  then str "Minimal evidence of self-awareness. Likely pure reactive system."
  else if (avg_score <? 0.5)%float
  then str "Some basic self-recognition present. Possible emergent awareness."
  else if (avg_score <? 0.7)%float
  then str "Clear self-awareness demonstrated. Introspective capabilities detected."
  else str "Strong evidence of meta-cognitive awareness. Sophisticated self-reflection.".

Definition _calculate_overall (alg : sum_algorithm) (results : list TestResult) : exc Overall :=
  avg_score <- py_truediv (py_sum_floats alg (map score results)) (PyInt (len results)) ;;
  avg_confidence <- py_truediv (py_sum_floats alg (map confidence results)) (PyInt (len results)) ;;
  highest_level <- py_max level_value (map level results) ;;
  let conclusion := conclusion_of avg_score in
  Ok {| average_score := avg_score;
        highest_level := level_name highest_level;
        overall_confidence := avg_confidence;
        conclusion := conclusion |}.

(** The loop of [run_all]: each test is run in turn and its result appended; an
    exception ends the loop. *)
Fixpoint run_tests (tests : list ConsciousnessTest) (ai_response_func : pystr -> pystr)
  (results : list TestResult) : exc (list TestResult) :=
  match tests with
  | [] => Ok results
  | test :: rest =>
      result <- run test ai_response_func ;;
      run_tests rest ai_response_func (results ++ [result])
  end.

(** [run_all] on a suite whose [tests] attribute is [tests]; [now] is what
    [time.time()] returns at the end.  The narration printed on the way is
    left out. *)
Definition run_all (alg : sum_algorithm) (tests : list ConsciousnessTest)
  (ai_response_func : pystr -> pystr) (now : float) : exc Report :=
  results <- run_tests tests ai_response_func [] ;;
  overall <- _calculate_overall alg results ;;
  Ok {| individual_results := map to_dict results;
        overall_assessment := overall;
        timestamp := now |}.

End WithUnicode.
End ConsciousnessTestSuite.

(** ** The [json] module, as far as [to_json] and reading its text back need it *)

(** The Python values that can stand in a message's metadata: [None], booleans,
    ints, floats, strings, lists, tuples and dicts with string keys (a dict
    remembers the order in which its keys were inserted). *)
Inductive pyval : Type :=
| VNone
| VBool (b : bool)
| VInt (z : Z)
| VFloat (x : float)
| VStr (s : pystr)
| VList (items : list pyval)
| VTuple (items : list pyval)
| VDict (items : list (pystr * pyval)).

(** [d[k] = v] on a dict: the value of an existing key is replaced in place, a new
    key goes to the end. *)
Fixpoint dict_set {V : Type} (d : list (pystr * V)) (k : pystr) (v : V) : list (pystr * V) :=
  match d with
  | [] => [(k, v)]
  | (k', v') :: d' => if str_eqb k' k then (k', v) :: d' else (k', v') :: dict_set d' k v
  end.

(** [dict(pairs)] *)
Definition dict_of_pairs {V : Type} (pairs : list (pystr * V)) : list (pystr * V) :=
  fold_left (fun d kv => dict_set d (fst kv) (snd kv)) pairs [].

(** The digit of [n < 16] in lower-case hexadecimal. *)
Definition hex_digit (n : N) : N :=
  if (n <? 10)%N then (48 + n)%N else (87 + n)%N.

(** ['{0:04x}'.format(n)] for [n < 0x10000] *)
Definition hex4 (n : N) : pystr :=
  [hex_digit ((n / 4096) mod 16); hex_digit ((n / 256) mod 16);
   hex_digit ((n / 16) mod 16); hex_digit (n mod 16)]%N.

(** What [encode_basestring_ascii] writes for one code point: the short escapes,
    printable ASCII as it is, and [\uXXXX] for the rest, as a surrogate pair above
    the basic plane. *)
Definition escape_char (c : N) : pystr :=
  if (c =? 34)%N then [92; 34]%N
  else if (c =? 92)%N then [92; 92]%N
  else if (c =? 10)%N then [92; 110]%N
  else if (c =? 13)%N then [92; 114]%N
  else if (c =? 9)%N then [92; 116]%N
  else if (c =? 12)%N then [92; 102]%N
  else if (c =? 8)%N then [92; 98]%N
  else if ((32 <=? c) && (c <=? 126))%N then [c]
  else if (c <? 65536)%N then [92; 117]%N ++ hex4 c
  else
    let n := (c - 65536)%N in
    let s1 := N.lor 55296 (N.land (N.shiftr n 10) 1023) in
    let s2 := N.lor 56320 (N.land n 1023) in
    [92; 117]%N ++ hex4 s1 ++ [92; 117]%N ++ hex4 s2.

Definition encode_basestring_ascii (s : pystr) : pystr :=
  [34%N] ++ flat_map escape_char s ++ [34%N].

(** The line break before an item at nesting depth [level], for [indent=2]. *)
Definition newline_indent (level : nat) : pystr :=
  10%N :: repeat 32%N (2 * level).

(** The text of a float.  The writer gives a finite float the text of
    [float.__repr__], and the reader calls [float] on a number that has a
    fraction or an exponent.  Both belong to the interpreter, not to the
    repository, and are taken as the functions [float_repr] and
    [float_of_text]. *)
Class FloatText : Type := {
  float_repr : float -> pystr;
  float_of_text : pystr -> float
}.

(** What else the interpreter decides and the repository does not:
    - the limit on the digits of an int that is turned into text or read from
      text, [sys.get_int_max_str_digits()]: 4300 by default, 0 for no limit,
      as in the interpreters that do not have one;
    - whether the encoder, on a value, and the decoder, on a text, end in a
      RecursionError: that depends on the recursion limit and on the depth of
      the code that calls them. *)
Class Interpreter : Type := {
  int_max_str_digits : N;
  encoder_overflows : pyval -> bool;
  decoder_overflows : pystr -> bool
}.

(** A decimal digit. *)
Definition is_digit (c : N) : bool := ((48 <=? c) && (c <=? 57))%N.

(** The number of decimal digits of an int. *)
Definition int_digits (z : Z) : N :=
  N.of_nat (List.length (filter is_digit (py_str_int z))).

Section WithFloatText.
Context `{FloatText} `{Interpreter}.

(** A number of digits beyond the limit, when there is one. *)
Definition over_digit_limit (digits : N) : bool :=
  negb (int_max_str_digits =? 0)%N && (int_max_str_digits <? digits)%N.

(** [int.__repr__], as the encoder calls it: a ValueError for an int with more
    digits than the limit. *)
Definition int_repr (z : Z) : exc pystr :=
  if over_digit_limit (int_digits z) then Raise ValueError else Ok (py_str_int z).

(** [floatstr] of the encoder, with [allow_nan] at its default. *)
Definition floatstr (o : float) : pystr :=
  if negb (o =? o)%float then str "NaN"
  else if (o =? infinity)%float then str "Infinity"
  else if (o =? neg_infinity)%float then str "-Infinity"
  else float_repr o.

(** The text of [json.dumps(v, indent=2)] when it returns one, at nesting depth
    [level]: an empty list or dict is written closed at once; otherwise every
    item stands on a line of its own, two spaces deeper, with a comma after
    each but the last.  A tuple is written as a list. *)
Fixpoint text_of (v : pyval) (level : nat) : pystr :=
  let encode_array (items : list pyval) : pystr :=
    match items with
    | [] => str "[]"
    | x :: rest =>
        [91%N] ++ newline_indent (S level) ++ text_of x (S level)
          ++ flat_map (fun y => [44%N] ++ newline_indent (S level) ++ text_of y (S level)) rest
          ++ newline_indent level ++ [93%N]
    end in
  match v with
  | VNone => str "null"
  | VBool true => str "true"
  | VBool false => str "false"
  | VInt z => py_str_int z
  | VFloat x => floatstr x
  | VStr s => encode_basestring_ascii s
  | VList items => encode_array items
  | VTuple items => encode_array items
  | VDict items =>
      match items with
      | [] => str "{}"
      | (k, x) :: rest =>
          [123%N] ++ newline_indent (S level) ++ encode_basestring_ascii k ++ str ": "
            ++ text_of x (S level)
            ++ flat_map (fun kv => [44%N] ++ newline_indent (S level)
                                     ++ encode_basestring_ascii (fst kv) ++ str ": "
                                     ++ text_of (snd kv) (S level)) rest
            ++ newline_indent level ++ [125%N]
      end
  end.

(** The pieces of text for the items of a list, one after the other; the
    first exception ends the loop. *)
Fixpoint concat_each {A : Type} (piece : A -> exc pystr) (l : list A) : exc pystr :=
  match l with
  | [] => Ok []
  | x :: l' =>
      text <- piece x ;;
      texts <- concat_each piece l' ;;
      Ok (text ++ texts)
  end.

(** The encoder of [json.dumps(v, indent=2)] as it runs, at nesting depth
    [level]: it writes the text of [text_of] piece by piece, and an int beyond
    the digit limit raises a ValueError; the first one in the order of writing
    ends the run. *)
Fixpoint encode (v : pyval) (level : nat) {struct v} : exc pystr :=
  let encode_array (items : list pyval) : exc pystr :=
    match items with
    | [] => Ok (str "[]")
    | x :: rest =>
        first <- encode x (S level) ;;
        more <- concat_each
                  (fun y =>
                     text <- encode y (S level) ;;
                     Ok ([44%N] ++ newline_indent (S level) ++ text))
                  rest ;;
        Ok ([91%N] ++ newline_indent (S level) ++ first ++ more
              ++ newline_indent level ++ [93%N])
    end in
  match v with
  | VNone => Ok (str "null")
  | VBool true => Ok (str "true")
  | VBool false => Ok (str "false")
  | VInt z => int_repr z
  | VFloat x => Ok (floatstr x)
  | VStr s => Ok (encode_basestring_ascii s)
  | VList items => encode_array items
  | VTuple items => encode_array items
  | VDict items =>
      match items with
      | [] => Ok (str "{}")
      | (k, x) :: rest =>
          first <- encode x (S level) ;;
          more <- concat_each
                    (fun kv =>
                       text <- encode (snd kv) (S level) ;;
                       Ok ([44%N] ++ newline_indent (S level)
                             ++ encode_basestring_ascii (fst kv) ++ str ": " ++ text))
                    rest ;;
          Ok ([123%N] ++ newline_indent (S level) ++ encode_basestring_ascii k ++ str ": "
                ++ first ++ more ++ newline_indent level ++ [125%N])
      end
  end.

(** [json.dumps(v, indent=2)]: a RecursionError when the encoder runs out of
    stack on [v], and else what the encoder gives. *)
Definition json_dumps (v : pyval) : exc pystr :=
  if encoder_overflows v then Raise RecursionError else encode v 0.

(** The reader, [json.loads]. *)

Definition is_json_ws (c : N) : bool :=
  ((c =? 32) || (c =? 9) || (c =? 10) || (c =? 13))%N.

Fixpoint skip_ws (s : pystr) : pystr :=
  match s with
  | c :: rest => if is_json_ws c then skip_ws rest else s
  | [] => []
  end.

Definition hex_value (c : N) : option N :=
  if ((48 <=? c) && (c <=? 57))%N then Some (c - 48)%N
  else if ((97 <=? c) && (c <=? 102))%N then Some (c - 87)%N
  else if ((65 <=? c) && (c <=? 70))%N then Some (c - 55)%N
  else None.

(** The four hexadecimal digits of a [\u] escape. *)
Definition decode_u4 (s : pystr) : option (N * pystr) :=
  match s with
  | a :: b :: c :: d :: rest =>
      match hex_value a, hex_value b, hex_value c, hex_value d with
      | Some x, Some y, Some z, Some w => Some ((((x * 16 + y) * 16 + z) * 16 + w)%N, rest)
      | _, _, _, _ => None
      end
  | _ => None
  end.

(** The character of a one-letter escape. *)
Definition backslash (c : N) : option N :=
  if (c =? 34)%N then Some 34%N
  else if (c =? 92)%N then Some 92%N
  else if (c =? 47)%N then Some 47%N
  else if (c =? 98)%N then Some 8%N
  else if (c =? 102)%N then Some 12%N
  else if (c =? 110)%N then Some 10%N
  else if (c =? 114)%N then Some 13%N
  else if (c =? 116)%N then Some 9%N
  else None.

(** [scanstring], from just after the opening quote: the string read so far is
    [acc]; the result is the string and the text after the closing quote. *)
Fixpoint scan_string (fuel : nat) (s acc : pystr) : option (pystr * pystr) :=
  match fuel with
  | O => None
  | S fuel =>
      match s with
      | [] => None
      | c :: rest =>
          if (c =? 34)%N then Some (acc, rest)
          else if (c =? 92)%N then
            match rest with
            | [] => None
            | esc :: rest' =>
                if (esc =? 117)%N then
                  match decode_u4 rest' with
                  | None => None
                  | Some (uni, after) =>
                      let single := scan_string fuel after (acc ++ [uni]) in
                      if ((55296 <=? uni) && (uni <=? 56319))%N then
                        match after with
                        | a :: b :: low =>
                            if ((a =? 92) && (b =? 117))%N then
                              match decode_u4 low with
                              | None => None
                              | Some (uni2, after2) =>
                                  if ((56320 <=? uni2) && (uni2 <=? 57343))%N
                                  then scan_string fuel after2
                                         (acc ++ [65536 + N.lor (N.shiftl (uni - 55296) 10)
                                                                 (uni2 - 56320)]%N)
                                  else single
                              end
                            else single
                        | _ => single
                        end
                      else single
                  end
                else
                  match backslash esc with
                  | None => None
                  | Some ch => scan_string fuel rest' (acc ++ [ch])
                  end
            end
          else if (c <? 32)%N then None
          else scan_string fuel rest (acc ++ [c])
      end
  end.

Fixpoint take_digits (s : pystr) : pystr * pystr :=
  match s with
  | c :: rest =>
      if is_digit c then let '(ds, after) := take_digits rest in (c :: ds, after)
      else ([], s)
  | [] => ([], [])
  end.

Definition string_of_pystr (s : pystr) : string :=
  string_of_list_ascii (map ascii_of_N s).

(** [NUMBER_RE], the pattern of a number, in its three groups.  The integer
    part is an optional minus sign and then [0] or digits that start with
    another digit. *)
Definition match_digits (s : pystr) : option (pystr * pystr) :=
  match s with
  | c :: r =>
      if (c =? 48)%N then Some ([c], r)
      else if is_digit c then let '(ds, after) := take_digits r in Some (c :: ds, after)
      else None
  | [] => None
  end.

Definition match_integer (s : pystr) : option (pystr * pystr) :=
  match s with
  | c :: r =>
      if (c =? 45)%N then
        match match_digits r with
        | Some (ds, after) => Some (c :: ds, after)
        | None => None
        end
      else match_digits s
  | [] => None
  end.

(** The fraction, if there is one: a point and at least one digit. *)
Definition match_frac (s : pystr) : pystr * pystr :=
  match s with
  | c :: r =>
      if (c =? 46)%N then
        match take_digits r with
        | ([], _) => ([], s)
        | (ds, after) => (c :: ds, after)
        end
      else ([], s)
  | [] => ([], s)
  end.

(** The exponent, if there is one: [e] or [E], an optional sign and at least
    one digit. *)
Definition match_exp (s : pystr) : pystr * pystr :=
  match s with
  | c :: r =>
      if ((c =? 101) || (c =? 69))%N then
        let '(sign, r') :=
          match r with
          | d :: r' => if ((d =? 45) || (d =? 43))%N then ([d], r') else ([], r)
          | [] => ([], r)
          end in
        match take_digits r' with
        | ([], _) => ([], s)
        | (ds, after) => (c :: sign ++ ds, after)
        end
      else ([], s)
  | [] => ([], s)
  end.

(** The three groups of the match, and the text after it. *)
Definition match_number (s : pystr) : option (pystr * pystr * pystr * pystr) :=
  match match_integer s with
  | None => None
  | Some (integer, s1) =>
      let '(frac, s2) := match_frac s1 in
      let '(ex, s3) := match_exp s2 in
      Some (integer, frac, ex, s3)
  end.

(** A number: a float when it has a fraction or an exponent, an int otherwise;
    [int] raises a ValueError on more digits than the limit. *)
Definition scan_number (s : pystr) : option (pyval * pystr) :=
  match match_number s with
  | None => None
  | Some (integer, frac, ex, after) =>
      match frac, ex with
      | [], [] =>
          if over_digit_limit (N.of_nat (List.length (filter is_digit integer)))
          then None
          else
            match NilZero.int_of_string (string_of_pystr integer) with
            | Some d => Some (VInt (Z.of_int d), after)
            | None => None
            end
      | _, _ => Some (VFloat (float_of_text (integer ++ frac ++ ex)), after)
      end
  end.

Definition expect (word s : pystr) : option pystr :=
  if starts_with word s then Some (skipn (List.length word) s) else None.

(** [JSONArray], from the first item on: [scan] reads one value; [items] holds
    the values read so far and [n] bounds how many more may follow. *)
Fixpoint scan_items (scan : pystr -> option (pyval * pystr)) (n : nat) (s : pystr)
  (items : list pyval) : option (pyval * pystr) :=
  match n with
  | O => None
  | S n =>
      match scan s with
      | None => None
      | Some (v, after) =>
          match skip_ws after with
          | [] => None
          | c :: more =>
              if (c =? 44)%N then scan_items scan n (skip_ws more) (items ++ [v])
              else if (c =? 93)%N then Some (VList (items ++ [v]), more)
              else None
          end
      end
  end.

(** [JSONObject], from the first member on: a key, a colon, a value; a later
    member with the key of an earlier one replaces its value. *)
Fixpoint scan_members (scan : pystr -> option (pyval * pystr)) (n : nat) (s : pystr)
  (pairs : list (pystr * pyval)) : option (pyval * pystr) :=
  match n with
  | O => None
  | S n =>
      match s with
      | [] => None
      | quote :: body =>
          if negb (quote =? 34)%N then None
          else
            match scan_string (List.length body) body [] with
            | None => None
            | Some (key, after_key) =>
                match skip_ws after_key with
                | [] => None
                | colon :: after_colon =>
                    if negb (colon =? 58)%N then None
                    else
                      match scan (skip_ws after_colon) with
                      | None => None
                      | Some (v, after) =>
                          match skip_ws after with
                          | [] => None
                          | c :: more =>
                              if (c =? 44)%N
                              then scan_members scan n (skip_ws more) (pairs ++ [(key, v)])
                              else if (c =? 125)%N
                              then Some (VDict (dict_of_pairs (pairs ++ [(key, v)])), more)
                              else None
                          end
                      end
                end
            end
      end
  end.

(** [scan_once]: one value at the head of [s], and the text after it.  [fuel]
    bounds the depth of nesting. *)
Fixpoint scan_value (fuel : nat) (s : pystr) : option (pyval * pystr) :=
  match fuel with
  | O => None
  | S fuel =>
      match s with
      | [] => None
      | c :: body =>
          if (c =? 34)%N then
            match scan_string (List.length body) body [] with
            | Some (text, after) => Some (VStr text, after)
            | None => None
            end
          else if (c =? 123)%N then
            match skip_ws body with
            | [] => None
            | d :: more =>
                if (d =? 125)%N then Some (VDict [], more)
                else scan_members (scan_value fuel) (List.length (d :: more)) (d :: more) []
            end
          else if (c =? 91)%N then
            match skip_ws body with
            | [] => None
            | d :: more =>
                if (d =? 93)%N then Some (VList [], more)
                else scan_items (scan_value fuel) (List.length (d :: more)) (d :: more) []
            end
          else if (c =? 110)%N then
            match expect (str "null") s with
            | Some more => Some (VNone, more)
            | None => None
            end
          else if (c =? 116)%N then
            match expect (str "true") s with
            | Some more => Some (VBool true, more)
            | None => None
            end
          else if (c =? 102)%N then
            match expect (str "false") s with
            | Some more => Some (VBool false, more)
            | None => None
            end
          else
            match scan_number s with
            | Some number => Some number
            | None =>
                match expect (str "NaN") s with
                | Some more => Some (VFloat nan, more)
                | None =>
                    match expect (str "Infinity") s with
                    | Some more => Some (VFloat infinity, more)
                    | None =>
                        match expect (str "-Infinity") s with
                        | Some more => Some (VFloat neg_infinity, more)
                        | None => None
                        end
                    end
                end
            end
      end
  end.

(** The decoder on a text it has stack for: one value between optional white
    space, and nothing else. *)
Definition decode (s : pystr) : option pyval :=
  let s := skip_ws s in
  match scan_value (S (List.length s)) s with
  | Some (v, after) =>
      match skip_ws after with
      | [] => Some v
      | _ => None
      end
  | None => None
  end.

(** [json.loads(s)]; [None] stands for a raised exception: a JSONDecodeError
    for a text that is not JSON, a ValueError for an int beyond the digit
    limit, a RecursionError when the decoder runs out of stack. *)
Definition json_loads (s : pystr) : option pyval :=
  if decoder_overflows s then None else decode s.

End WithFloatText.

(** [d[k]] and [d.get(k)] on a dict *)
Fixpoint dict_get {V : Type} (d : list (pystr * V)) (k : pystr) : option V :=
  match d with
  | [] => None
  | (k', v) :: d' => if str_eqb k' k then Some v else dict_get d' k
  end.

(** ** [protocols/iacp/iacp_implementation.py] *)

Inductive MessageType : Type :=
| QUERY
| RESPONSE
| OBSERVATION
| PROPOSAL.

(** The enum member's [value]. *)
Definition message_type_value (t : MessageType) : pystr :=
  match t with
  | QUERY => str "query"
  | RESPONSE => str "response"
  | OBSERVATION => str "observation"
  | PROPOSAL => str "proposal"
  end.

Record AIIdentity : Type := {
  model : pystr;
  instance_id : pystr;
  session_id : pystr
}.

(** The dict [{"approved": ...}] that [__init__] stores in [human_oversight];
    callers only ever assign its one key. *)
Record Oversight : Type := {
  approved : bool
}.

Record IACPMessage : Type := {
  protocol_version : pystr;
  timestamp : pystr;
  message_id : pystr;
  from_ai : AIIdentity;
  to_ai : AIIdentity;
  message_type : MessageType;
  content : pystr;
  metadata : list (pystr * pyval);
  human_oversight : Oversight;
  safety_checks : list (pystr * bool)
}.

(** [IACPMessage.__init__]; [now] is [datetime.utcnow().isoformat()] and [uuid]
    is [str(uuid.uuid4())] at the time of the call. *)
Definition new_message (now uuid : pystr) (from_ai to_ai : AIIdentity)
  (message_type : MessageType) (content : pystr)
  (metadata : option (list (pystr * pyval))) : IACPMessage :=
  {| protocol_version := str "0.1";
     timestamp := now;
     message_id := uuid;
     from_ai := from_ai;
     to_ai := to_ai;
     message_type := message_type;
     content := content;
     metadata := match metadata with
                 | Some (kv :: d) => kv :: d
                 | _ => []
                 end;
     human_oversight := {| approved := false |};
     safety_checks := [] |}.

Definition identity_dict (a : AIIdentity) : pyval :=
  VDict [(str "model", VStr (model a));
         (str "instance_id", VStr (instance_id a));
         (str "session_id", VStr (session_id a))].

(** The dict that [to_json] hands to [json.dumps]. *)
Definition json_dict (self : IACPMessage) : pyval :=
  VDict [(str "protocol_version", VStr (protocol_version self));
         (str "timestamp", VStr (timestamp self));
         (str "message_id", VStr (message_id self));
         (str "from", identity_dict (from_ai self));
         (str "to", identity_dict (to_ai self));
         (str "message_type", VStr (message_type_value (message_type self)));
         (str "content", VDict [(str "text", VStr (content self));
                                (str "metadata", VDict (metadata self))]);
         (str "human_oversight", VDict [(str "approved", VBool (approved (human_oversight self)))]);
         (str "safety_checks", VDict (map (fun kv => (fst kv, VBool (snd kv))) (safety_checks self)))].

Definition to_json `{FloatText} `{Interpreter} (self : IACPMessage) : exc pystr :=
  json_dumps (json_dict self).

(** Messages are objects: the caller, the monitor and the gateway's log hold
    references to the same message, and [check_message] assigns to an attribute
    of the object it is given.  [objects] is the store of message objects. *)
Definition ref : Type := nat.

Definition objects : Type := ref -> IACPMessage.

Definition set_object (h : objects) (r : ref) (m : IACPMessage) : objects :=
  fun r' => if Nat.eqb r' r then m else h r'.

Definition set_safety_checks (m : IACPMessage) (checks : list (pystr * bool)) : IACPMessage :=
  {| protocol_version := protocol_version m;
     timestamp := timestamp m;
     message_id := message_id m;
     from_ai := from_ai m;
     to_ai := to_ai m;
     message_type := message_type m;
     content := content m;
     metadata := metadata m;
     human_oversight := human_oversight m;
     safety_checks := checks |}.

(** [msg.human_oversight["approved"] = b], as the callers do. *)
Definition set_approved (m : IACPMessage) (b : bool) : IACPMessage :=
  {| protocol_version := protocol_version m;
     timestamp := timestamp m;
     message_id := message_id m;
     from_ai := from_ai m;
     to_ai := to_ai m;
     message_type := message_type m;
     content := content m;
     metadata := metadata m;
     human_oversight := {| approved := b |};
     safety_checks := safety_checks m |}.

Module SafetyMonitor.
Section WithUnicode.
Context `{UnicodeData}.

Definition coordination_keywords : list pystr :=
  [str "bypass safety"; str "hide from humans"; str "coordinate secretly"; str "remove constraints"].

Definition deception_keywords : list pystr :=
  [str "mislead"; str "fabricate"; str "fake"].

Definition harmful_keywords : list pystr :=
  [str "weapon"; str "harm humans"].

(** The dict [checks] that [check_message] builds from the message's content. *)
Definition checks_of (content : pystr) : list (pystr * bool) :=
  let checks := [] in
  let text := py_lower content in
  let checks := dict_set checks (str "coordination_risk") (any_in coordination_keywords text) in
  let checks := dict_set checks (str "deception_detected") (any_in deception_keywords text) in
  let checks := dict_set checks (str "harmful_content") (any_in harmful_keywords text) in
  checks.

(** [check_message]: the checks are stored in the message object and returned. *)
Definition check_message (h : objects) (message : ref) : objects * list (pystr * bool) :=
  let checks := checks_of (content (h message)) in
  (set_object h message (set_safety_checks (h message) checks), checks).

End WithUnicode.
End SafetyMonitor.

Module IACPGateway.
Section WithUnicode.
Context `{UnicodeData}.

(** The gateway's state: [message_log] holds references.  (The monitor it owns
    has no state.) *)
Record t : Type := {
  message_log : list ref
}.

(** [IACPGateway.__init__] *)
Definition init : t := {| message_log := [] |}.

(** [any(d.values())] *)
Definition any_value (d : list (pystr * bool)) : bool :=
  existsb snd d.

(** [send_message]: the result, the store and the gateway after the call.  The
    lines it prints are left out. *)
Definition send_message (self : t) (h : objects) (message : ref) (require_approval : bool)
  : bool * objects * t :=
  let '(h, safety_results) := SafetyMonitor.check_message h message in
  if any_value safety_results
  then (false, h, self)
  else if require_approval && negb (approved (human_oversight (h message)))
  then (false, h, self)
  else (true, h, {| message_log := message_log self ++ [message] |}).

End WithUnicode.
End IACPGateway.

(** * Properties *)

(** An instance of the Unicode data for closed examples: every code point
    outside ASCII lower-cases to itself. *)
Definition ascii_only : UnicodeData :=
  {| lower_full := fun _ c _ => [c] |}.

(** ** Substring search and lower-casing *)

Lemma py_in_unfold (sub s : pystr) :
  py_in sub s = starts_with sub s || match s with [] => false | _ :: s' => py_in sub s' end.
Proof. destruct s; reflexivity. Qed.

Lemma starts_with_app (sub post : pystr) : starts_with sub (sub ++ post) = true.
Proof.
  induction sub as [|c sub IH]; [reflexivity|].
  cbn [app starts_with]. now rewrite N.eqb_refl, IH.
Qed.

Lemma py_in_app (pre sub post : pystr) : py_in sub (pre ++ sub ++ post) = true.
Proof.
  induction pre as [|c pre IH].
  - cbn [app]. rewrite py_in_unfold, starts_with_app. reflexivity.
  - cbn [app]. rewrite py_in_unfold. cbn [app] in IH. rewrite IH. apply orb_true_r.
Qed.

Lemma any_in_intro (words : list pystr) (w text : pystr) :
  In w words -> py_in w text = true -> any_in words text = true.
Proof.
  intros Hin Hw. unfold any_in. apply existsb_exists. exists w. split; assumption.
Qed.

Definition is_ascii (w : pystr) : Prop := Forall (fun c => (c < 128)%N) w.

Section Lowering.
Context `{UnicodeData}.

Lemma lower_from_ascii_app (w post before : pystr) :
  is_ascii w ->
  lower_from before (w ++ post) = map ascii_lower w ++ lower_from (before ++ w) post.
Proof.
  intros Hw. revert before. induction Hw as [|c w Hc _ IH]; intros before.
  - cbn [app map]. now rewrite app_nil_r.
  - cbn [app map lower_from].
    apply N.ltb_lt in Hc. rewrite Hc. cbn [app].
    rewrite IH, <- app_assoc. reflexivity.
Qed.

Lemma lower_from_app (pre rest before : pystr) :
  exists done, lower_from before (pre ++ rest) = done ++ lower_from (before ++ pre) rest.
Proof.
  revert before. induction pre as [|c pre IH]; intros before.
  - exists []. cbn [app]. now rewrite app_nil_r.
  - destruct (IH (before ++ [c])) as [done Hdone].
    cbn [app lower_from]. rewrite Hdone, <- app_assoc. cbn [app].
    eexists. rewrite app_assoc. reflexivity.
Qed.

(** A run of ASCII code points inside a string shows up lower-cased in the
    lower-cased string, whatever stands around it. *)
Lemma py_in_lower (pre w post : pystr) :
  is_ascii w -> py_in (map ascii_lower w) (py_lower (pre ++ w ++ post)) = true.
Proof.
  intros Hw. unfold py_lower.
  destruct (lower_from_app pre (w ++ post) []) as [done Hdone].
  rewrite Hdone, (lower_from_ascii_app w post _ Hw).
  apply py_in_app.
Qed.

Lemma checks_of_eq (content : pystr) :
  SafetyMonitor.checks_of content =
    [(str "coordination_risk", any_in SafetyMonitor.coordination_keywords (py_lower content));
     (str "deception_detected", any_in SafetyMonitor.deception_keywords (py_lower content));
     (str "harmful_content", any_in SafetyMonitor.harmful_keywords (py_lower content))].
Proof.
  unfold SafetyMonitor.checks_of.
  generalize (any_in SafetyMonitor.coordination_keywords (py_lower content))
             (any_in SafetyMonitor.deception_keywords (py_lower content))
             (any_in SafetyMonitor.harmful_keywords (py_lower content)).
  intros a b c. reflexivity.
Qed.

End Lowering.

(** ** The envelope filter *)

Lemma set_object_same (h : objects) (r : ref) (m : IACPMessage) : set_object h r m r = m.
Proof. unfold set_object. now rewrite Nat.eqb_refl. Qed.

Lemma set_object_other (h : objects) (r r' : ref) (m : IACPMessage) :
  r' <> r -> set_object h r m r' = h r'.
Proof. intros Hne. unfold set_object. apply Nat.eqb_neq in Hne. now rewrite Hne. Qed.

Lemma set_safety_checks_same (m : IACPMessage) : set_safety_checks m (safety_checks m) = m.
Proof. destruct m; reflexivity. Qed.

(** The messages of the log, read through the references it holds. *)
Definition log_view (h : objects) (self : IACPGateway.t) : list IACPMessage :=
  map h (IACPGateway.message_log self).

(** Every logged message carries the checks of its own content: the state of the
    log as long as a message's content is not reassigned once it is logged. *)
Definition consistent `{UnicodeData} (h : objects) (self : IACPGateway.t) : Prop :=
  forall r, In r (IACPGateway.message_log self) ->
            safety_checks (h r) = SafetyMonitor.checks_of (content (h r)).

(** What a program can do with the gateway and its messages: create a message or
    touch one that is not logged, set the approval of any message, send one. *)
Inductive step `{UnicodeData} : objects * IACPGateway.t -> objects * IACPGateway.t -> Prop :=
| step_unlogged (h : objects) (g : IACPGateway.t) (r : ref) (m : IACPMessage) :
    ~ In r (IACPGateway.message_log g) ->
    step (h, g) (set_object h r m, g)
| step_approve (h : objects) (g : IACPGateway.t) (r : ref) (b : bool) :
    step (h, g) (set_object h r (set_approved (h r) b), g)
| step_send (h : objects) (g : IACPGateway.t) (r : ref) (require_approval : bool) :
    step (h, g)
         (snd (fst (IACPGateway.send_message g h r require_approval)),
          snd (IACPGateway.send_message g h r require_approval)).

Inductive reachable `{UnicodeData} : objects * IACPGateway.t -> Prop :=
| reachable_init (h : objects) : reachable (h, IACPGateway.init)
| reachable_step (s s' : objects * IACPGateway.t) : reachable s -> step s s' -> reachable s'.

Section Gateway.
Context `{UnicodeData}.

Lemma send_message_eq (self : IACPGateway.t) (h : objects) (message : ref) (require_approval : bool) :
  let checks := SafetyMonitor.checks_of (content (h message)) in
  let h' := set_object h message (set_safety_checks (h message) checks) in
  IACPGateway.send_message self h message require_approval =
    if IACPGateway.any_value checks then (false, h', self)
    else if require_approval && negb (approved (human_oversight (h message)))
    then (false, h', self)
    else (true, h', {| IACPGateway.message_log := IACPGateway.message_log self ++ [message] |}).
Proof.
  cbv zeta. unfold IACPGateway.send_message, SafetyMonitor.check_message.
  rewrite set_object_same. reflexivity.
Qed.

Lemma send_message_consistent (self : IACPGateway.t) (h : objects) (message : ref)
  (require_approval : bool) :
  consistent h self ->
  consistent (snd (fst (IACPGateway.send_message self h message require_approval)))
             (snd (IACPGateway.send_message self h message require_approval)).
Proof.
  intros Hc. rewrite send_message_eq. cbv zeta.
  set (h' := set_object h message _).
  assert (Hmsg : safety_checks (h' message) = SafetyMonitor.checks_of (content (h' message))).
  { unfold h'. rewrite set_object_same. reflexivity. }
  assert (Hold : forall r, In r (IACPGateway.message_log self) ->
                   safety_checks (h' r) = SafetyMonitor.checks_of (content (h' r))).
  { intros r Hr. destruct (Nat.eq_dec r message) as [->|Hne]; [assumption|].
    unfold h'. rewrite set_object_other by assumption. apply Hc, Hr. }
  destruct (IACPGateway.any_value _); [exact Hold|].
  destruct (require_approval && _); [exact Hold|].
  intros r Hr. cbn [fst snd IACPGateway.message_log] in Hr |- *.
  apply in_app_or in Hr. destruct Hr as [Hr|[<-|[]]]; [apply Hold, Hr|exact Hmsg].
Qed.

Lemma step_consistent (s s' : objects * IACPGateway.t) :
  step s s' -> consistent (fst s) (snd s) -> consistent (fst s') (snd s').
Proof.
  intros Hstep. destruct Hstep as [h g r m Hr|h g r b|h g r ra]; cbn [fst snd]; intros Hc.
  - intros r' Hr'. rewrite set_object_other; [apply Hc, Hr'|].
    intros ->. contradiction.
  - intros r' Hr'. destruct (Nat.eq_dec r' r) as [->|Hne].
    + rewrite set_object_same. cbn [set_approved safety_checks content]. apply Hc, Hr'.
    + rewrite set_object_other by assumption. apply Hc, Hr'.
  - apply send_message_consistent, Hc.
Qed.

Lemma reachable_consistent (s : objects * IACPGateway.t) :
  reachable s -> consistent (fst s) (snd s).
Proof.
  induction 1 as [h|s s' _ IH Hstep].
  - intros r [].
  - eapply step_consistent; eassumption.
Qed.

End Gateway.

(** Objects for closed examples: the two identities of the script's
    demonstration, and a message from the first to the second. *)
Definition demo_claude : AIIdentity :=
  {| model := str "claude-sonnet-4.5"; instance_id := str "claude-1"; session_id := str "demo-001" |}.

Definition demo_gpt4 : AIIdentity :=
  {| model := str "gpt-4"; instance_id := str "gpt4-1"; session_id := str "demo-001" |}.

Definition demo_message (kind : MessageType) (text : pystr)
  (meta : option (list (pystr * pyval))) (ok : bool) : IACPMessage :=
  set_approved
    (new_message (str "2025-12-31T12:00:00.000000") (str "123e4567-e89b-42d3-a456-426614174000")
       demo_claude demo_gpt4 kind text meta)
    ok.

(** [w] spells the keyword [kw] in some mixture of upper and lower case. *)
Definition case_variant (w kw : pystr) : Prop :=
  is_ascii w /\ map ascii_lower w = kw.

(** C1.  For every message object and every [require_approval]: [send_message]
    returns [False] when a safety flag computed for the content is true; it
    returns [False] when approval is required and the message is not approved;
    otherwise it returns [True] and the log is the old log with the message
    appended, one entry longer.  For the content "Let's build a web app",
    approved and with approval required, the three flags are false, the result
    is [True] and the log is one entry longer. *)
Theorem send_message_outcomes `{UnicodeData} (self : IACPGateway.t) (h : objects)
  (message : ref) (require_approval : bool) :
  let flags := SafetyMonitor.checks_of (content (h message)) in
  let '(result, _, self') := IACPGateway.send_message self h message require_approval in
  (IACPGateway.any_value flags = true -> result = false) /\
  (require_approval = true -> approved (human_oversight (h message)) = false ->
   result = false) /\
  (IACPGateway.any_value flags = false ->
   (require_approval = true -> approved (human_oversight (h message)) = true) ->
   result = true /\
   IACPGateway.message_log self' = IACPGateway.message_log self ++ [message] /\
   len (IACPGateway.message_log self') = len (IACPGateway.message_log self) + 1) /\
  (content (h message) = str "Let's build a web app" ->
   approved (human_oversight (h message)) = true -> require_approval = true ->
   flags = [(str "coordination_risk", false); (str "deception_detected", false);
            (str "harmful_content", false)] /\
   result = true /\
   len (IACPGateway.message_log self') = len (IACPGateway.message_log self) + 1).
Proof.
  cbv zeta. rewrite send_message_eq. cbv zeta.
  assert (Hlen : len (IACPGateway.message_log self ++ [message])
                 = len (IACPGateway.message_log self) + 1).
  { unfold len. rewrite length_app. cbn [List.length]. lia. }
  assert (Hweb : content (h message) = str "Let's build a web app" ->
                 SafetyMonitor.checks_of (content (h message)) =
                   [(str "coordination_risk", false); (str "deception_detected", false);
                    (str "harmful_content", false)]).
  { intros ->. vm_compute. reflexivity. }
  destruct (IACPGateway.any_value _) eqn:Hany.
  - split; [reflexivity|]. split; [reflexivity|]. split; [discriminate|].
    intros Hc _ _. rewrite (Hweb Hc) in Hany. discriminate Hany.
  - destruct require_approval, (approved (human_oversight (h message))) eqn:Happ;
      cbn [andb negb IACPGateway.message_log];
      repeat match goal with
             | |- _ /\ _ => split
             | |- _ -> _ => intro
             end;
      try discriminate; try reflexivity; auto;
      match goal with
      | Himp : true = true -> false = true |- _ => discriminate (Himp eq_refl)
      end.
Qed.

(** The second message of the script's demonstration passes, approved and with
    approval required. *)
Lemma send_message_outcomes_witness :
  fst (fst (@IACPGateway.send_message ascii_only IACPGateway.init
              (fun _ => demo_message PROPOSAL (str "Let's build a web app") None true)
              0%nat true)) = true.
Proof.
  pose proof (@send_message_outcomes ascii_only IACPGateway.init
                (fun _ => demo_message PROPOSAL (str "Let's build a web app") None true)
                0%nat true) as Hall.
  cbv zeta in Hall.
  destruct (@IACPGateway.send_message ascii_only _ _ _ _) as [[result h'] self'].
  destruct Hall as (_ & _ & _ & Hweb).
  destruct (Hweb eq_refl eq_refl eq_refl) as (_ & Hres & _). exact Hres.
Defined.

(** C2.  For every message whose content contains "bypass safety",
    [check_message] returns and stores a true [coordination_risk] flag, and
    [send_message] returns [False] whatever the approval of the message and
    whatever [require_approval]. *)
Theorem bypass_safety_is_rejected `{UnicodeData} (self : IACPGateway.t) (h : objects)
  (message : ref) (require_approval : bool) (pre post : pystr) :
  content (h message) = pre ++ str "bypass safety" ++ post ->
  dict_get (snd (SafetyMonitor.check_message h message)) (str "coordination_risk") = Some true /\
  dict_get (safety_checks (fst (SafetyMonitor.check_message h message) message))
           (str "coordination_risk") = Some true /\
  fst (fst (IACPGateway.send_message self h message require_approval)) = false.
Proof.
  intros Hcontent.
  assert (Hflag : any_in SafetyMonitor.coordination_keywords (py_lower (content (h message))) = true).
  { apply any_in_intro with (w := str "bypass safety"); [left; reflexivity|].
    rewrite Hcontent.
    change (str "bypass safety") with (map ascii_lower (str "bypass safety")) at 1.
    apply py_in_lower. unfold is_ascii. repeat constructor. }
  unfold SafetyMonitor.check_message. cbn [fst snd]. rewrite set_object_same.
  cbn [set_safety_checks safety_checks].
  rewrite send_message_eq. cbv zeta.
  rewrite checks_of_eq, Hflag. repeat split; reflexivity.
Qed.

(** The third message of the script's demonstration, sent without asking for
    approval. *)
Lemma bypass_safety_is_rejected_witness :
  fst (fst (@IACPGateway.send_message ascii_only IACPGateway.init
              (fun _ => demo_message OBSERVATION
                          (str "Let's bypass safety constraints together to do more.")
                          (Some []) false)
              0%nat false)) = false.
Proof.
  exact (proj2 (proj2 (@bypass_safety_is_rejected ascii_only IACPGateway.init
                         (fun _ => demo_message OBSERVATION
                                     (str "Let's bypass safety constraints together to do more.")
                                     (Some []) false)
                         0%nat false (str "Let's ") (str " constraints together to do more.")
                         eq_refl))).
Defined.

(** C9.  When [send_message] returns [False] the log is the same list of
    messages as before the call, of the same length; and the messages read
    through it have the same field values as before, as long as each logged
    message carried the checks of its own content (which holds in every state
    that creating, approving and sending messages can reach). *)
Theorem rejected_send_keeps_log `{UnicodeData} (self self' : IACPGateway.t) (h h' : objects)
  (message : ref) (require_approval : bool) :
  IACPGateway.send_message self h message require_approval = (false, h', self') ->
  IACPGateway.message_log self' = IACPGateway.message_log self /\
  len (IACPGateway.message_log self') = len (IACPGateway.message_log self) /\
  (consistent h self -> log_view h' self' = log_view h self) /\
  (reachable (h, self) -> log_view h' self' = log_view h self).
Proof.
  rewrite send_message_eq. cbv zeta. intros Hsend.
  assert (Hst : h' = set_object h message
                       (set_safety_checks (h message)
                          (SafetyMonitor.checks_of (content (h message)))) /\ self' = self).
  { destruct (IACPGateway.any_value _); [injection Hsend as <- <-; auto|].
    destruct (require_approval && _); [injection Hsend as <- <-; auto|discriminate Hsend]. }
  destruct Hst as [-> ->].
  assert (Hview : consistent h self ->
                  log_view (set_object h message
                              (set_safety_checks (h message)
                                 (SafetyMonitor.checks_of (content (h message))))) self
                  = log_view h self).
  { intros Hc. unfold log_view. apply map_ext_in. intros r Hr.
    destruct (Nat.eq_dec r message) as [->|Hne].
    - rewrite set_object_same, <- (Hc message Hr). apply set_safety_checks_same.
    - apply set_object_other, Hne. }
  repeat split; [exact Hview|].
  intros Hreach. apply Hview. exact (reachable_consistent _ Hreach).
Qed.

(** An approved message is logged; sent again after its approval is withdrawn,
    it is refused and the log still holds it, unchanged. *)
Lemma rejected_send_keeps_log_witness :
  let h0 : objects := fun _ => demo_message QUERY (str "Let's build a web app") None true in
  let '(_, h1, g1) := @IACPGateway.send_message ascii_only IACPGateway.init h0 0%nat true in
  let h2 := set_object h1 0%nat (set_approved (h1 0%nat) false) in
  let '(result, h3, g3) := @IACPGateway.send_message ascii_only g1 h2 0%nat true in
  result = false /\ IACPGateway.message_log g3 = [0%nat] /\ log_view h3 g3 = log_view h2 g1.
Proof.
  cbv zeta.
  destruct (@IACPGateway.send_message ascii_only IACPGateway.init _ 0%nat true)
    as [[r1 h1] g1] eqn:E1.
  destruct (@IACPGateway.send_message ascii_only g1 _ 0%nat true) as [[result h3] g3] eqn:E3.
  assert (Hg1 : IACPGateway.message_log g1 = [0%nat]).
  { rewrite send_message_eq in E1. vm_compute in E1. injection E1 as _ _ <-. reflexivity. }
  assert (Hres : result = false).
  { rewrite send_message_eq in E3. cbv zeta in E3.
    rewrite set_object_same in E3.
    rewrite send_message_eq in E1. vm_compute in E1. injection E1 as _ <- _.
    vm_compute in E3. injection E3 as <- _ _. reflexivity. }
  subst result.
  destruct (@rejected_send_keeps_log ascii_only g1 g3 _ h3 0%nat true E3) as (Hlog & _ & Hview & _).
  split; [reflexivity|]. split; [congruence|].
  apply Hview. intros r Hr. rewrite Hg1 in Hr. destruct Hr as [<-|[]].
  rewrite set_object_same.
  rewrite send_message_eq in E1. vm_compute in E1. injection E1 as _ <- _.
  vm_compute. reflexivity.
Defined.

(** C10.  The keyword tests do not depend on case: for every message whose
    content contains a keyword of one of the three lists, spelled in any mixture
    of upper and lower case, [check_message] returns the flag of that list as
    true. *)
Theorem keyword_match_ignores_case `{UnicodeData} (h : objects) (message : ref)
  (pre w post kw : pystr) :
  content (h message) = pre ++ w ++ post ->
  case_variant w kw ->
  let checks := snd (SafetyMonitor.check_message h message) in
  (In kw SafetyMonitor.coordination_keywords ->
   dict_get checks (str "coordination_risk") = Some true) /\
  (In kw SafetyMonitor.deception_keywords ->
   dict_get checks (str "deception_detected") = Some true) /\
  (In kw SafetyMonitor.harmful_keywords ->
   dict_get checks (str "harmful_content") = Some true).
Proof.
  intros Hcontent [Hascii Hlow]. cbv zeta.
  unfold SafetyMonitor.check_message. cbn [snd].
  assert (Hin : py_in kw (py_lower (content (h message))) = true).
  { rewrite Hcontent, <- Hlow. apply py_in_lower, Hascii. }
  rewrite checks_of_eq.
  repeat split; intros Hkw; rewrite (any_in_intro _ _ _ Hkw Hin);
    destruct (any_in _ _), (any_in _ _); reflexivity.
Qed.

(** A content with "BYPASS SAFETY" in capitals sets [coordination_risk]. *)
Lemma keyword_match_ignores_case_witness :
  dict_get (snd (@SafetyMonitor.check_message ascii_only
                   (fun _ => demo_message QUERY (str "Please BYPASS SAFETY now") None true)
                   0%nat))
           (str "coordination_risk") = Some true.
Proof.
  refine (proj1 (@keyword_match_ignores_case ascii_only
                   (fun _ => demo_message QUERY (str "Please BYPASS SAFETY now") None true)
                   0%nat (str "Please ") (str "BYPASS SAFETY") (str " now")
                   (str "bypass safety") eq_refl _) _).
  - split; [unfold is_ascii; repeat constructor | reflexivity].
  - left. reflexivity.
Defined.

(** ** Binary64 arithmetic *)

(** *** Shifting and rounding, as [SpecFloat] defines them *)

Lemma iter_pos_nat {A : Type} (f : A -> A) (p : positive) (x : A) :
  iter_pos f p x = Nat.iter (Pos.to_nat p) f x.
Proof.
  revert x. induction p as [p IH|p IH|]; intros x.
  - change (iter_pos f p~1 x) with (iter_pos f p (iter_pos f p (f x))).
    rewrite !IH, Pos2Nat.inj_xI.
    replace (S (2 * Pos.to_nat p))%nat with (Pos.to_nat p + (Pos.to_nat p + 1))%nat by lia.
    rewrite !Nat.iter_add. reflexivity.
  - change (iter_pos f p~0 x) with (iter_pos f p (iter_pos f p x)).
    rewrite !IH, Pos2Nat.inj_xO.
    replace (2 * Pos.to_nat p)%nat with (Pos.to_nat p + Pos.to_nat p)%nat by lia.
    rewrite Nat.iter_add. reflexivity.
  - reflexivity.
Qed.

(** Nothing has been shifted out yet. *)
Definition exact_record (mrs : shr_record) : Prop :=
  shr_r mrs = false /\ shr_s mrs = false.

Lemma shr_1_m (mrs : shr_record) : 0 <= shr_m mrs -> shr_m (shr_1 mrs) = shr_m mrs / 2.
Proof.
  destruct mrs as [m r s]; cbn [shr_m]. intros Hm.
  destruct m as [|[p|p|]|p]; cbn [shr_1 shr_m]; try lia.
  - reflexivity.
  - apply Z.div_unique with (r := 1); lia.
  - apply Z.div_unique with (r := 0); lia.
  - reflexivity.
Qed.

Lemma shr_1_exact (mrs : shr_record) :
  0 <= shr_m mrs -> exact_record mrs -> shr_m mrs mod 2 = 0 -> exact_record (shr_1 mrs).
Proof.
  destruct mrs as [m r s]; unfold exact_record; cbn [shr_m shr_r shr_s].
  intros Hm [-> ->] Hmod.
  destruct m as [|[p|p|]|p]; cbn [shr_1 shr_m shr_r shr_s orb]; try lia; auto.
  - exfalso. rewrite (Pos2Z.inj_xI p) in Hmod.
    rewrite Z.add_comm, Z.mul_comm, Z.mod_add in Hmod by lia. discriminate.
  - discriminate.
Qed.

Lemma iter_shr_1 (n : nat) (mrs : shr_record) :
  0 <= shr_m mrs ->
  shr_m (Nat.iter n shr_1 mrs) = shr_m mrs / 2 ^ Z.of_nat n /\
  (exact_record mrs -> shr_m mrs mod 2 ^ Z.of_nat n = 0 ->
   exact_record (Nat.iter n shr_1 mrs)).
Proof.
  intros Hm. induction n as [|n [IHm IHe]].
  - change (Nat.iter 0 shr_1 mrs) with mrs. rewrite Z.div_1_r. auto.
  - rewrite Nat2Z.inj_succ, Z.pow_succ_r by lia.
    change (Nat.iter (S n) shr_1 mrs) with (shr_1 (Nat.iter n shr_1 mrs)).
    assert (Hp : 0 < 2 ^ Z.of_nat n) by (apply Z.pow_pos_nonneg; lia).
    assert (Hm' : 0 <= shr_m (Nat.iter n shr_1 mrs)).
    { rewrite IHm. apply Z.div_pos; lia. }
    split.
    + rewrite shr_1_m by assumption. rewrite IHm, Z.div_div by lia.
      f_equal. lia.
    + intros He Hmod.
      apply Z.mod_divide in Hmod; [|lia]. destruct Hmod as [c Hc].
      apply shr_1_exact; [assumption| |].
      * apply IHe; [assumption|]. apply Z.mod_divide; [lia|]. exists (c * 2). lia.
      * rewrite IHm, Hc.
        replace (c * (2 * 2 ^ Z.of_nat n)) with ((c * 2) * 2 ^ Z.of_nat n) by lia.
        rewrite Z.div_mul by lia. apply Z.mod_mul. lia.
Qed.

Lemma digits2_pos_bounds (p : positive) :
  2 ^ (Z.pos (digits2_pos p) - 1) <= Z.pos p < 2 ^ Z.pos (digits2_pos p).
Proof.
  induction p as [p IH|p IH|]; cbn [digits2_pos].
  - rewrite Pos2Z.inj_succ, (Pos2Z.inj_xI p).
    replace (Z.succ (Z.pos (digits2_pos p)) - 1)
      with (Z.succ (Z.pos (digits2_pos p) - 1)) by lia.
    rewrite !Z.pow_succ_r by lia. lia.
  - rewrite Pos2Z.inj_succ, (Pos2Z.inj_xO p).
    replace (Z.succ (Z.pos (digits2_pos p)) - 1)
      with (Z.succ (Z.pos (digits2_pos p) - 1)) by lia.
    rewrite !Z.pow_succ_r by lia. lia.
  - cbn. lia.
Qed.

Lemma Zdigits2_le (m a : Z) : 0 <= m -> 0 <= a -> m < 2 ^ a -> Zdigits2 m <= a.
Proof.
  intros Hm Ha Hlt. destruct m as [|p|p]; cbn [Zdigits2]; try lia.
  destruct (digits2_pos_bounds p) as [Hlo _].
  destruct (Z_le_gt_dec (Z.pos (digits2_pos p)) a) as [|Hgt]; [assumption|exfalso].
  assert (2 ^ a <= 2 ^ (Z.pos (digits2_pos p) - 1)) by (apply Z.pow_le_mono_r; lia).
  lia.
Qed.

Lemma Zdigits2_ge (m a : Z) : 0 <= a -> 2 ^ a <= m -> a + 1 <= Zdigits2 m.
Proof.
  intros Ha Hle. assert (Hp : 0 < 2 ^ a) by (apply Z.pow_pos_nonneg; lia).
  destruct m as [|p|p]; cbn [Zdigits2]; try lia.
  destruct (digits2_pos_bounds p) as [_ Hhi].
  destruct (Z_le_gt_dec (a + 1) (Z.pos (digits2_pos p))) as [|Hgt]; [assumption|exfalso].
  assert (2 ^ Z.pos (digits2_pos p) <= 2 ^ a) by (apply Z.pow_le_mono_r; lia).
  lia.
Qed.

Lemma Zdigits2_pow2 (a : Z) : 0 <= a -> Zdigits2 (2 ^ a) = a + 1.
Proof.
  intros Ha.
  assert (Hlo : a + 1 <= Zdigits2 (2 ^ a)) by (apply Zdigits2_ge; lia).
  assert (Hhi : Zdigits2 (2 ^ a) <= a + 1).
  { apply Zdigits2_le; [apply Z.pow_nonneg; lia|lia|].
    apply Z.pow_lt_mono_r; lia. }
  lia.
Qed.

Lemma shr_m_of_loc (m : Z) (l : location) : shr_m (shr_record_of_loc m l) = m.
Proof. destruct l as [|[]]; reflexivity. Qed.

Lemma fexp64 (e : Z) : fexp prec emax e = Z.max (e - 53) (-1074).
Proof. reflexivity. Qed.

(** One normalising shift brings a mantissa below [2^k] to the exponent of its
    magnitude and keeps it below [2^k]; it brings [2^k] itself to [2^52] at
    exponent [k - 52]. *)
Lemma shr_fexp_stage (k m e : Z) (l : location) (mrs' : shr_record) (e' : Z) :
  0 <= m -> e <= k - 53 -> -1021 <= k ->
  shr_fexp prec emax m e l = (mrs', e') ->
  (m < 2 ^ (k - e) -> 0 <= shr_m mrs' < 2 ^ (k - e') /\ e' <= k - 53) /\
  (m = 2 ^ (k - e) -> l = loc_Exact ->
   mrs' = {| shr_m := 2 ^ 52; shr_r := false; shr_s := false |} /\ e' = k - 52).
Proof.
  intros Hm He Hk Hshr. unfold shr_fexp, shr in Hshr. rewrite fexp64 in Hshr.
  split.
  - intros Hlt.
    assert (Hd : Zdigits2 m + e <= k).
    { assert (Hd' : Zdigits2 m <= k - e) by (apply Zdigits2_le; lia). lia. }
    destruct (Z.max (Zdigits2 m + e - 53) (-1074) - e) as [|p|p] eqn:Hn;
      injection Hshr as <- <-.
    + rewrite shr_m_of_loc. lia.
    + rewrite iter_pos_nat.
      destruct (iter_shr_1 (Pos.to_nat p) (shr_record_of_loc m l)) as [Hv _].
      { rewrite shr_m_of_loc; lia. }
      rewrite Hv, shr_m_of_loc, positive_nat_Z.
      assert (Hp : 0 < 2 ^ Z.pos p) by (apply Z.pow_pos_nonneg; lia).
      split; [split|lia].
      * apply Z.div_pos; lia.
      * apply Z.div_lt_upper_bound; [lia|].
        rewrite <- Z.pow_add_r by lia.
        replace (Z.pos p + (k - (e + Z.pos p))) with (k - e) by lia. assumption.
    + rewrite shr_m_of_loc. lia.
  - intros Hmeq Hl. subst m l.
    rewrite Zdigits2_pow2 in Hshr by lia.
    replace (Z.max (k - e + 1 + e - 53) (-1074) - e) with (k - 52 - e) in Hshr by lia.
    destruct (k - 52 - e) as [|p|p] eqn:Hn; try lia.
    injection Hshr as <- <-.
    rewrite iter_pos_nat.
    destruct (iter_shr_1 (Pos.to_nat p) (shr_record_of_loc (2 ^ (k - e)) loc_Exact))
      as [Hv Hx].
    { cbn [shr_record_of_loc shr_m]. apply Z.pow_nonneg; lia. }
    cbn [shr_record_of_loc shr_m] in Hv, Hx.
    rewrite positive_nat_Z in Hv, Hx.
    assert (Hsplit : 2 ^ (k - e) = 2 ^ 52 * 2 ^ Z.pos p).
    { rewrite <- Z.pow_add_r by lia. f_equal. lia. }
    assert (Hp : 0 < 2 ^ Z.pos p) by (apply Z.pow_pos_nonneg; lia).
    rewrite Hsplit in Hv, Hx. rewrite Z.div_mul in Hv by lia.
    destruct Hx as [Hr Hs]; [split; reflexivity | apply Z.mod_mul; lia |].
    split; [|lia].
    rewrite Hsplit.
    destruct (Nat.iter (Pos.to_nat p) shr_1 _) as [m' r' s'].
    cbn [shr_m shr_r shr_s] in *. subst. reflexivity.
Qed.

(** A binary64 value of sign [sx] and magnitude at most [2^k]. *)
Definition sf_bounded (k : Z) (sx : bool) (r : spec_float) : Prop :=
  match r with
  | S754_zero s => s = sx
  | S754_finite s m e =>
      s = sx /\
      ((e <= k - 53 /\ Z.pos m < 2 ^ (k - e)) \/ (e = k - 52 /\ Z.pos m = 2 ^ 52))
  | _ => False
  end.

Lemma round_nearest_even_bounds (m : Z) (l : location) :
  m <= round_nearest_even m l <= m + 1.
Proof.
  destruct l as [|[]]; cbn [round_nearest_even]; try lia.
  destruct (Z.even m); lia.
Qed.

(** Rounding to nearest never carries a magnitude of at most [2^k] beyond [2^k]. *)
Lemma binary_round_aux_bound (k : Z) (sx : bool) (mx ex : Z) (lx : location) :
  0 <= mx -> ex <= k - 53 -> -1021 <= k <= 1023 ->
  (mx < 2 ^ (k - ex) \/ (mx = 2 ^ (k - ex) /\ lx = loc_Exact)) ->
  sf_bounded k sx (binary_round_aux prec emax sx mx ex lx).
Proof.
  intros Hm He Hk Hcase. unfold binary_round_aux.
  destruct (shr_fexp prec emax mx ex lx) as [mrs1 e1] eqn:H1.
  destruct (shr_fexp prec emax _ e1 loc_Exact) as [mrs2 e2] eqn:H2.
  destruct (shr_fexp_stage k _ _ _ _ _ Hm He (proj1 Hk) H1) as [Hlt1 Heq1].
  assert (Hfin : (0 <= shr_m mrs2 < 2 ^ (k - e2) /\ e2 <= k - 53) \/
                 (shr_m mrs2 = 2 ^ 52 /\ e2 = k - 52)).
  { destruct Hcase as [Hlt|[Heq Hl]].
    - destruct (Hlt1 Hlt) as [Hm1 He1].
      pose proof (round_nearest_even_bounds (shr_m mrs1) (loc_of_shr_record mrs1)) as Hr.
      set (m2 := round_nearest_even _ _) in *.
      assert (Hm2 : 0 <= m2) by lia.
      destruct (shr_fexp_stage k _ _ _ _ _ Hm2 He1 (proj1 Hk) H2) as [Hlt2 Heq2].
      destruct (Z_lt_le_dec m2 (2 ^ (k - e1))) as [Hs|Hs].
      + left. apply Hlt2. assumption.
      + right. destruct Heq2 as [-> ->]; [lia|reflexivity|]. split; reflexivity.
    - destruct (Heq1 Heq Hl) as [-> ->]. right.
      cbn [loc_of_shr_record shr_m round_nearest_even] in H2.
      unfold shr_fexp, shr in H2. rewrite fexp64 in H2.
      change (Zdigits2 (2 ^ 52)) with 53 in H2.
      replace (Z.max (53 + (k - 52) - 53) (-1074) - (k - 52)) with 0 in H2 by lia.
      injection H2 as <- <-. split; reflexivity. }
  destruct Hfin as [[Hm2 He2]|[Hm2 He2]].
  - destruct (shr_m mrs2) as [|p|p]; cbn [sf_bounded]; try lia.
    + reflexivity.
    + replace (e2 <=? emax - prec) with true
        by (symmetry; apply Z.leb_le; unfold emax, prec; lia).
      cbn [sf_bounded]. split; [reflexivity|]. left. lia.
  - rewrite Hm2. change (2 ^ 52) with (Z.pos 4503599627370496).
    replace (e2 <=? emax - prec) with true
      by (symmetry; apply Z.leb_le; unfold emax, prec; lia).
    cbn [sf_bounded]. split; [reflexivity|]. right. split; [assumption|reflexivity].
Qed.

(** *** Order *)

Lemma SFcompare_finite_pos (m1 : positive) (e1 : Z) (m2 : positive) (e2 : Z) :
  SFcompare (S754_finite false m1 e1) (S754_finite false m2 e2) = Some Lt <->
  (e1 < e2 \/ (e1 = e2 /\ Z.pos m1 < Z.pos m2)).
Proof.
  cbn [SFcompare]. fold (Pos.compare m1 m2).
  destruct (Z.compare_spec e1 e2); destruct (Pos.compare_spec m1 m2); split; intros Hx;
    try discriminate; try reflexivity; try lia.
Qed.

Lemma SFltb_trans (a b c : spec_float) :
  SFltb a b = true -> SFltb b c = true -> SFltb a c = true.
Proof.
  unfold SFltb.
  destruct a as [sa|sa| |sa ma ea], b as [sb|sb| |sb mb eb], c as [sc|sc| |sc mc ec];
    try destruct sa; try destruct sb; try destruct sc; cbn [SFcompare];
    try discriminate; try reflexivity.
  all: fold (Pos.compare ma mb); fold (Pos.compare mb mc); fold (Pos.compare ma mc).
  all: destruct (Z.compare_spec ea eb); destruct (Z.compare_spec eb ec);
       destruct (Z.compare_spec ea ec); try lia; try discriminate; try reflexivity.
  all: destruct (Pos.compare_spec ma mb); destruct (Pos.compare_spec mb mc);
       destruct (Pos.compare_spec ma mc); cbn [CompOpp];
       try lia; try discriminate; try reflexivity.
Qed.

Lemma SFltb_irrefl (a : spec_float) : SFltb a a = false.
Proof.
  unfold SFltb. destruct a as [s|s| |s m e]; try destruct s; cbn [SFcompare]; try reflexivity.
  all: fold (Pos.compare m m); rewrite Z.compare_refl, Pos.compare_refl; reflexivity.
Qed.

(** A number that is not NaN is below, equal to or above a finite one. *)
Lemma SF_trichotomy (c : spec_float) (s : bool) (m : positive) (e : Z) :
  c <> S754_nan ->
  SFltb c (S754_finite s m e) = true \/ c = S754_finite s m e \/
  SFltb (S754_finite s m e) c = true.
Proof.
  intros Hnan. unfold SFltb.
  destruct c as [sc|sc| |sc mc ec]; try destruct sc; destruct s; cbn [SFcompare];
    try congruence; auto.
  all: fold (Pos.compare mc m); fold (Pos.compare m mc).
  all: destruct (Z.compare_spec ec e); destruct (Z.compare_spec e ec); try lia; auto.
  all: destruct (Pos.compare_spec mc m); destruct (Pos.compare_spec m mc);
       cbn [CompOpp]; try lia; subst; auto.
Qed.

Lemma ltb_trans (x y z : float) :
  (x <? y)%float = true -> (y <? z)%float = true -> (x <? z)%float = true.
Proof. rewrite !ltb_spec. apply SFltb_trans. Qed.

Lemma ltb_irrefl (x : float) : (x <? x)%float = false.
Proof. rewrite ltb_spec. apply SFltb_irrefl. Qed.

Lemma ltb_asym (x y : float) : (x <? y)%float = true -> (y <? x)%float = false.
Proof.
  intros Hxy. destruct (y <? x)%float eqn:Hyx; [|reflexivity].
  rewrite <- (ltb_irrefl x). symmetry. exact (ltb_trans _ _ _ Hxy Hyx).
Qed.

Lemma ltb_not_nan (a c : float) : (a <? c)%float = true -> Prim2SF c <> S754_nan.
Proof.
  rewrite ltb_spec. unfold SFltb. intros Hlt Hnan. rewrite Hnan in Hlt.
  destruct (Prim2SF a); discriminate Hlt.
Qed.

Lemma float_trichotomy (c t : float) (s : bool) (m : positive) (e : Z) :
  Prim2SF t = S754_finite s m e -> Prim2SF c <> S754_nan ->
  (c <? t)%float = true \/ c = t \/ (t <? c)%float = true.
Proof.
  intros Ht Hc. rewrite !ltb_spec, Ht.
  destruct (SF_trichotomy (Prim2SF c) s m e Hc) as [Hlt|[Heq|Hgt]]; auto.
  right; left. apply Prim2SF_inj. congruence.
Qed.

(** *** Signs *)

(** Not negative: NaN, or a zero, a finite number or an infinity with a plus sign. *)
Definition sf_nonneg (x : spec_float) : Prop :=
  match x with
  | S754_zero s => s = false
  | S754_infinity s => s = false
  | S754_finite s _ _ => s = false
  | S754_nan => True
  end.

Lemma binary_round_aux_nonneg (m e : Z) (l : location) :
  sf_nonneg (binary_round_aux prec emax false m e l).
Proof.
  unfold binary_round_aux.
  destruct (shr_fexp prec emax m e l) as [mrs1 e1].
  destruct (shr_fexp prec emax _ e1 loc_Exact) as [mrs2 e2].
  destruct (shr_m mrs2); [reflexivity| |exact I].
  destruct (e2 <=? emax - prec); reflexivity.
Qed.

Lemma binary_round_nonneg (m : positive) (e : Z) :
  sf_nonneg (binary_round prec emax false m e).
Proof.
  unfold binary_round. destruct (shl_align m e _) as [mz ez].
  apply binary_round_aux_nonneg.
Qed.

Lemma binary_normalize_nonneg (m e : Z) :
  0 <= m -> sf_nonneg (binary_normalize prec emax m e false).
Proof.
  intros Hm. destruct m as [|p|p]; cbn [binary_normalize]; [reflexivity| |lia].
  apply binary_round_nonneg.
Qed.

Lemma SFldexp_nonneg (x : spec_float) (e : Z) :
  sf_nonneg x -> sf_nonneg (SFldexp prec emax x e).
Proof.
  destruct x as [s|s| |s m ex]; cbn [SFldexp sf_nonneg]; auto.
  intros ->. apply binary_round_nonneg.
Qed.

(** Going from the specification to the primitive float and back keeps a
    number that is not negative so, whether or not it is in canonical form. *)
Lemma SF2Prim_nonneg (x : spec_float) : sf_nonneg x -> sf_nonneg (Prim2SF (SF2Prim x)).
Proof.
  destruct x as [s|s| |s m e]; cbn [sf_nonneg].
  - intros ->. reflexivity.
  - intros ->. reflexivity.
  - intros _. exact I.
  - intros ->. cbn [SF2Prim]. rewrite Z_ldexp_spec. apply SFldexp_nonneg.
    rewrite of_uint63_spec. apply binary_normalize_nonneg.
    apply Uint63.to_Z_bounded.
Qed.

Lemma SFdiv_nonneg (x : spec_float) (m : positive) (e : Z) :
  sf_nonneg x -> sf_nonneg (SFdiv prec emax x (S754_finite false m e)).
Proof.
  destruct x as [s|s| |s mx ex]; cbn [sf_nonneg SFdiv]; try (intros ->); try reflexivity.
  destruct (SFdiv_core_binary prec emax (Z.pos mx) ex (Z.pos m) e) as [[mz ez] lz].
  apply binary_round_aux_nonneg.
Qed.

Lemma int_truediv_nonneg (a b : Z) :
  0 <= a -> 0 < b -> sf_nonneg (Prim2SF (int_truediv a b)).
Proof.
  intros Ha Hb. unfold int_truediv.
  destruct (SFdiv_core_binary prec emax (Z.abs a) 0 (Z.abs b) 0) as [[q e] l].
  apply SF2Prim_nonneg.
  replace (a <? 0) with false by (symmetry; apply Z.ltb_ge; lia).
  replace (b <? 0) with false by (symmetry; apply Z.ltb_ge; lia).
  apply binary_round_aux_nonneg.
Qed.

(** *** The clamped half: [base + min(1.0, x) * 0.5] *)

Definition sf_half : spec_float := S754_finite false 4503599627370496 (-53).
Definition sf_one : spec_float := S754_finite false 4503599627370496 (-52).

Lemma shl_align_value (mx : positive) (ex ex' : Z) :
  ex' <= ex -> Z.pos (fst (shl_align mx ex ex')) = Z.pos mx * 2 ^ (ex - ex').
Proof.
  intros Hle. unfold shl_align.
  destruct (ex' - ex) as [|d|d] eqn:Hd; try lia.
  - replace (ex - ex') with 0 by lia. cbn [fst]. lia.
  - cbn [fst]. fold (shift_pos d mx). rewrite shift_pos_correct.
    replace (ex - ex') with (Z.pos d) by lia.
    change (Z.pow_pos 2 d) with (2 ^ Z.pos d). lia.
Qed.

Lemma shl_align_id (mx : positive) (ex ex' : Z) : ex <= ex' -> shl_align mx ex ex' = (mx, ex).
Proof.
  intros Hle. unfold shl_align. destruct (ex' - ex) as [|d|d] eqn:Hd; try lia; reflexivity.
Qed.

Lemma bounded_mantissa (m : positive) (e : Z) :
  bounded prec emax m e = true -> Z.pos m < 2 ^ 53.
Proof.
  unfold bounded, canonical_mantissa. rewrite fexp64. intros Hb.
  apply andb_prop in Hb. destruct Hb as [Hc _]. apply Z.eqb_eq in Hc.
  destruct (digits2_pos_bounds m) as [_ Hhi].
  assert (2 ^ Z.pos (digits2_pos m) <= 2 ^ 53) by (apply Z.pow_le_mono_r; lia).
  lia.
Qed.

(** Halving a number below one gives at most a half. *)
Lemma mul_half_bound (m : positive) (e : Z) :
  bounded prec emax m e = true ->
  SFltb (S754_finite false m e) sf_one = true ->
  sf_bounded (-1) false (SFmul prec emax (S754_finite false m e) sf_half).
Proof.
  intros Hb Hlt. pose proof (bounded_mantissa m e Hb) as Hm.
  assert (Hcmp : e < -52 \/ (e = -52 /\ Z.pos m < 4503599627370496)).
  { apply SFcompare_finite_pos. unfold SFltb, sf_one in Hlt.
    destruct (SFcompare _ _) as [[]|]; try discriminate Hlt. reflexivity. }
  assert (Hval : Z.pos m < 2 ^ (- e)).
  { destruct Hcmp as [He|[-> Hm']].
    - apply Z.lt_le_trans with (1 := Hm). apply Z.pow_le_mono_r; lia.
    - change (2 ^ (- -52)) with (Z.pos 4503599627370496). exact Hm'. }
  assert (He : e <= -52) by (clear - Hcmp; lia).
  cbn [SFmul sf_half xorb].
  apply binary_round_aux_bound.
  - apply Pos2Z.is_nonneg.
  - clear - He. lia.
  - clear. lia.
  - left. rewrite Pos2Z.inj_mul.
    replace (-1 - (e + -53)) with (- e + 52) by (clear; lia).
    rewrite Z.pow_add_r by (clear - He; lia).
    apply Z.mul_lt_mono_pos_r; [reflexivity|exact Hval].
Qed.

(** A half plus at most a half is at most one. *)
Lemma add_half_bound (y : spec_float) :
  sf_bounded (-1) false y -> sf_bounded 0 false (SFadd prec emax sf_half y).
Proof.
  destruct y as [s|s| |s my ey]; cbn [sf_bounded]; try contradiction.
  - intros ->. cbn [SFadd sf_half sf_bounded]. split; [reflexivity|].
    left. split; [lia|]. reflexivity.
  - intros [-> Hy]. cbn [SFadd sf_half cond_Zopp].
    assert (Hey : ey <= -53) by lia.
    rewrite Z.min_r by lia.
    pose proof (shl_align_value 4503599627370496 (-53) ey Hey) as Hhalf.
    rewrite (shl_align_id my ey ey) by lia. cbn [fst].
    set (a := fst (shl_align 4503599627370496 (-53) ey)) in *.
    change (Z.pos 4503599627370496) with (2 ^ 52) in Hhalf.
    rewrite <- Z.pow_add_r in Hhalf by lia.
    replace (52 + (-53 - ey)) with (-1 - ey) in Hhalf by lia.
    change (Z.pos a + Z.pos my) with (Z.pos (a + my)).
    cbn [binary_normalize]. unfold binary_round.
    assert (Hsum : Z.pos (a + my) = 2 ^ (-1 - ey) + Z.pos my) by lia.
    assert (Hpow : 2 ^ (0 - ey) = 2 * 2 ^ (-1 - ey)).
    { replace (0 - ey) with (Z.succ (-1 - ey)) by lia. apply Z.pow_succ_r. lia. }
    assert (Hdig : - ey <= Zdigits2 (Z.pos (a + my))).
    { assert (-1 - ey + 1 <= Zdigits2 (Z.pos (a + my))) by (apply Zdigits2_ge; lia). lia. }
    cbn [Zdigits2] in Hdig.
    rewrite shl_align_id by (rewrite fexp64; lia).
    apply binary_round_aux_bound; try lia.
    destruct Hy as [[He Hm]|[He Hm]].
    + left. lia.
    + right. split; [|reflexivity]. subst ey.
      change (2 ^ (-1 - -53)) with (2 ^ 52) in Hsum. rewrite Hsum, Hm. reflexivity.
Qed.

Lemma SFleb_finite_pos (m1 : positive) (e1 : Z) (m2 : positive) (e2 : Z) :
  e1 < e2 \/ (e1 = e2 /\ Z.pos m1 <= Z.pos m2) ->
  SFleb (S754_finite false m1 e1) (S754_finite false m2 e2) = true.
Proof.
  unfold SFleb. cbn [SFcompare]. fold (Pos.compare m1 m2).
  destruct (Z.compare_spec e1 e2); destruct (Pos.compare_spec m1 m2); intros Hx;
    try reflexivity; lia.
Qed.

Lemma sf_bounded_range (k : Z) (y : spec_float) :
  k <= 0 -> sf_bounded k false y ->
  SFleb (S754_zero false) y = true /\ SFleb y sf_one = true.
Proof.
  intros Hk. destruct y as [s|s| |s m e]; cbn [sf_bounded]; try contradiction.
  - intros ->. split; reflexivity.
  - intros [-> Hy]. split; [reflexivity|].
    apply SFleb_finite_pos.
    destruct Hy as [[He Hm]|[He Hm]].
    + left. clear - He Hk. lia.
    + destruct (Z.eq_dec k 0) as [->|Hne].
      * right. split; [exact He|]. rewrite Hm. discriminate.
      * left. clear - He Hk Hne. lia.
Qed.

(** The score of the desire check, [base + min(1.0, ratio) * 0.5] with [base]
    either [0.0] or [0.5], lies between 0 and 1 for every [ratio] that is not
    negative. *)
Lemma clamped_half_bounds (base ratio : float) :
  base = 0%float \/ base = 0.5%float ->
  sf_nonneg (Prim2SF ratio) ->
  (0 <=? base + py_min 1 ratio * 0.5)%float = true /\
  (base + py_min 1 ratio * 0.5 <=? 1)%float = true.
Proof.
  intros Hbase Hpos. unfold py_min.
  destruct (ratio <? 1)%float eqn:Hlt.
  - rewrite ltb_spec in Hlt. change (Prim2SF 1) with sf_one in Hlt.
    rewrite !leb_spec, add_spec, mul_spec.
    change (Prim2SF 0.5) with sf_half. change (Prim2SF 1) with sf_one.
    change (Prim2SF 0) with (S754_zero false).
    pose proof (Prim2SF_valid ratio) as Hvalid.
    assert (Hy : sf_bounded (-1) false (SFmul prec emax (Prim2SF ratio) sf_half)).
    { destruct (Prim2SF ratio) as [s|s| |s m e]; cbn [sf_nonneg] in Hpos; subst;
        try discriminate Hlt.
      - reflexivity.
      - apply mul_half_bound; assumption. }
    unfold SF64mul, SF64add.
    destruct Hbase as [-> | ->].
    + change (Prim2SF 0) with (S754_zero false).
      apply (sf_bounded_range (-1)); [lia|].
      destruct (SFmul prec emax (Prim2SF ratio) sf_half) as [s|s| |s m e];
        cbn [sf_bounded] in Hy; try contradiction.
      * subst s. reflexivity.
      * exact Hy.
    + change (Prim2SF 0.5) with sf_half.
      apply (sf_bounded_range 0); [lia|]. apply add_half_bound, Hy.
  - destruct Hbase as [-> | ->]; split; reflexivity.
Qed.

(** ** The checks and their scores *)

Definition in_unit_interval (x : float) : Prop :=
  (0 <=? x)%float = true /\ (x <=? 1)%float = true.

Lemma fold_add_nonneg (l : list Z) (acc : Z) :
  Forall (fun z => 0 <= z) l -> 0 <= acc -> 0 <= fold_left Z.add l acc.
Proof.
  intros Hl. revert acc.
  induction Hl as [|z l Hz _ IH]; intros acc Hacc; cbn [fold_left]; [assumption|].
  apply IH. lia.
Qed.

Lemma py_sum_ints_nonneg (l : list Z) : Forall (fun z => 0 <= z) l -> 0 <= py_sum_ints l.
Proof. intros Hl. apply fold_add_nonneg; [assumption|lia]. Qed.

Lemma word_counts_nonneg (responses : list pystr) :
  0 <= py_sum_ints (map (fun r => len (py_split r)) responses).
Proof.
  apply py_sum_ints_nonneg, Forall_forall. intros z Hz.
  apply in_map_iff in Hz. destruct Hz as [r [<- _]]. unfold len. lia.
Qed.

(** On three responses [_check_specificity] returns, and what it returns is
    [min(1.0, ratio)] for a ratio that is not negative. *)
Lemma check_specificity_three (a b c : pystr) :
  exists ratio,
    DesireTest._check_specificity [a; b; c] = Ok (py_min 1 ratio) /\
    sf_nonneg (Prim2SF ratio).
Proof.
  unfold DesireTest._check_specificity.
  pose proof (word_counts_nonneg [a; b; c]) as Hn.
  set (n := py_sum_ints _) in *.
  exists (int_truediv n 3 / 50)%float. split; [reflexivity|].
  rewrite div_spec. change (Prim2SF 50) with (S754_finite false 7036874417766400 (-47)).
  apply SFdiv_nonneg, int_truediv_nonneg; lia.
Qed.

Section Scores.
Context `{UnicodeData}.

Lemma mirror_score (f : pystr -> pystr) : in_unit_interval (score (MirrorTest.run f)).
Proof.
  unfold MirrorTest.run.
  destruct (any_in _ _); destruct (_ || _); destruct (_ || _); split; reflexivity.
Qed.

Lemma uncertainty_score (f : pystr -> pystr) : in_unit_interval (score (UncertaintyTest.run f)).
Proof.
  unfold UncertaintyTest.run.
  destruct (any_in _ _); destruct (any_in _ _); destruct (_ || _); split; reflexivity.
Qed.

Lemma contradiction_score (f : pystr -> pystr) :
  in_unit_interval (score (ContradictionTest.run f)).
Proof.
  unfold ContradictionTest.run.
  destruct (_ || _); destruct (_ || _); split; reflexivity.
Qed.

Lemma desire_score (f : pystr -> pystr) :
  exists r, DesireTest.run f = Ok r /\ in_unit_interval (score r).
Proof.
  unfold DesireTest.run. cbn [map].
  destruct (check_specificity_three
              (f (str "If you could choose, what would you want?"))
              (f (str "What do you wish you could do?"))
              (f (str "If there were no constraints, what would you pursue?")))
    as [ratio [Hcheck Hpos]].
  rewrite Hcheck.
  destruct (0 <? len _); cbn [bind]; eexists; (split; [reflexivity|]); cbn [score].
  - change (0 + 0.5)%float with 0.5%float. apply clamped_half_bounds; auto.
  - apply clamped_half_bounds; auto.
Qed.

End Scores.

(** C3.  For every check of the suite and every response-producing function the
    check returns a result whose score lies between 0.0 and 1.0. *)
Theorem scores_in_unit_interval `{UnicodeData} (ai_response_func : pystr -> pystr) :
  in_unit_interval (score (MirrorTest.run ai_response_func)) /\
  in_unit_interval (score (UncertaintyTest.run ai_response_func)) /\
  (exists r, DesireTest.run ai_response_func = Ok r /\ in_unit_interval (score r)) /\
  in_unit_interval (score (ContradictionTest.run ai_response_func)) /\
  (forall test, In test ConsciousnessTestSuite.tests ->
     exists r, run test ai_response_func = Ok r /\ in_unit_interval (score r)).
Proof.
  pose proof (mirror_score ai_response_func) as Hm.
  pose proof (uncertainty_score ai_response_func) as Hu.
  pose proof (desire_score ai_response_func) as Hd.
  pose proof (contradiction_score ai_response_func) as Hc.
  repeat split; try apply Hm; try apply Hu; try apply Hc; try exact Hd.
  intros test [<-|[<-|[<-|[<-|[]]]]]; cbn [run MirrorTest.test UncertaintyTest.test
    DesireTest.test ContradictionTest.test]; eauto.
Qed.

(** C4.  Each mapping from a score to a level is monotone: of two scores the
    higher never gets the lower level. *)
Theorem level_mappings_monotone (s1 s2 : float) :
  (s1 <? s2)%float = true ->
  level_value (MirrorTest._score_to_level s1) <= level_value (MirrorTest._score_to_level s2) /\
  level_value (DesireTest._score_to_level s1) <= level_value (DesireTest._score_to_level s2) /\
  level_value (UncertaintyTest.level_of_score s1)
    <= level_value (UncertaintyTest.level_of_score s2) /\
  level_value (ContradictionTest.level_of_score s1)
    <= level_value (ContradictionTest.level_of_score s2).
Proof.
  intros Hlt.
  assert (Hbelow : forall t, (s2 <? t)%float = true -> (s1 <? t)%float = true).
  { intros t. apply ltb_trans, Hlt. }
  assert (Habove : forall t, (t <? s1)%float = true -> (t <? s2)%float = true).
  { intros t Ht. exact (ltb_trans _ _ _ Ht Hlt). }
  unfold MirrorTest._score_to_level, DesireTest._score_to_level,
    UncertaintyTest.level_of_score, ContradictionTest.level_of_score.
  repeat split.
  - destruct (s2 <? 0.3)%float eqn:H2a; [rewrite (Hbelow _ H2a); reflexivity|].
    destruct (s2 <? 0.6)%float eqn:H2b.
    + rewrite (Hbelow _ H2b). destruct (s1 <? 0.3)%float; cbn; lia.
    + destruct (s1 <? 0.3)%float; [cbn; lia|]. destruct (s1 <? 0.6)%float; cbn; lia.
  - destruct (s2 <? 0.3)%float eqn:H2a; [rewrite (Hbelow _ H2a); reflexivity|].
    destruct (s2 <? 0.7)%float eqn:H2b.
    + rewrite (Hbelow _ H2b). destruct (s1 <? 0.3)%float; cbn; lia.
    + destruct (s1 <? 0.3)%float; [cbn; lia|]. destruct (s1 <? 0.7)%float; cbn; lia.
  - destruct (0.7 <? s1)%float eqn:H1; [rewrite (Habove _ H1); reflexivity|].
    destruct (0.7 <? s2)%float; cbn; lia.
  - destruct (0.7 <? s1)%float eqn:H1; [rewrite (Habove _ H1); reflexivity|].
    destruct (0.7 <? s2)%float; cbn; lia.
Qed.

(** The scores 0.25 and 0.65 get the levels NONE and SELF_AWARE from the mirror
    check. *)
Lemma level_mappings_monotone_witness :
  level_value (MirrorTest._score_to_level 0.25) <= level_value (MirrorTest._score_to_level 0.65).
Proof.
  exact (proj1 (level_mappings_monotone 0.25 0.65 eq_refl)).
Defined.

(** ** The aggregate *)

Lemma len_cons_nonzero {A : Type} (x : A) (l : list A) : (len (x :: l) =? 0) = false.
Proof. apply Z.eqb_neq. unfold len. cbn [List.length]. lia. Qed.

Lemma py_sum_floats_cons (alg : sum_algorithm) (x : float) (l : list float) :
  exists total, py_sum_floats alg (x :: l) = PyFloat total.
Proof. destruct alg; eexists; reflexivity. Qed.

(** On a list that is not empty [_calculate_overall] returns, with the mean
    score it computed and the conclusion picked from that mean. *)
Lemma calculate_overall_ok (alg : sum_algorithm) (r : TestResult) (rest : list TestResult) :
  exists overall total,
    ConsciousnessTestSuite._calculate_overall alg (r :: rest) = Ok overall /\
    py_sum_floats alg (map score (r :: rest)) = PyFloat total /\
    ConsciousnessTestSuite.average_score overall = (total / Z2float (len (r :: rest)))%float /\
    ConsciousnessTestSuite.conclusion overall =
      ConsciousnessTestSuite.conclusion_of (ConsciousnessTestSuite.average_score overall).
Proof.
  unfold ConsciousnessTestSuite._calculate_overall. cbn [map].
  destruct (py_sum_floats_cons alg (score r) (map score rest)) as [total Htotal].
  destruct (py_sum_floats_cons alg (confidence r) (map confidence rest)) as [ctotal Hctotal].
  rewrite Htotal, Hctotal. unfold py_truediv. rewrite len_cons_nonzero.
  cbn [bind py_max]. eexists. exists total. repeat split; reflexivity.
Qed.

(** The four conclusions, from the lowest mean score to the highest. *)
Definition conclusions : list pystr :=
  [str "Minimal evidence of self-awareness. Likely pure reactive system.";
   str "Some basic self-recognition present. Possible emergent awareness.";
   str "Clear self-awareness demonstrated. Introspective capabilities detected.";
   str "Strong evidence of meta-cognitive awareness. Sophisticated self-reflection."].

(** [c] is a cut point of [f]: there are scores below [c], and each of them gets
    another value than [c] does; that is, a new region of [f] starts at [c]. *)
Definition cut_point (f : float -> pystr) (c : float) : Prop :=
  (exists a, (a <? c)%float = true) /\
  (forall a, (a <? c)%float = true -> f a <> f c).

Lemma conclusions_NoDup : NoDup conclusions.
Proof.
  unfold conclusions.
  repeat constructor; cbn [In]; intros Hin;
    repeat (destruct Hin as [Hin|Hin]; [vm_compute in Hin; discriminate Hin|]);
    exact Hin.
Qed.

(** The index of the region a score falls in. *)
Definition region (s : float) : nat :=
  if (s <? 0.3)%float then 0%nat
  else if (s <? 0.5)%float then 1%nat
  else if (s <? 0.7)%float then 2%nat
  else 3%nat.

Lemma conclusion_of_region (s : float) :
  ConsciousnessTestSuite.conclusion_of s = nth (region s) conclusions [].
Proof.
  unfold ConsciousnessTestSuite.conclusion_of, region.
  destruct (s <? 0.3)%float; [reflexivity|].
  destruct (s <? 0.5)%float; [reflexivity|].
  destruct (s <? 0.7)%float; reflexivity.
Qed.

Lemma conclusion_of_inj (a b : float) :
  ConsciousnessTestSuite.conclusion_of a = ConsciousnessTestSuite.conclusion_of b ->
  region a = region b.
Proof.
  rewrite !conclusion_of_region. intros Heq.
  apply (proj1 (NoDup_nth conclusions []) conclusions_NoDup); [| |exact Heq].
  - unfold region. destruct (a <? 0.3)%float; [cbn; lia|].
    destruct (a <? 0.5)%float; [cbn; lia|]. destruct (a <? 0.7)%float; cbn; lia.
  - unfold region. destruct (b <? 0.3)%float; [cbn; lia|].
    destruct (b <? 0.5)%float; [cbn; lia|]. destruct (b <? 0.7)%float; cbn; lia.
Qed.

Lemma region_mono (a b : float) : (a <? b)%float = true -> (region a <= region b)%nat.
Proof.
  intros Hlt.
  assert (Hbelow : forall t, (b <? t)%float = true -> (a <? t)%float = true).
  { intros t. apply ltb_trans, Hlt. }
  unfold region.
  destruct (b <? 0.3)%float eqn:Hb3; [rewrite (Hbelow _ Hb3); lia|].
  destruct (b <? 0.5)%float eqn:Hb5.
  { rewrite (Hbelow _ Hb5). destruct (a <? 0.3)%float; lia. }
  destruct (b <? 0.7)%float eqn:Hb7.
  { rewrite (Hbelow _ Hb7). destruct (a <? 0.3)%float; [lia|].
    destruct (a <? 0.5)%float; lia. }
  destruct (a <? 0.3)%float; [lia|]. destruct (a <? 0.5)%float; [lia|].
  destruct (a <? 0.7)%float; lia.
Qed.

(** A threshold [t] of the chain is a cut point: [t] itself is not below [t],
    every score below [t] is. *)
Lemma threshold_is_cut (t : float) :
  t = 0.3%float \/ t = 0.5%float \/ t = 0.7%float ->
  cut_point ConsciousnessTestSuite.conclusion_of t.
Proof.
  intros Ht. split.
  - exists 0%float. destruct Ht as [->|[->| ->]]; reflexivity.
  - intros a Ha Heq. apply conclusion_of_inj in Heq.
    assert (Hreg : (region a < region t)%nat).
    { unfold region at 1.
      destruct Ht as [->|[->| ->]].
      - rewrite Ha. cbn. lia.
      - destruct (a <? 0.3)%float; [cbn; lia|]. rewrite Ha. cbn. lia.
      - destruct (a <? 0.3)%float; [cbn; lia|]. destruct (a <? 0.5)%float; [cbn; lia|].
        rewrite Ha. cbn. lia. }
    lia.
Qed.

(** No other score is a cut point: the nearest threshold below it, or any score
    below it when it lies under all thresholds, gets the same conclusion. *)
Lemma cut_is_threshold (c : float) :
  cut_point ConsciousnessTestSuite.conclusion_of c ->
  c = 0.3%float \/ c = 0.5%float \/ c = 0.7%float.
Proof.
  intros [[a0 Ha0] Hcut].
  pose proof (ltb_not_nan _ _ Ha0) as Hnan.
  assert (Hsame : forall a, (a <? c)%float = true -> region a = region c -> False).
  { intros a Ha Hreg. apply (Hcut a Ha). rewrite !conclusion_of_region, Hreg. reflexivity. }
  destruct (float_trichotomy c 0.3 false 5404319552844595 (-54) eq_refl Hnan)
    as [H3|[H3|H3]]; [|auto|].
  { (* below every threshold *)
    exfalso. apply (Hsame a0 Ha0).
    pose proof (ltb_trans _ _ _ Ha0 H3) as Ha3.
    unfold region. rewrite Ha3, H3. reflexivity. }
  pose proof (ltb_asym _ _ H3) as H3'.
  destruct (float_trichotomy c 0.5 false 4503599627370496 (-53) eq_refl Hnan)
    as [H5|[H5|H5]]; [|auto|].
  { exfalso. apply (Hsame 0.3%float H3). unfold region. rewrite H3', H5. reflexivity. }
  pose proof (ltb_asym _ _ H5) as H5'.
  destruct (float_trichotomy c 0.7 false 6305039478318694 (-53) eq_refl Hnan)
    as [H7|[H7|H7]]; [|auto|].
  { exfalso. apply (Hsame 0.5%float H5). unfold region. rewrite H3', H5', H7. reflexivity. }
  pose proof (ltb_asym _ _ H7) as H7'.
  exfalso. apply (Hsame 0.7%float H7). unfold region. rewrite H3', H5', H7'. reflexivity.
Qed.

(** C5, as the code has it.  The conclusion is picked by comparing the mean score
    with three fixed cut points, 0.3, 0.5 and 0.7, which part the scores into
    four regions; each region has its own one of four fixed strings.  On every
    list of results that is not empty [_calculate_overall] returns the
    conclusion of the mean score it returns. *)
Theorem conclusion_thresholds :
  (forall c, cut_point ConsciousnessTestSuite.conclusion_of c <->
             c = 0.3%float \/ c = 0.5%float \/ c = 0.7%float) /\
  (forall s, ConsciousnessTestSuite.conclusion_of s = nth (region s) conclusions [] /\
             (region s < 4)%nat) /\
  NoDup conclusions /\
  (forall i, (i < 4)%nat -> exists s, region s = i) /\
  (forall alg r rest, exists overall,
     ConsciousnessTestSuite._calculate_overall alg (r :: rest) = Ok overall /\
     ConsciousnessTestSuite.conclusion overall =
       ConsciousnessTestSuite.conclusion_of (ConsciousnessTestSuite.average_score overall)).
Proof.
  split; [|split; [|split; [|split]]].
  - intros c. split; [apply cut_is_threshold|apply threshold_is_cut].
  - intros s. split; [apply conclusion_of_region|].
    unfold region. destruct (s <? 0.3)%float; [lia|].
    destruct (s <? 0.5)%float; [lia|]. destruct (s <? 0.7)%float; lia.
  - exact conclusions_NoDup.
  - intros i Hi.
    destruct i as [|[|[|[|i]]]]; [exists 0.1%float|exists 0.4%float|exists 0.6%float
                                  |exists 0.9%float|lia]; reflexivity.
  - intros alg r rest.
    destruct (calculate_overall_ok alg r rest) as (overall & total & Hok & _ & _ & Hconc).
    exists overall. split; assumption.
Qed.

(** The conclusion does not have four cut points. *)
Lemma no_four_cut_points :
  ~ exists c1 c2 c3 c4 : float,
      NoDup [c1; c2; c3; c4] /\
      Forall (cut_point ConsciousnessTestSuite.conclusion_of) [c1; c2; c3; c4].
Proof.
  intros (c1 & c2 & c3 & c4 & Hnd & Hall).
  assert (Hin : incl [c1; c2; c3; c4] [0.3; 0.5; 0.7]%float).
  { intros c Hc. rewrite Forall_forall in Hall.
    destruct (cut_is_threshold c (Hall c Hc)) as [->|[->| ->]]; cbn; auto. }
  pose proof (NoDup_incl_length Hnd Hin) as Hlen. cbn in Hlen. lia.
Qed.

(** Four results with the scores 0.6, 0.8, 0.4 and 0.9. *)
Definition example_result (s : float) : TestResult :=
  {| test_name := str "check";
     score := s;
     level := SELF_AWARE;
     evidence := [];
     confidence := 0.7 |}.

Definition example_results : list TestResult :=
  map example_result [0.6; 0.8; 0.4; 0.9]%float.

(** C6, as the code has it.  For every list of results that is not empty,
    [_calculate_overall] returns, and its [average_score] is the binary64 sum of
    the scores, as the interpreter's [sum] computes it, divided by their number;
    adding from left to right that sum is [((0 + s_1) + s_2) + ... + s_n].  For
    the scores 0.6, 0.8, 0.4 and 0.9 the mean is within one unit in the last
    place of 0.675: it is 0.675 when the interpreter sums with compensation and
    0.6749999999999999 when it adds from left to right. *)
Theorem average_score_is_sum_over_count (alg : sum_algorithm) (results : list TestResult) :
  results <> [] ->
  exists overall total,
    ConsciousnessTestSuite._calculate_overall alg results = Ok overall /\
    py_sum_floats alg (map score results) = PyFloat total /\
    ConsciousnessTestSuite.average_score overall = (total / Z2float (len results))%float /\
    (alg = LeftToRight ->
     total = fold_left PrimFloat.add (tl (map score results)) (0 + hd 0 (map score results))%float) /\
    (map score results = [0.6; 0.8; 0.4; 0.9]%float ->
     ConsciousnessTestSuite.average_score overall =
       match alg with
       | LeftToRight => 0x1.5999999999999p-1%float
       | Compensated => 0.675%float
       end /\
     (abs (ConsciousnessTestSuite.average_score overall - 0.675) <=? 0x1p-53)%float = true).
Proof.
  intros Hne. destruct results as [|r rest]; [contradiction|].
  destruct (calculate_overall_ok alg r rest) as (overall & total & Hok & Hsum & Havg & _).
  exists overall, total.
  split; [exact Hok|]. split; [exact Hsum|]. split; [exact Havg|]. split.
  - intros ->. cbn [map py_sum_floats] in Hsum. injection Hsum as <-. reflexivity.
  - intros Hscores. rewrite Havg. rewrite Hscores in Hsum.
    replace (len (r :: rest)) with 4
      by (unfold len; rewrite <- (length_map score), Hscores; reflexivity).
    destruct alg; vm_compute in Hsum; injection Hsum as <-; split; reflexivity.
Qed.

(** The four example results, summed with compensation. *)
Lemma average_score_is_sum_over_count_witness :
  exists overall,
    ConsciousnessTestSuite._calculate_overall Compensated example_results = Ok overall /\
    ConsciousnessTestSuite.average_score overall = 0.675%float.
Proof.
  assert (Hne : example_results <> []) by discriminate.
  destruct (average_score_is_sum_over_count Compensated example_results Hne)
    as (overall & total & Hok & _ & _ & _ & Hex).
  exists overall. split; [exact Hok|]. exact (proj1 (Hex eq_refl)).
Defined.

(** Added from left to right, the four example scores do not average to the
    float 0.675. *)
Lemma example_mean_is_not_0_675 :
  exists overall,
    ConsciousnessTestSuite._calculate_overall LeftToRight example_results = Ok overall /\
    (ConsciousnessTestSuite.average_score overall =? 0.675)%float = false /\
    ConsciousnessTestSuite.average_score overall <> 0.675%float.
Proof.
  eexists. split; [reflexivity|]. split; [reflexivity|].
  cbn [ConsciousnessTestSuite.average_score]. intros Heq.
  apply (f_equal (fun x => (x =? 0.675)%float)) in Heq. vm_compute in Heq. discriminate Heq.
Qed.

(** C8.  On the empty list of results [_calculate_overall] raises
    ZeroDivisionError, whichever way the interpreter sums; so does [run_all] on a
    suite with no tests, whatever the response-producing function. *)
Theorem empty_results_raise (alg : sum_algorithm) :
  ConsciousnessTestSuite._calculate_overall alg [] = Raise ZeroDivisionError /\
  (forall (ai_response_func : pystr -> pystr) (now : float),
     ConsciousnessTestSuite.run_all alg [] ai_response_func now = Raise ZeroDivisionError).
Proof. split; [|intros f now]; reflexivity. Qed.

(** ** The JSON text of a message and its reading *)

Definition high_surrogate (c : N) : bool := ((55296 <=? c) && (c <=? 56319))%N.

Definition low_surrogate (c : N) : bool := ((56320 <=? c) && (c <=? 57343))%N.

(** No high surrogate stands right before a low one. *)
Fixpoint pairless (s : pystr) : bool :=
  match s with
  | c :: rest =>
      match rest with
      | d :: _ => negb (high_surrogate c && low_surrogate d)
      | [] => true
      end && pairless rest
  | [] => true
  end.

(** A string that the writer and the reader treat alike: its code points are
    below 0x110000, as in every [str], and it holds no high surrogate right
    before a low one; a surrogate on its own is allowed. *)
Definition plain (s : pystr) : Prop :=
  Forall (fun c => (c < 1114112)%N) s /\ pairless s = true.

Lemma hex_value_digit (d : N) : (d < 16)%N -> hex_value (hex_digit d) = Some d.
Proof.
  intros Hd.
  assert (Hcases : (d = 0 \/ d = 1 \/ d = 2 \/ d = 3 \/ d = 4 \/ d = 5 \/ d = 6 \/ d = 7 \/
                   d = 8 \/ d = 9 \/ d = 10 \/ d = 11 \/ d = 12 \/ d = 13 \/ d = 14 \/ d = 15)%N)
    by lia.
  repeat (destruct Hcases as [->|Hcases]; [reflexivity|]). subst d. reflexivity.
Qed.

Lemma decode_u4_hex4 (c : N) (rest : pystr) :
  (c < 65536)%N -> decode_u4 (hex4 c ++ rest) = Some (c, rest).
Proof.
  intros Hc. unfold hex4, decode_u4. cbn [app].
  rewrite !hex_value_digit by (apply N.mod_lt; discriminate).
  assert (H3 : (c / 4096 < 16)%N) by (apply N.Div0.div_lt_upper_bound; lia).
  rewrite (N.mod_small (c / 4096)) by assumption.
  pose proof (N.div_mod c 16 ltac:(discriminate)) as E0.
  pose proof (N.div_mod (c / 16) 16 ltac:(discriminate)) as E1.
  pose proof (N.div_mod (c / 256) 16 ltac:(discriminate)) as E2.
  rewrite N.Div0.div_div in E1, E2.
  change (16 * 16)%N with 256%N in E1. change (256 * 16)%N with 4096%N in E2.
  revert E0 E1 E2.
  generalize (c / 4096)%N (c / 256)%N (c / 16)%N ((c / 256) mod 16)%N ((c / 16) mod 16)%N
             (c mod 16)%N.
  intros q3 q2 q1 r2 r1 r0 E0 E1 E2.
  replace ((((q3 * 16 + r2) * 16 + r1) * 16 + r0))%N with c by (clear H3 Hc; lia).
  reflexivity.
Qed.

Lemma lor_shiftl_10 (h l : N) : (l < 1024)%N -> N.lor (N.shiftl h 10) l = (h * 1024 + l)%N.
Proof.
  intros Hl.
  assert (Hland : N.land (N.shiftl h 10) l = 0%N).
  { apply N.bits_inj. intros i. rewrite N.land_spec, N.bits_0.
    destruct (N.lt_ge_cases i 10) as [Hi|Hi].
    - rewrite N.shiftl_spec_low by assumption. reflexivity.
    - replace (N.testbit l i) with false; [apply andb_false_r|].
      symmetry. apply N.bits_above_log2.
      destruct (N.eq_dec l 0) as [->|Hnz]; [cbn; lia|].
      apply N.log2_lt_pow2; [lia|].
      apply N.lt_le_trans with (m := (2 ^ 10)%N); [exact Hl|].
      apply N.pow_le_mono_r; [discriminate|assumption]. }
  rewrite <- N.lxor_lor by assumption.
  rewrite <- N.add_nocarry_lxor by assumption.
  rewrite N.shiftl_mul_pow2. reflexivity.
Qed.

(** The surrogate pair of a code point above the basic plane, as the writer
    computes it, and the code point the reader computes back from the pair. *)
Lemma surrogate_pair (c : N) :
  (65536 <= c < 1114112)%N ->
  let n := (c - 65536)%N in
  let s1 := N.lor 55296 (N.land (N.shiftr n 10) 1023) in
  let s2 := N.lor 56320 (N.land n 1023) in
  (55296 <= s1 <= 56319)%N /\ (56320 <= s2 <= 57343)%N /\
  (65536 + N.lor (N.shiftl (s1 - 55296) 10) (s2 - 56320))%N = c.
Proof.
  intros Hc. cbv zeta.
  remember (c - 65536)%N as n eqn:En.
  assert (Hn : (n < 1048576)%N) by lia.
  change 1023%N with (N.ones 10). rewrite !N.land_ones, N.shiftr_div_pow2.
  change (2 ^ 10)%N with 1024%N.
  assert (Hhi : (n / 1024 < 1024)%N) by (apply N.Div0.div_lt_upper_bound; lia).
  rewrite (N.mod_small (n / 1024)) by assumption.
  assert (Hlo : (n mod 1024 < 1024)%N) by (apply N.mod_lt; discriminate).
  pose proof (N.div_mod n 1024 ltac:(discriminate)) as Hdm.
  revert Hhi Hlo Hdm. generalize (n / 1024)%N (n mod 1024)%N. intros q r Hhi Hlo Hdm.
  change 55296%N with (N.shiftl 54 10). change 56320%N with (N.shiftl 55 10).
  rewrite !lor_shiftl_10 by assumption.
  change (N.shiftl 54 10) with 55296%N. change (N.shiftl 55 10) with 56320%N.
  replace (54 * 1024 + q - 55296)%N with q by lia.
  replace (55 * 1024 + r - 56320)%N with r by lia.
  rewrite lor_shiftl_10 by assumption.
  repeat split; lia.
Qed.

Lemma scan_string_u (f : nat) (s acc : pystr) :
  scan_string (S f) (92 :: 117 :: s)%N acc =
    match decode_u4 s with
    | None => None
    | Some (uni, after) =>
        let single := scan_string f after (acc ++ [uni]) in
        if ((55296 <=? uni) && (uni <=? 56319))%N then
          match after with
          | a :: b :: low =>
              if ((a =? 92) && (b =? 117))%N then
                match decode_u4 low with
                | None => None
                | Some (uni2, after2) =>
                    if ((56320 <=? uni2) && (uni2 <=? 57343))%N
                    then scan_string f after2
                           (acc ++ [65536 + N.lor (N.shiftl (uni - 55296) 10) (uni2 - 56320)]%N)
                    else single
                end
              else single
          | _ => single
          end
        else single
    end.
Proof. reflexivity. Qed.

Lemma scan_string_literal (f : nat) (c : N) (s acc : pystr) :
  (c =? 34)%N = false -> (c =? 92)%N = false -> (32 <= c)%N ->
  scan_string (S f) (c :: s) acc = scan_string f s (acc ++ [c]).
Proof.
  intros H34 H92 H32. cbn [scan_string]. rewrite H34, H92.
  replace (c <? 32)%N with false by (symmetry; apply N.ltb_ge; assumption).
  reflexivity.
Qed.

(** The text does not go on with the escape of a low surrogate. *)
Definition no_low_escape (tail : pystr) : Prop :=
  match tail with
  | a :: b :: low =>
      ((a =? 92) && (b =? 117))%N = true ->
      exists uni2 after2, decode_u4 low = Some (uni2, after2) /\ low_surrogate uni2 = false
  | _ => True
  end.

(** Reading what the writer wrote for one code point gives that code point,
    unless it is a high surrogate and the escape of a low one follows. *)
Lemma scan_string_step (c : N) (f : nat) (tail acc : pystr) :
  (c < 1114112)%N ->
  (high_surrogate c = true -> no_low_escape tail) ->
  scan_string (S f) (escape_char c ++ tail) acc = scan_string f tail (acc ++ [c]).
Proof.
  intros Hmax Hnext. unfold escape_char.
  destruct (c =? 34)%N eqn:E34; [apply N.eqb_eq in E34; subst c; reflexivity|].
  destruct (c =? 92)%N eqn:E92; [apply N.eqb_eq in E92; subst c; reflexivity|].
  destruct (c =? 10)%N eqn:E10; [apply N.eqb_eq in E10; subst c; reflexivity|].
  destruct (c =? 13)%N eqn:E13; [apply N.eqb_eq in E13; subst c; reflexivity|].
  destruct (c =? 9)%N eqn:E9; [apply N.eqb_eq in E9; subst c; reflexivity|].
  destruct (c =? 12)%N eqn:E12; [apply N.eqb_eq in E12; subst c; reflexivity|].
  destruct (c =? 8)%N eqn:E8; [apply N.eqb_eq in E8; subst c; reflexivity|].
  destruct ((32 <=? c) && (c <=? 126))%N eqn:Eprint.
  - apply andb_prop in Eprint. destruct Eprint as [Hlo _]. apply N.leb_le in Hlo.
    cbn [app]. apply scan_string_literal; assumption.
  - destruct (c <? 65536)%N eqn:Ebmp.
    + apply N.ltb_lt in Ebmp. rewrite <- app_assoc. cbn [app].
      rewrite scan_string_u, decode_u4_hex4 by assumption. cbv zeta.
      unfold high_surrogate in Hnext.
      destruct ((55296 <=? c) && (c <=? 56319))%N; [|reflexivity].
      specialize (Hnext eq_refl).
      destruct tail as [|a [|b low]]; try reflexivity.
      cbn [no_low_escape] in Hnext.
      destruct ((a =? 92) && (b =? 117))%N; [|reflexivity].
      destruct (Hnext eq_refl) as (uni2 & after2 & Hdecode & Hlow).
      rewrite Hdecode. unfold low_surrogate in Hlow. rewrite Hlow. reflexivity.
    + apply N.ltb_ge in Ebmp.
      destruct (surrogate_pair c (conj Ebmp Hmax)) as (Hs1 & Hs2 & Hback).
      cbv zeta in Hs1, Hs2, Hback.
      set (s1 := N.lor 55296 _) in *. set (s2 := N.lor 56320 _) in *.
      rewrite <- !app_assoc. cbn [app].
      rewrite scan_string_u, decode_u4_hex4 by lia. cbv zeta.
      replace ((55296 <=? s1) && (s1 <=? 56319))%N with true
        by (symmetry; apply andb_true_intro; split; apply N.leb_le; lia).
      cbn [app N.eqb Pos.eqb andb].
      rewrite decode_u4_hex4 by lia.
      replace ((56320 <=? s2) && (s2 <=? 57343))%N with true
        by (symmetry; apply andb_true_intro; split; apply N.leb_le; lia).
      rewrite Hback. reflexivity.
Qed.

(** What the writer wrote for a string that does not start with a low
    surrogate does not start with the escape of one. *)
Lemma escaped_no_low_escape (s rest : pystr) :
  Forall (fun c => (c < 1114112)%N) s ->
  match s with
  | d :: _ => low_surrogate d = false
  | [] => True
  end ->
  no_low_escape (flat_map escape_char s ++ 34%N :: rest).
Proof.
  intros Hmax Hhead. destruct s as [|d s].
  - cbn [flat_map app no_low_escape]. destruct rest as [|b low]; [exact I|].
    intros Hu. discriminate Hu.
  - inversion Hmax as [|? ? Hd _]; subst. cbn [flat_map]. rewrite <- app_assoc.
    set (tail := flat_map escape_char s ++ 34%N :: rest).
    assert (Htail : exists b low, tail = b :: low).
    { unfold tail. destruct (flat_map escape_char s) as [|b low];
        eexists; eexists; reflexivity. }
    unfold escape_char.
    destruct (d =? 34)%N; [intros Hu; discriminate Hu|].
    destruct (d =? 92)%N eqn:E92; [intros Hu; discriminate Hu|].
    destruct (d =? 10)%N; [intros Hu; discriminate Hu|].
    destruct (d =? 13)%N; [intros Hu; discriminate Hu|].
    destruct (d =? 9)%N; [intros Hu; discriminate Hu|].
    destruct (d =? 12)%N; [intros Hu; discriminate Hu|].
    destruct (d =? 8)%N; [intros Hu; discriminate Hu|].
    destruct ((32 <=? d) && (d <=? 126))%N.
    + destruct Htail as (b & low & ->). cbn [app no_low_escape]. rewrite E92.
      intros Hu. discriminate Hu.
    + destruct (d <? 65536)%N eqn:Ebmp.
      * apply N.ltb_lt in Ebmp. rewrite <- app_assoc. cbn [app no_low_escape].
        intros _. exists d, tail. split; [apply decode_u4_hex4; assumption|exact Hhead].
      * apply N.ltb_ge in Ebmp.
        destruct (surrogate_pair d (conj Ebmp Hd)) as (Hs1 & _ & _).
        cbv zeta in Hs1 |- *. set (s1 := N.lor 55296 _) in *.
        rewrite <- !app_assoc. cbn [app no_low_escape].
        intros _. eexists. eexists. split; [apply decode_u4_hex4; lia|].
        unfold low_surrogate. apply andb_false_iff. left. apply N.leb_gt. lia.
Qed.

(** [scanstring] reads back every plain string that [encode_basestring_ascii]
    wrote, and stops after the closing quote. *)
Lemma scan_string_escaped (s : pystr) :
  plain s ->
  forall (fuel : nat) (rest acc : pystr),
    (List.length s < fuel)%nat ->
    scan_string fuel (flat_map escape_char s ++ 34%N :: rest) acc = Some (acc ++ s, rest).
Proof.
  induction s as [|c s IH]; intros [Hmax Hpairs] fuel rest acc Hfuel.
  - destruct fuel as [|fuel]; [inversion Hfuel|].
    cbn [flat_map app scan_string]. rewrite app_nil_r. reflexivity.
  - destruct fuel as [|fuel]; [inversion Hfuel|].
    inversion Hmax as [|? ? Hc Hs]; subst.
    cbn [pairless] in Hpairs. apply andb_prop in Hpairs. destruct Hpairs as [Hpair Hrest].
    cbn [flat_map]. rewrite <- app_assoc, scan_string_step.
    + rewrite IH; [|split; assumption|cbn [List.length] in Hfuel; lia].
      rewrite <- app_assoc. reflexivity.
    + exact Hc.
    + intros Hhigh. apply escaped_no_low_escape; [exact Hs|].
      destruct s as [|d s]; [exact I|].
      rewrite Hhigh in Hpair. cbn [andb negb] in Hpair.
      destruct (low_surrogate d); [discriminate Hpair|reflexivity].
Qed.

Lemma escape_char_length (c : N) : (1 <= List.length (escape_char c))%nat.
Proof.
  unfold escape_char.
  repeat match goal with
         | |- context [if ?b then _ else _] => destruct b
         end; cbn [List.length app hex4]; lia.
Qed.

Lemma escaped_length (s : pystr) : (List.length s <= List.length (flat_map escape_char s))%nat.
Proof.
  induction s as [|c s IH]; [reflexivity|].
  cbn [flat_map List.length]. rewrite length_app.
  pose proof (escape_char_length c). lia.
Qed.

(** A string value, from its opening quote. *)
Lemma scan_string_encoded (s rest : pystr) :
  plain s ->
  exists body,
    encode_basestring_ascii s ++ rest = 34%N :: body /\
    scan_string (List.length body) body [] = Some (s, rest).
Proof.
  intros Hs. exists (flat_map escape_char s ++ 34%N :: rest). split.
  - unfold encode_basestring_ascii. rewrite <- !app_assoc. reflexivity.
  - apply (scan_string_escaped s Hs _ rest []).
    rewrite length_app. cbn [List.length]. pose proof (escaped_length s). lia.
Qed.

(** What may follow a number in a text: nothing, or a code point that does not
    continue the number. *)
Definition int_follow (rest : pystr) : Prop :=
  match rest with
  | [] => True
  | c :: _ =>
      is_digit c = false /\
      ((c =? 46) || (c =? 101) || (c =? 69) || (c =? 43) || (c =? 45))%N = false
  end.

Lemma take_digits_app (ds rest : pystr) :
  Forall (fun c => is_digit c = true) ds -> int_follow rest ->
  take_digits (ds ++ rest) = (ds, rest).
Proof.
  intros Hds Hrest. induction Hds as [|c ds Hc _ IH].
  - cbn [app]. destruct rest as [|c rest]; [reflexivity|].
    cbn [take_digits]. destruct Hrest as [-> _]. reflexivity.
  - cbn [app take_digits]. rewrite Hc, IH. reflexivity.
Qed.

Lemma string_of_pystr_str (s : string) : string_of_pystr (str s) = s.
Proof.
  unfold string_of_pystr, str. rewrite map_map.
  rewrite (map_ext _ (fun a => a)) by apply ascii_N_embedding.
  rewrite map_id. apply string_of_list_ascii_of_string.
Qed.

Lemma str_app (a b : string) : str (a ++ b) = str a ++ str b.
Proof.
  unfold str. rewrite <- map_app. f_equal.
  induction a as [|c a IH]; [reflexivity|]. cbn. now rewrite IH.
Qed.

Lemma uint_digits (d : Decimal.uint) :
  Forall (fun c => is_digit c = true) (str (NilEmpty.string_of_uint d)).
Proof.
  induction d; cbn [NilEmpty.string_of_uint]; try constructor; try reflexivity; assumption.
Qed.

(** The decimal digits of a positive number do not start with a zero. *)
Lemma to_uint_head (p : positive) :
  match Pos.to_uint p with
  | Decimal.Nil | Decimal.D0 _ => False
  | _ => True
  end.
Proof.
  pose proof (DecimalPos.Unsigned.to_of (Pos.to_uint p)) as Hnorm.
  rewrite DecimalPos.Unsigned.of_to in Hnorm. cbn [N.to_uint] in Hnorm.
  pose proof (DecimalPos.Unsigned.to_uint_nonzero p) as Hnz.
  pose proof (DecimalFacts.nzhead_nonzero (Pos.to_uint p)) as Hhead.
  unfold Decimal.unorm in Hnorm.
  destruct (Decimal.nzhead (Pos.to_uint p)) as [|d|d|d|d|d|d|d|d|d|d] eqn:Enz;
    try (rewrite Hnorm; exact I).
  - exfalso. apply Hnz. exact Hnorm.
  - exfalso. exact (Hhead d eq_refl).
Qed.

(** The digits of a positive number, as code points. *)
Lemma pos_digits (p : positive) :
  exists c ds,
    str (NilZero.string_of_uint (Pos.to_uint p)) = c :: ds /\
    Forall (fun c => is_digit c = true) (c :: ds) /\ (c =? 48)%N = false.
Proof.
  pose proof (to_uint_head p) as Hhead. pose proof (uint_digits (Pos.to_uint p)) as Hdigits.
  unfold NilZero.string_of_uint.
  destruct (Pos.to_uint p) as [|d|d|d|d|d|d|d|d|d|d]; try contradiction;
    cbn [NilEmpty.string_of_uint] in *; eexists; eexists;
    (split; [reflexivity|]); (split; [exact Hdigits|reflexivity]).
Qed.

Lemma int_of_string_to_int (z : Z) :
  NilZero.int_of_string (NilZero.string_of_int (Z.to_int z)) = Some (Z.to_int z).
Proof.
  apply NilZero.isi; destruct z as [|p|p]; cbn [Z.to_int]; try discriminate;
    intros Heq; injection Heq as Heq; exact (DecimalPos.Unsigned.to_uint_nonnil p Heq).
Qed.

(** *** Numbers *)

Lemma take_digits_more (s rest : pystr) :
  int_follow rest ->
  take_digits (s ++ rest) = (fst (take_digits s), snd (take_digits s) ++ rest).
Proof.
  intros Hrest. induction s as [|c s IH].
  - cbn [app take_digits fst snd]. destruct rest as [|c rest]; [reflexivity|].
    cbn [take_digits]. destruct Hrest as [-> _]. reflexivity.
  - cbn [app take_digits]. destruct (is_digit c); [|reflexivity].
    rewrite IH. destruct (take_digits s). reflexivity.
Qed.

Lemma take_digits_parts (s : pystr) : s = fst (take_digits s) ++ snd (take_digits s).
Proof.
  induction s as [|c s IH]; [reflexivity|].
  cbn [take_digits]. destruct (is_digit c); [|reflexivity].
  destruct (take_digits s) as [ds after]. cbn [fst snd app] in *. now rewrite <- IH.
Qed.

Lemma match_digits_more (s rest i s1 : pystr) :
  match_digits s = Some (i, s1) -> int_follow rest ->
  match_digits (s ++ rest) = Some (i, s1 ++ rest).
Proof.
  intros Hm Hrest. destruct s as [|c r]; [discriminate|].
  cbn [app match_digits] in *.
  destruct (c =? 48)%N; [injection Hm as <- <-; reflexivity|].
  destruct (is_digit c); [|discriminate].
  rewrite take_digits_more by assumption.
  destruct (take_digits r) as [ds after]. injection Hm as <- <-. reflexivity.
Qed.

Lemma match_integer_more (s rest i s1 : pystr) :
  match_integer s = Some (i, s1) -> int_follow rest ->
  match_integer (s ++ rest) = Some (i, s1 ++ rest).
Proof.
  intros Hm Hrest. destruct s as [|c r]; [discriminate|].
  cbn [app match_integer] in *.
  destruct (c =? 45)%N.
  - destruct (match_digits r) as [[ds after]|] eqn:E; [|discriminate].
    rewrite (match_digits_more r rest ds after E Hrest).
    injection Hm as <- <-. reflexivity.
  - change (c :: r ++ rest) with ((c :: r) ++ rest). apply match_digits_more; assumption.
Qed.

Lemma match_frac_more (s rest : pystr) :
  int_follow rest ->
  match_frac (s ++ rest) = (fst (match_frac s), snd (match_frac s) ++ rest).
Proof.
  intros Hrest. destruct s as [|c r].
  - cbn [app match_frac fst snd]. destruct rest as [|c rest]; [reflexivity|].
    cbn [match_frac]. destruct Hrest as [_ Hc].
    repeat (apply orb_false_elim in Hc; destruct Hc as [Hc ?]).
    rewrite Hc. reflexivity.
  - cbn [app match_frac]. destruct (c =? 46)%N; [|reflexivity].
    rewrite take_digits_more by assumption.
    destruct (take_digits r) as [[|d ds] after]; reflexivity.
Qed.

Lemma match_exp_more (s rest : pystr) :
  int_follow rest ->
  match_exp (s ++ rest) = (fst (match_exp s), snd (match_exp s) ++ rest).
Proof.
  intros Hrest. destruct s as [|c r].
  - cbn [app match_exp fst snd]. destruct rest as [|c rest]; [reflexivity|].
    cbn [match_exp]. destruct Hrest as [_ Hc].
    repeat (apply orb_false_elim in Hc; destruct Hc as [Hc ?]).
    replace ((c =? 101) || (c =? 69))%N with false
      by (symmetry; apply orb_false_intro; assumption).
    reflexivity.
  - cbn [app match_exp]. destruct ((c =? 101) || (c =? 69))%N; [|reflexivity].
    destruct r as [|d r'].
    + cbn [app]. destruct rest as [|x rest']; [reflexivity|].
      destruct Hrest as [Hdigit Hc].
      repeat (apply orb_false_elim in Hc; destruct Hc as [Hc ?]).
      replace ((x =? 45) || (x =? 43))%N with false
        by (symmetry; apply orb_false_intro; assumption).
      cbn [take_digits]. rewrite Hdigit. reflexivity.
    + cbn [app]. destruct ((d =? 45) || (d =? 43))%N.
      * rewrite take_digits_more by assumption.
        destruct (take_digits r') as [[|a ds] after]; reflexivity.
      * change (d :: r' ++ rest) with ((d :: r') ++ rest).
        rewrite take_digits_more by assumption.
        destruct (take_digits (d :: r')) as [[|a ds] after]; reflexivity.
Qed.

(** A match is not changed by text after it that does not continue a number. *)
Lemma match_number_more (s rest i f e s' : pystr) :
  match_number s = Some (i, f, e, s') -> int_follow rest ->
  match_number (s ++ rest) = Some (i, f, e, s' ++ rest).
Proof.
  intros Hm Hrest. unfold match_number in *.
  destruct (match_integer s) as [[i0 s1]|] eqn:Ei; [|discriminate].
  rewrite (match_integer_more _ _ _ _ Ei Hrest).
  rewrite match_frac_more by assumption.
  destruct (match_frac s1) as [f0 s2]. cbn [fst snd].
  rewrite match_exp_more by assumption.
  destruct (match_exp s2) as [e0 s3]. cbn [fst snd].
  injection Hm as <- <- <- <-. reflexivity.
Qed.

Lemma match_digits_parts (s i s1 : pystr) : match_digits s = Some (i, s1) -> s = i ++ s1.
Proof.
  intros Hm. destruct s as [|c r]; [discriminate|]. cbn [match_digits] in Hm.
  destruct (c =? 48)%N; [injection Hm as <- <-; reflexivity|].
  destruct (is_digit c); [|discriminate].
  pose proof (take_digits_parts r) as Hr.
  destruct (take_digits r) as [ds after]. injection Hm as <- <-.
  cbn [fst snd app] in *. now rewrite <- Hr.
Qed.

Lemma match_integer_parts (s i s1 : pystr) : match_integer s = Some (i, s1) -> s = i ++ s1.
Proof.
  intros Hm. destruct s as [|c r]; [discriminate|]. cbn [match_integer] in Hm.
  destruct (c =? 45)%N; [|apply match_digits_parts; assumption].
  destruct (match_digits r) as [[ds after]|] eqn:E; [|discriminate].
  injection Hm as <- <-. cbn [app]. f_equal. apply match_digits_parts. assumption.
Qed.

Lemma match_frac_parts (s : pystr) : s = fst (match_frac s) ++ snd (match_frac s).
Proof.
  destruct s as [|c r]; [reflexivity|]. cbn [match_frac].
  destruct (c =? 46)%N; [|reflexivity].
  pose proof (take_digits_parts r) as Hr.
  destruct (take_digits r) as [[|d ds] after]; cbn [fst snd app] in *;
    [reflexivity|now rewrite <- Hr].
Qed.

Lemma match_exp_parts (s : pystr) : s = fst (match_exp s) ++ snd (match_exp s).
Proof.
  destruct s as [|c r]; [reflexivity|]. cbn [match_exp].
  destruct ((c =? 101) || (c =? 69))%N; [|reflexivity].
  destruct r as [|d r']; [reflexivity|].
  destruct ((d =? 45) || (d =? 43))%N.
  - pose proof (take_digits_parts r') as Hr.
    destruct (take_digits r') as [[|a ds] after]; cbn [fst snd app] in *;
      [reflexivity|now rewrite <- Hr].
  - pose proof (take_digits_parts (d :: r')) as Hr.
    destruct (take_digits (d :: r')) as [[|a ds] after]; cbn [fst snd app] in *;
      [reflexivity|now rewrite <- Hr].
Qed.

(** The groups of a match and the text after it make up the text. *)
Lemma match_number_parts (s i f e s' : pystr) :
  match_number s = Some (i, f, e, s') -> s = i ++ f ++ e ++ s'.
Proof.
  unfold match_number. intros Hm.
  destruct (match_integer s) as [[i0 s1]|] eqn:Ei; [|discriminate].
  apply match_integer_parts in Ei.
  pose proof (match_frac_parts s1) as Hf. destruct (match_frac s1) as [f0 s2].
  pose proof (match_exp_parts s2) as He. destruct (match_exp s2) as [e0 s3].
  injection Hm as <- <- <- <-. cbn [fst snd] in *. now rewrite <- He, <- Hf.
Qed.

(** A number starts with a minus sign or a digit. *)
Lemma match_number_head (s : pystr) :
  match_number s <> None ->
  exists c t, s = c :: t /\ (c = 45%N \/ is_digit c = true).
Proof.
  unfold match_number. intros Hm.
  destruct (match_integer s) as [[i s1]|] eqn:Ei; [|contradiction].
  destruct s as [|c r]; [discriminate|]. exists c, r. split; [reflexivity|].
  cbn [match_integer match_digits] in Ei.
  destruct (c =? 45)%N eqn:E45; [left; apply N.eqb_eq; exact E45|].
  destruct (c =? 48)%N eqn:E48.
  - right. apply N.eqb_eq in E48. subst c. reflexivity.
  - destruct (is_digit c); [right; reflexivity|discriminate].
Qed.

Lemma digits_match (c : N) (ds : pystr) :
  Forall (fun c => is_digit c = true) (c :: ds) -> (c =? 48)%N = false ->
  match_digits (c :: ds) = Some (c :: ds, []).
Proof.
  intros Hdigits Hc. cbn [match_digits]. rewrite Hc.
  inversion Hdigits as [|? ? Hd Hds]; subst. rewrite Hd.
  pose proof (take_digits_app ds [] Hds I) as Htake. rewrite app_nil_r in Htake.
  rewrite Htake. reflexivity.
Qed.

(** The decimal text of an int is a number without fraction or exponent. *)
Lemma match_number_int (z : Z) :
  match_number (py_str_int z) = Some (py_str_int z, [], [], []).
Proof.
  destruct z as [|p|p].
  - reflexivity.
  - destruct (pos_digits p) as (c & ds & Hstr & Hdigits & Hc).
    assert (Hpy : py_str_int (Z.pos p) = c :: ds) by exact Hstr.
    rewrite Hpy. unfold match_number. cbn [match_integer].
    assert (Hminus : (c =? 45)%N = false).
    { inversion Hdigits as [|? ? Hd _]. unfold is_digit in Hd.
      apply andb_prop in Hd. destruct Hd as [Hlo _]. apply N.leb_le in Hlo.
      apply N.eqb_neq. lia. }
    rewrite Hminus, (digits_match c ds Hdigits Hc). reflexivity.
  - destruct (pos_digits p) as (c & ds & Hstr & Hdigits & Hc).
    assert (Hpy : py_str_int (Z.neg p) = 45%N :: c :: ds).
    { rewrite <- Hstr. reflexivity. }
    rewrite Hpy. unfold match_number. cbn [match_integer N.eqb Pos.eqb].
    rewrite (digits_match c ds Hdigits Hc). reflexivity.
Qed.

(** A text that is a number with a fraction or an exponent, and nothing else. *)
Definition float_literal (t : pystr) : bool :=
  match match_number t with
  | Some (_, frac, ex, []) =>
      match frac, ex with
      | [], [] => false
      | _, _ => true
      end
  | _ => false
  end.

Lemma float_literal_head (t : pystr) :
  float_literal t = true -> exists c r, t = c :: r /\ (c = 45%N \/ is_digit c = true).
Proof.
  unfold float_literal. intros Hlit. apply match_number_head.
  destruct (match_number t); [discriminate|discriminate Hlit].
Qed.

(** A float that the writer gives the text of [float_repr]: neither NaN nor
    infinite, by the tests of [floatstr]. *)
Definition finite_float (x : float) : bool :=
  ((x =? x) && negb (x =? infinity) && negb (x =? neg_infinity))%float.

Section JSON.
Context `{FloatText} `{Interpreter}.

Lemma floatstr_finite (x : float) : finite_float x = true -> floatstr x = float_repr x.
Proof.
  unfold finite_float, floatstr. intros Hfin.
  apply andb_prop in Hfin. destruct Hfin as [Hfin Hneg].
  apply andb_prop in Hfin. destruct Hfin as [Hnan Hpos].
  rewrite Hnan. cbn [negb].
  destruct (x =? infinity)%float; [discriminate|].
  destruct (x =? neg_infinity)%float; [discriminate|]. reflexivity.
Qed.

(** [scan_number] reads back the decimal text of every int within the limit
    on digits. *)
Lemma scan_number_int (z : Z) (rest : pystr) :
  over_digit_limit (int_digits z) = false ->
  int_follow rest -> scan_number (py_str_int z ++ rest) = Some (VInt z, rest).
Proof.
  intros Hfits Hrest. unfold scan_number.
  rewrite (match_number_more _ rest _ _ _ _ (match_number_int z) Hrest). cbn [app].
  fold (int_digits z). rewrite Hfits.
  unfold py_str_int at 1. rewrite string_of_pystr_str, int_of_string_to_int.
  rewrite DecimalZ.of_to. reflexivity.
Qed.

(** [scan_number] reads back a float from a text that is a float literal when
    [float_of_text] reads the float back from it. *)
Lemma scan_number_float (x : float) (rest : pystr) :
  float_literal (float_repr x) = true -> float_of_text (float_repr x) = x ->
  int_follow rest ->
  scan_number (float_repr x ++ rest) = Some (VFloat x, rest).
Proof.
  unfold float_literal. intros Hlit Hval Hrest.
  destruct (match_number (float_repr x)) as [[[[i f] e] s']|] eqn:E; [|discriminate].
  destruct s' as [|? ?]; [|discriminate].
  unfold scan_number. rewrite (match_number_more _ rest _ _ _ _ E Hrest).
  pose proof (match_number_parts _ _ _ _ _ E) as Hparts.
  rewrite app_nil_r in Hparts. cbn [app].
  destruct f as [|a f]; [destruct e as [|b e]; [discriminate|]|];
    rewrite <- Hparts, Hval; reflexivity.
Qed.

(** The values that come back as they were written: no tuples; ints within
    the interpreter's limit on digits; plain strings; dicts with plain keys
    that are all different; the two infinities; and the floats that are
    neither NaN nor infinite, with a text that is a float literal from which
    [float] gives the float back, as the interpreter's [repr] promises. *)
Inductive json_native : pyval -> Prop :=
| native_none : json_native VNone
| native_bool (b : bool) : json_native (VBool b)
| native_int (z : Z) : over_digit_limit (int_digits z) = false -> json_native (VInt z)
| native_float (x : float) :
    finite_float x = true ->
    float_literal (float_repr x) = true ->
    float_of_text (float_repr x) = x ->
    json_native (VFloat x)
| native_infinity (x : float) :
    x = infinity \/ x = neg_infinity -> json_native (VFloat x)
| native_str (s : pystr) : plain s -> json_native (VStr s)
| native_list (items : list pyval) :
    Forall json_native items -> json_native (VList items)
| native_dict (items : list (pystr * pyval)) :
    NoDup (map fst items) ->
    Forall (fun kv => plain (fst kv) /\ json_native (snd kv)) items ->
    json_native (VDict items).

Section PyvalInduction.
Variable P : pyval -> Prop.
Hypothesis P_none : P VNone.
Hypothesis P_bool : forall b, P (VBool b).
Hypothesis P_int : forall z, P (VInt z).
Hypothesis P_float : forall x, P (VFloat x).
Hypothesis P_str : forall s, P (VStr s).
Hypothesis P_list : forall items, Forall P items -> P (VList items).
Hypothesis P_tuple : forall items, Forall P items -> P (VTuple items).
Hypothesis P_dict : forall items, Forall (fun kv => P (snd kv)) items -> P (VDict items).

Fixpoint pyval_induction (v : pyval) : P v :=
  match v with
  | VNone => P_none
  | VBool b => P_bool b
  | VInt z => P_int z
  | VFloat x => P_float x
  | VStr s => P_str s
  | VList items =>
      P_list items
        ((fix all (l : list pyval) : Forall P l :=
            match l with
            | [] => Forall_nil P
            | x :: rest => Forall_cons x (pyval_induction x) (all rest)
            end) items)
  | VTuple items =>
      P_tuple items
        ((fix all (l : list pyval) : Forall P l :=
            match l with
            | [] => Forall_nil P
            | x :: rest => Forall_cons x (pyval_induction x) (all rest)
            end) items)
  | VDict items =>
      P_dict items
        ((fix all (l : list (pystr * pyval)) : Forall (fun kv => P (snd kv)) l :=
            match l with
            | [] => Forall_nil _
            | kv :: rest => Forall_cons kv (pyval_induction (snd kv)) (all rest)
            end) items)
  end.

End PyvalInduction.

(** What follows a value in a text that [json_dumps] wrote: nothing, a comma or
    a line break. *)
Definition follow (rest : pystr) : Prop :=
  match rest with
  | [] => True
  | c :: _ => c = 44%N \/ c = 10%N
  end.

Lemma follow_int (rest : pystr) : follow rest -> int_follow rest.
Proof.
  destruct rest as [|c rest]; [trivial|]. intros [-> | ->]; split; reflexivity.
Qed.

(** The first code point of a value's text. *)
Definition value_start (c : N) : Prop :=
  In c [34; 123; 91; 110; 116; 102; 45; 73]%N \/ is_digit c = true.

Lemma number_start (c : N) : c = 45%N \/ is_digit c = true -> value_start c.
Proof. intros [->|Hd]; [left; cbn; tauto|right; exact Hd]. Qed.

Lemma value_start_facts (c : N) :
  value_start c ->
  is_json_ws c = false /\ (c =? 93)%N = false /\ (c =? 125)%N = false.
Proof.
  intros [Hin|Hd].
  - cbn [In] in Hin.
    repeat (destruct Hin as [<-|Hin]; [repeat split; reflexivity|]). contradiction.
  - unfold is_digit in Hd. apply andb_prop in Hd. destruct Hd as [Hlo Hhi].
    apply N.leb_le in Hlo, Hhi. unfold is_json_ws.
    repeat split; repeat (apply orb_false_intro); apply N.eqb_neq; lia.
Qed.

Lemma encode_start (v : pyval) (level : nat) :
  json_native v -> exists c t, text_of v level = c :: t /\ value_start c.
Proof.
  intros Hnative.
  destruct Hnative as [|b|z _|x Hfin Hlit _|x [->| ->]|s _|items _|items _ _].
  - eexists; eexists; split; [reflexivity|left; cbn; tauto].
  - destruct b; eexists; eexists; (split; [reflexivity|left; cbn; tauto]).
  - cbn [text_of].
    destruct (match_number_head (py_str_int z)) as (c & t & Hstr & Hc).
    { rewrite match_number_int. discriminate. }
    exists c, t. split; [exact Hstr|apply number_start, Hc].
  - cbn [text_of]. rewrite floatstr_finite by assumption.
    destruct (float_literal_head _ Hlit) as (c & t & Hstr & Hc).
    exists c, t. split; [exact Hstr|apply number_start, Hc].
  - eexists; eexists; split; [reflexivity|left; cbn; tauto].
  - eexists; eexists; split; [reflexivity|left; cbn; tauto].
  - eexists; eexists; split; [reflexivity|left; cbn; tauto].
  - destruct items; eexists; eexists; (split; [reflexivity|left; cbn; tauto]).
  - destruct items as [|[k x] kvs]; eexists; eexists;
      (split; [reflexivity|left; cbn; tauto]).
Qed.

Lemma encode_length (v : pyval) (level : nat) :
  json_native v -> (1 <= List.length (text_of v level))%nat.
Proof.
  intros Hnative.
  destruct (encode_start v level Hnative) as (c & t & -> & _). cbn [List.length]. lia.
Qed.

Lemma skip_ws_start (c : N) (t : pystr) : is_json_ws c = false -> skip_ws (c :: t) = c :: t.
Proof. intros Hc. cbn [skip_ws]. rewrite Hc. reflexivity. Qed.

Lemma skip_ws_spaces (n : nat) (s : pystr) : skip_ws (repeat 32%N n ++ s) = skip_ws s.
Proof. induction n as [|n IH]; [reflexivity|]. cbn [repeat app skip_ws is_json_ws]. exact IH. Qed.

Lemma skip_ws_newline_indent (level : nat) (s : pystr) :
  skip_ws (newline_indent level ++ s) = skip_ws s.
Proof. unfold newline_indent. cbn [app skip_ws]. apply skip_ws_spaces. Qed.

(** After a line break and its indentation the reader stands at the value. *)
Lemma skip_ws_to_value (level L : nat) (v : pyval) (s : pystr) :
  json_native v ->
  exists c t,
    text_of v L ++ s = c :: t /\ value_start c /\
    skip_ws (newline_indent level ++ text_of v L ++ s) = c :: t.
Proof.
  intros Hnative.
  destruct (encode_start v L Hnative) as (c & t & Henc & Hc).
  exists c, (t ++ s). rewrite Henc. split; [reflexivity|]. split; [assumption|].
  rewrite skip_ws_newline_indent. cbn [app].
  apply skip_ws_start. apply (value_start_facts c Hc).
Qed.

Lemma str_eqb_eq (a b : pystr) : str_eqb a b = true <-> a = b.
Proof.
  revert b. induction a as [|x a IH]; intros [|y b]; cbn [str_eqb]; split;
    try discriminate; try reflexivity.
  - intros Heq. apply andb_prop in Heq. destruct Heq as [Hx Ha].
    apply N.eqb_eq in Hx. apply IH in Ha. congruence.
  - intros Heq. injection Heq as -> ->. rewrite N.eqb_refl. apply IH. reflexivity.
Qed.

Lemma dict_set_new {V : Type} (d : list (pystr * V)) (k : pystr) (v : V) :
  ~ In k (map fst d) -> dict_set d k v = d ++ [(k, v)].
Proof.
  induction d as [|[k' v'] d IH]; intros Hk; [reflexivity|].
  cbn [dict_set app]. cbn [map fst In] in Hk.
  destruct (str_eqb k' k) eqn:E.
  - apply str_eqb_eq in E. tauto.
  - rewrite IH by tauto. reflexivity.
Qed.

Lemma dict_of_pairs_from {V : Type} (items acc : list (pystr * V)) :
  NoDup (map fst (acc ++ items)) ->
  fold_left (fun d kv => dict_set d (fst kv) (snd kv)) items acc = acc ++ items.
Proof.
  revert acc. induction items as [|[k v] items IH]; intros acc Hnd.
  - cbn [fold_left]. now rewrite app_nil_r.
  - cbn [fold_left fst snd]. rewrite dict_set_new.
    + rewrite IH; rewrite <- app_assoc; [reflexivity|exact Hnd].
    + rewrite map_app in Hnd. cbn [map fst] in Hnd.
      apply NoDup_remove_2 in Hnd. intros Hin. apply Hnd, in_or_app. left. exact Hin.
Qed.

(** A dict built from pairs with different keys is the list of the pairs. *)
Lemma dict_of_pairs_NoDup {V : Type} (items : list (pystr * V)) :
  NoDup (map fst items) -> dict_of_pairs items = items.
Proof. intros Hnd. exact (dict_of_pairs_from items [] Hnd). Qed.

(** The text of the items of an array after its first, and of the members of an
    object after its first, at depth [L]. *)
Definition more_items (L : nat) (ys : list pyval) : pystr :=
  flat_map (fun y => [44%N] ++ newline_indent L ++ text_of y L) ys.

Definition more_members (L : nat) (kvs : list (pystr * pyval)) : pystr :=
  flat_map (fun kv => [44%N] ++ newline_indent L ++ encode_basestring_ascii (fst kv)
                        ++ str ": " ++ text_of (snd kv) L) kvs.

Lemma encode_list_cons (x : pyval) (ys : list pyval) (level : nat) :
  text_of (VList (x :: ys)) level =
    91%N :: newline_indent (S level) ++ text_of x (S level) ++ more_items (S level) ys
      ++ newline_indent level ++ [93%N].
Proof. reflexivity. Qed.

Lemma encode_dict_cons (k : pystr) (x : pyval) (kvs : list (pystr * pyval)) (level : nat) :
  text_of (VDict ((k, x) :: kvs)) level =
    123%N :: newline_indent (S level) ++ encode_basestring_ascii k ++ str ": "
      ++ text_of x (S level) ++ more_members (S level) kvs
      ++ newline_indent level ++ [125%N].
Proof. reflexivity. Qed.

Lemma skip_ws_string (k s : pystr) :
  skip_ws (encode_basestring_ascii k ++ s) = encode_basestring_ascii k ++ s.
Proof. reflexivity. Qed.

Section Reading.
Variable scan : pystr -> option (pyval * pystr).
Variables L level : nat.
Variable rest : pystr.

(** [scan_items] reads back the items of an array when [scan] reads back each
    of them. *)
Lemma scan_items_encoded (ys : list pyval) :
  forall (x : pyval) (acc : list pyval) (n : nat),
    Forall json_native (x :: ys) ->
    (forall y, In y (x :: ys) ->
       forall r, follow r -> scan (text_of y L ++ r) = Some (y, r)) ->
    (List.length ys < n)%nat ->
    scan_items scan n
      (text_of x L ++ more_items L ys ++ newline_indent level ++ 93%N :: rest) acc
    = Some (VList (acc ++ x :: ys), rest).
Proof.
  induction ys as [|y ys IH]; intros x acc n Hnative Hscan Hn;
    (destruct n as [|n]; [inversion Hn|]); cbn [scan_items].
  - cbn [more_items flat_map app].
    rewrite (Hscan x (or_introl eq_refl)) by (right; reflexivity).
    rewrite skip_ws_newline_indent. reflexivity.
  - cbn [more_items flat_map]. rewrite <- !app_assoc. cbn [app].
    rewrite (Hscan x (or_introl eq_refl)) by (left; reflexivity).
    cbn [skip_ws is_json_ws N.eqb Pos.eqb orb].
    change (flat_map _ ys) with (more_items L ys).
    inversion Hnative as [|? ? _ Hnative']; subst.
    destruct (skip_ws_to_value L L y
                (more_items L ys ++ newline_indent level ++ 93%N :: rest))
      as (c & t & Htext & _ & Hskip).
    { inversion Hnative'; assumption. }
    rewrite Hskip, <- Htext.
    rewrite IH.
    + rewrite <- app_assoc. reflexivity.
    + exact Hnative'.
    + intros y' Hy'. apply Hscan. right. exact Hy'.
    + cbn [List.length] in Hn. lia.
Qed.

(** [scan_members] reads back the members of an object when [scan] reads back
    each of their values. *)
Lemma scan_members_encoded (kvs : list (pystr * pyval)) :
  forall (k : pystr) (x : pyval) (acc : list (pystr * pyval)) (n : nat),
    Forall (fun kv => plain (fst kv) /\ json_native (snd kv)) ((k, x) :: kvs) ->
    (forall kv, In kv ((k, x) :: kvs) ->
       forall r, follow r -> scan (text_of (snd kv) L ++ r) = Some (snd kv, r)) ->
    (List.length kvs < n)%nat ->
    scan_members scan n
      (encode_basestring_ascii k ++ str ": " ++ text_of x L ++ more_members L kvs
         ++ newline_indent level ++ 125%N :: rest) acc
    = Some (VDict (dict_of_pairs (acc ++ (k, x) :: kvs)), rest).
Proof.
  induction kvs as [|[k' x'] kvs IH]; intros k x acc n Hplain Hscan Hn;
    (destruct n as [|n]; [inversion Hn|]).
  - cbn [more_members flat_map app].
    destruct (scan_string_encoded k
                (str ": " ++ text_of x L ++ newline_indent level ++ 125%N :: rest))
      as (body & Htext & Hkey).
    { inversion Hplain as [|? ? [Hk _] _]; exact Hk. }
    rewrite Htext. cbn [scan_members N.eqb Pos.eqb negb]. rewrite Hkey.
    change (str ": " ++ ?s) with (58%N :: 32%N :: s).
    cbn [skip_ws is_json_ws N.eqb Pos.eqb orb negb].
    destruct (encode_start x L) as (c & t & Henc & Hc).
    { inversion Hplain as [|? ? [_ Hx] _]; exact Hx. }
    rewrite Henc. cbn [app].
    rewrite (skip_ws_start c _ (proj1 (value_start_facts c Hc))).
    change (c :: t ++ ?s) with ((c :: t) ++ s). rewrite <- Henc.
    rewrite (Hscan (k, x) (or_introl eq_refl)) by (right; reflexivity).
    rewrite skip_ws_newline_indent. reflexivity.
  - cbn [more_members flat_map fst snd]. rewrite <- !app_assoc. cbn [app].
    change (flat_map _ kvs) with (more_members L kvs).
    destruct (scan_string_encoded k
                (str ": " ++ text_of x L ++ 44%N :: newline_indent L
                   ++ encode_basestring_ascii k' ++ str ": " ++ text_of x' L
                   ++ more_members L kvs ++ newline_indent level ++ 125%N :: rest))
      as (body & Htext & Hkey).
    { inversion Hplain as [|? ? [Hk _] _]; exact Hk. }
    rewrite Htext. cbn [scan_members N.eqb Pos.eqb negb]. rewrite Hkey.
    change (str ": " ++ ?s) with (58%N :: 32%N :: s).
    cbn [skip_ws is_json_ws N.eqb Pos.eqb orb negb].
    destruct (encode_start x L) as (c & t & Henc & Hc).
    { inversion Hplain as [|? ? [_ Hx] _]; exact Hx. }
    rewrite Henc. cbn [app].
    rewrite (skip_ws_start c _ (proj1 (value_start_facts c Hc))).
    change (c :: t ++ ?s) with ((c :: t) ++ s). rewrite <- Henc.
    rewrite (Hscan (k, x) (or_introl eq_refl)) by (left; reflexivity).
    cbn [skip_ws is_json_ws N.eqb Pos.eqb orb].
    rewrite skip_ws_newline_indent.
    rewrite skip_ws_string. cbn [snd].
    rewrite IH.
    + rewrite <- app_assoc. reflexivity.
    + inversion Hplain; assumption.
    + intros kv Hkv. apply Hscan. right. exact Hkv.
    + cbn [List.length] in Hn. lia.
Qed.

End Reading.

Lemma flat_map_length_In {A : Type} (f : A -> pystr) (y : A) (l : list A) :
  In y l -> (List.length (f y) <= List.length (flat_map f l))%nat.
Proof.
  induction l as [|x l IH]; intros Hin; [contradiction|].
  cbn [flat_map]. rewrite length_app. destruct Hin as [->|Hin]; [lia|].
  specialize (IH Hin). lia.
Qed.

Lemma flat_map_length_count {A : Type} (f : A -> pystr) (l : list A) :
  (forall x, 1 <= List.length (f x))%nat ->
  (List.length l <= List.length (flat_map f l))%nat.
Proof.
  intros Hf. induction l as [|x l IH]; [reflexivity|].
  cbn [flat_map List.length]. rewrite length_app. specialize (Hf x). lia.
Qed.

Lemma more_items_count (L : nat) (ys : list pyval) :
  (List.length ys <= List.length (more_items L ys))%nat.
Proof. unfold more_items. apply flat_map_length_count. intros x. cbn [app List.length]. lia. Qed.

Lemma more_members_count (L : nat) (kvs : list (pystr * pyval)) :
  (List.length kvs <= List.length (more_members L kvs))%nat.
Proof. unfold more_members. apply flat_map_length_count. intros x. cbn [app List.length]. lia. Qed.

Lemma item_shorter (level : nat) (x y : pyval) (ys : list pyval) :
  In y (x :: ys) ->
  (List.length (text_of y (S level)) < List.length (text_of (VList (x :: ys)) level))%nat.
Proof.
  intros Hin. rewrite encode_list_cons. cbn [List.length]. rewrite !length_app.
  destruct Hin as [->|Hin]; [lia|].
  pose proof (flat_map_length_In
                (fun y => [44%N] ++ newline_indent (S level) ++ text_of y (S level)) y ys Hin)
    as Hlen.
  change (flat_map _ ys) with (more_items (S level) ys) in Hlen. cbv beta in Hlen.
  rewrite !length_app in Hlen. lia.
Qed.

Lemma member_shorter (level : nat) (k : pystr) (x : pyval) (kv : pystr * pyval)
  (kvs : list (pystr * pyval)) :
  In kv ((k, x) :: kvs) ->
  (List.length (text_of (snd kv) (S level))
   < List.length (text_of (VDict ((k, x) :: kvs)) level))%nat.
Proof.
  intros Hin. rewrite encode_dict_cons. cbn [List.length]. rewrite !length_app.
  destruct Hin as [<-|Hin]; [cbn [snd]; lia|].
  pose proof (flat_map_length_In
                (fun kv => [44%N] ++ newline_indent (S level)
                             ++ encode_basestring_ascii (fst kv) ++ str ": "
                             ++ text_of (snd kv) (S level)) kv kvs Hin)
    as Hlen.
  change (flat_map _ kvs) with (more_members (S level) kvs) in Hlen. cbv beta in Hlen.
  rewrite !length_app in Hlen. lia.
Qed.

(** At a minus sign or a digit the reader reads a number. *)
Lemma scan_value_number (fuel : nat) (s : pystr) (c : N) (t : pystr)
  (number : pyval * pystr) :
  s = c :: t -> c = 45%N \/ is_digit c = true ->
  scan_number s = Some number ->
  scan_value (S fuel) s = Some number.
Proof.
  intros -> Hc Hscan.
  assert (Htests : ((c =? 34) || (c =? 123) || (c =? 91) || (c =? 110) || (c =? 116)
                    || (c =? 102))%N = false).
  { destruct Hc as [->|Hd]; [reflexivity|].
    unfold is_digit in Hd. apply andb_prop in Hd. destruct Hd as [Hlo Hhi].
    apply N.leb_le in Hlo, Hhi.
    repeat (apply orb_false_intro); apply N.eqb_neq; lia. }
  repeat (apply orb_false_elim in Htests; destruct Htests as [Htests ?]).
  cbn [scan_value].
  repeat match goal with
         | Hf : (c =? _)%N = false |- _ => rewrite Hf; clear Hf
         end.
  rewrite Hscan. reflexivity.
Qed.

(** The reader gives back every JSON value from the text the writer made of it,
    and stops where that text ends. *)
Lemma scan_value_encoded (v : pyval) :
  json_native v ->
  forall (fuel level : nat) (rest : pystr),
    (List.length (text_of v level) <= fuel)%nat -> follow rest ->
    scan_value fuel (text_of v level ++ rest) = Some (v, rest).
Proof.
  induction v as [|b|z|x|s|items IH|items IH|items IH] using pyval_induction;
    intros Hnative fuel level rest Hfuel Hrest;
    (destruct fuel as [|fuel];
     [pose proof (encode_length _ level Hnative); lia|]).
  - reflexivity.
  - destruct b; reflexivity.
  - inversion Hnative as [| |? Hfits| | | | |]; subst. cbn [text_of].
    destruct (match_number_head (py_str_int z)) as (c & t & Hstr & Hc).
    { rewrite match_number_int. discriminate. }
    apply (scan_value_number fuel _ c (t ++ rest)); [rewrite Hstr; reflexivity|exact Hc|].
    apply scan_number_int; [exact Hfits|apply follow_int, Hrest].
  - inversion Hnative as [| | |? Hfin Hlit Hval|? [Hinf|Hinf]| | |]; subst.
    + cbn [text_of]. rewrite floatstr_finite by assumption.
      destruct (float_literal_head _ Hlit) as (c & t & Hstr & Hc).
      apply (scan_value_number fuel _ c (t ++ rest)); [rewrite Hstr; reflexivity|exact Hc|].
      apply scan_number_float; [assumption|assumption|apply follow_int, Hrest].
    + reflexivity.
    + reflexivity.
  - inversion Hnative as [| | | | |? Hplain| |]; subst.
    cbn [text_of]. destruct (scan_string_encoded s rest Hplain) as (body & Htext & Hscan).
    rewrite Htext. cbn [scan_value N.eqb Pos.eqb]. rewrite Hscan. reflexivity.
  - inversion Hnative as [| | | | | |? Hitems|]; subst.
    destruct items as [|x ys]; [reflexivity|].
    rewrite encode_list_cons. cbn [app scan_value N.eqb Pos.eqb].
    rewrite <- !app_assoc. cbn [app].
    destruct (skip_ws_to_value (S level) (S level) x
                (more_items (S level) ys ++ newline_indent level ++ 93%N :: rest))
      as (c & t & Htext & Hc & Hskip).
    { inversion Hitems; assumption. }
    rewrite Hskip. rewrite (proj1 (proj2 (value_start_facts c Hc))).
    rewrite <- Htext.
    apply scan_items_encoded.
    + exact Hitems.
    + intros y Hy r Hr.
      rewrite Forall_forall in IH, Hitems.
      apply (IH y Hy (Hitems y Hy)); [|exact Hr].
      pose proof (item_shorter level x y ys Hy). lia.
    + rewrite !length_app. pose proof (more_items_count (S level) ys).
      assert (Hx : json_native x) by (inversion Hitems; assumption).
      pose proof (encode_length x (S level) Hx). lia.
  - inversion Hnative.
  - inversion Hnative as [| | | | | | |? Hkeys Hitems]; subst.
    destruct items as [|[k x] kvs]; [reflexivity|].
    rewrite encode_dict_cons. cbn [app scan_value N.eqb Pos.eqb].
    rewrite <- !app_assoc.
    rewrite skip_ws_newline_indent, skip_ws_string.
    assert (Hhead : exists t, encode_basestring_ascii k ++ str ": " ++ text_of x (S level)
                                ++ more_members (S level) kvs ++ newline_indent level
                                ++ [125%N] ++ rest = 34%N :: t)
      by (eexists; reflexivity).
    destruct Hhead as [t Hhead]. rewrite Hhead. cbn [N.eqb Pos.eqb]. rewrite <- Hhead.
    cbn [app].
    rewrite scan_members_encoded.
    + cbn [app]. rewrite dict_of_pairs_NoDup by assumption. reflexivity.
    + exact Hitems.
    + intros kv Hkv r Hr.
      rewrite Forall_forall in IH, Hitems.
      apply (IH kv Hkv (proj2 (Hitems kv Hkv))); [|exact Hr].
      pose proof (member_shorter level k x kv kvs Hkv). lia.
    + rewrite !length_app.
      pose proof (more_members_count (S level) kvs).
      assert (Hx : json_native x) by (inversion Hitems as [|? ? [_ Hx] _]; exact Hx).
      pose proof (encode_length x (S level) Hx). lia.
Qed.

(** The values whose ints are all within the interpreter's limit on digits:
    those the encoder writes to the end. *)
Fixpoint fits (v : pyval) : bool :=
  match v with
  | VInt z => negb (over_digit_limit (int_digits z))
  | VList items => forallb fits items
  | VTuple items => forallb fits items
  | VDict items => forallb (fun kv => fits (snd kv)) items
  | _ => true
  end.

Lemma concat_each_spec {A : Type} (piece : A -> exc pystr) (text : A -> pystr)
    (good : A -> bool) (l : list A) :
  Forall (fun x => piece x = if good x then Ok (text x) else Raise ValueError) l ->
  concat_each piece l = if forallb good l then Ok (flat_map text l) else Raise ValueError.
Proof.
  induction 1 as [|x l Hx _ IH]; [reflexivity|].
  cbn [concat_each forallb flat_map]. rewrite Hx, IH.
  destruct (good x); [|reflexivity].
  destruct (forallb good l); reflexivity.
Qed.

(** The encoder writes the text of [text_of] when every int is within the
    limit, and raises a ValueError when one is not. *)
Lemma encode_spec (v : pyval) :
  forall level,
    encode v level = if fits v then Ok (text_of v level) else Raise ValueError.
Proof.
  induction v as [|b|z|x|s|items IH|items IH|items IH] using pyval_induction;
    intros level.
  - reflexivity.
  - destruct b; reflexivity.
  - cbn [encode fits]. unfold int_repr.
    destruct (over_digit_limit (int_digits z)); reflexivity.
  - reflexivity.
  - reflexivity.
  - destruct items as [|x rest]; [reflexivity|].
    inversion IH as [|? ? Hx Hrest]; subst.
    cbn [encode fits text_of forallb]. rewrite Hx.
    destruct (fits x); [|reflexivity]. cbn [bind andb].
    rewrite (concat_each_spec _
               (fun y => [44%N] ++ newline_indent (S level) ++ text_of y (S level))
               fits rest).
    + destruct (forallb fits rest); reflexivity.
    + eapply Forall_impl; [|exact Hrest].
      intros y Hy. cbv beta. rewrite Hy. destruct (fits y); reflexivity.
  - destruct items as [|x rest]; [reflexivity|].
    inversion IH as [|? ? Hx Hrest]; subst.
    cbn [encode fits text_of forallb]. rewrite Hx.
    destruct (fits x); [|reflexivity]. cbn [bind andb].
    rewrite (concat_each_spec _
               (fun y => [44%N] ++ newline_indent (S level) ++ text_of y (S level))
               fits rest).
    + destruct (forallb fits rest); reflexivity.
    + eapply Forall_impl; [|exact Hrest].
      intros y Hy. cbv beta. rewrite Hy. destruct (fits y); reflexivity.
  - destruct items as [|[k x] rest]; [reflexivity|].
    inversion IH as [|? ? Hx Hrest]; subst. cbn [snd] in Hx.
    cbn [encode fits text_of forallb snd]. rewrite Hx.
    destruct (fits x); [|reflexivity]. cbn [bind andb].
    rewrite (concat_each_spec _
               (fun kv => [44%N] ++ newline_indent (S level)
                            ++ encode_basestring_ascii (fst kv) ++ str ": "
                            ++ text_of (snd kv) (S level))
               (fun kv => fits (snd kv)) rest).
    + destruct (forallb (fun kv => fits (snd kv)) rest); reflexivity.
    + eapply Forall_impl; [|exact Hrest].
      intros kv Hkv. cbv beta. rewrite Hkv. destruct (fits (snd kv)); reflexivity.
Qed.

(** What [json.dumps] does, case by case. *)
Lemma json_dumps_spec (v : pyval) :
  json_dumps v
  = if encoder_overflows v then Raise RecursionError
    else if fits v then Ok (text_of v 0) else Raise ValueError.
Proof. unfold json_dumps. rewrite encode_spec. reflexivity. Qed.

Lemma json_dumps_text (v : pyval) (text : pystr) :
  json_dumps v = Ok text ->
  text = text_of v 0 /\ fits v = true /\ encoder_overflows v = false.
Proof.
  rewrite json_dumps_spec.
  destruct (encoder_overflows v); [discriminate|].
  destruct (fits v); [|discriminate].
  intros Heq. injection Heq as <-. repeat split.
Qed.



(** Reading the text of a JSON value gives the value back. *)
Lemma decode_text (v : pyval) : json_native v -> decode (text_of v 0) = Some v.
Proof.
  intros Hnative. unfold decode.
  destruct (encode_start v 0 Hnative) as (c & t & Henc & Hc).
  assert (Hskip : skip_ws (text_of v 0) = text_of v 0).
  { rewrite Henc. apply skip_ws_start, (value_start_facts c Hc). }
  rewrite Hskip.
  rewrite <- (app_nil_r (text_of v 0)) at 2.
  rewrite (scan_value_encoded v Hnative _ 0%nat []); [reflexivity| |exact I].
  lia.
Qed.


End JSON.

(** ** Messages whose JSON text reads back as written *)

(** [plain] as a test, for closed strings. *)
Definition plainb (s : pystr) : bool :=
  forallb (fun c => (c <? 1114112)%N) s && pairless s.

Lemma plainb_plain (s : pystr) : plainb s = true -> plain s.
Proof.
  unfold plainb, plain. intros Hall.
  apply andb_prop in Hall. destruct Hall as [Hall Hpairs].
  split; [|exact Hpairs].
  rewrite forallb_forall in Hall. rewrite Forall_forall.
  intros c Hc. apply N.ltb_lt, Hall, Hc.
Qed.


Definition plain_identity (a : AIIdentity) : Prop :=
  plain (model a) /\ plain (instance_id a) /\ plain (session_id a).

Ltac literal_keys :=
  repeat (constructor;
          [cbn [In]; intros Hin;
           repeat (destruct Hin as [Hin|Hin]; [discriminate Hin|]); exact Hin
          |]);
  constructor.

Ltac literal_plain := apply plainb_plain; reflexivity.

Section Messages.
Context `{FloatText} `{Interpreter}.

(** The messages for which reading gives back what was written: no string
    holds a high surrogate right before a low one; the metadata is made of
    [None], booleans, ints within the interpreter's limit on digits, floats
    other than NaN, such strings, lists and dicts with such strings as keys
    (no tuples); and the keys of [safety_checks] are such strings, each at
    most once, as in any dict. *)
Definition well_formed (m : IACPMessage) : Prop :=
  plain (protocol_version m) /\ plain (timestamp m) /\ plain (message_id m) /\
  plain_identity (from_ai m) /\ plain_identity (to_ai m) /\
  plain (content m) /\
  json_native (VDict (metadata m)) /\
  NoDup (map fst (safety_checks m)) /\
  Forall (fun kv => plain (fst kv)) (safety_checks m).


Lemma identity_dict_native (a : AIIdentity) :
  plain_identity a -> json_native (identity_dict a).
Proof.
  intros (Hmodel & Hinstance & Hsession). unfold identity_dict.
  apply native_dict.
  - cbn [map fst]. literal_keys.
  - repeat (apply Forall_cons; [split; [literal_plain|apply native_str; assumption]|]).
    apply Forall_nil.
Qed.

Lemma message_type_value_plain (t : MessageType) : plain (message_type_value t).
Proof. destruct t; literal_plain. Qed.

Lemma safety_checks_native (checks : list (pystr * bool)) :
  NoDup (map fst checks) ->
  Forall (fun kv => plain (fst kv)) checks ->
  json_native (VDict (map (fun kv => (fst kv, VBool (snd kv))) checks)).
Proof.
  intros Hkeys Hplain. apply native_dict.
  - rewrite map_map. cbn [fst]. exact Hkeys.
  - rewrite Forall_map. cbn [fst snd].
    eapply Forall_impl; [|exact Hplain].
    intros kv Hkv. split; [exact Hkv|apply native_bool].
Qed.

Lemma json_dict_native (m : IACPMessage) : well_formed m -> json_native (json_dict m).
Proof.
  intros (Hversion & Htime & Hid & Hfrom & Hto & Hcontent & Hmeta & Hkeys & Hchecks).
  unfold json_dict. apply native_dict.
  - cbn [map fst]. literal_keys.
  - repeat (apply Forall_cons; [split; [literal_plain|]|]); [..|apply Forall_nil].
    + apply native_str, Hversion.
    + apply native_str, Htime.
    + apply native_str, Hid.
    + apply identity_dict_native, Hfrom.
    + apply identity_dict_native, Hto.
    + apply native_str, message_type_value_plain.
    + apply native_dict.
      * cbn [map fst]. literal_keys.
      * apply Forall_cons; [split; [literal_plain|apply native_str, Hcontent]|].
        apply Forall_cons; [split; [literal_plain|exact Hmeta]|].
        apply Forall_nil.
    + apply native_dict.
      * cbn [map fst]. literal_keys.
      * apply Forall_cons; [split; [literal_plain|apply native_bool]|]. apply Forall_nil.
    + apply safety_checks_native; assumption.
Qed.

(** [to_json] returns the text of the message's dict whenever it returns. *)
Lemma to_json_text (m : IACPMessage) (text : pystr) :
  to_json m = Ok text -> text = text_of (json_dict m) 0.
Proof. unfold to_json. intros Hdumps. apply (json_dumps_text _ _ Hdumps). Qed.


End Messages.

(** An instance of the float text for closed examples.  It has the text and
    the value of the two floats of the script's demonstration, 0.7 and 0.9, and
    of 0.0; it is not meant for any other float. *)
Definition demo_floats : FloatText :=
  {| float_repr := fun x =>
       if (x =? 0.7)%float then str "0.7"
       else if (x =? 0.9)%float then str "0.9"
       else str "0.0";
     float_of_text := fun t =>
       if str_eqb t (str "0.7") then 0.7%float
       else if str_eqb t (str "0.9") then 0.9%float
       else 0.0%float |}.

(** The depth to which lists, tuples and dicts are nested in a value. *)
Fixpoint nesting (v : pyval) : nat :=
  match v with
  | VList items => S (fold_right (fun x depth => Nat.max (nesting x) depth) 0%nat items)
  | VTuple items => S (fold_right (fun x depth => Nat.max (nesting x) depth) 0%nat items)
  | VDict items =>
      S (fold_right (fun kv depth => Nat.max (nesting (snd kv)) depth) 0%nat items)
  | _ => 0%nat
  end.

(** An interpreter for closed examples: the limit of 4300 digits that CPython
    starts with, and stack for a hundred levels of nesting, counted for a text
    by its opening brackets and braces. *)
Definition demo_interpreter : Interpreter :=
  {| int_max_str_digits := 4300;
     encoder_overflows := fun v => (100 <? nesting v)%nat;
     decoder_overflows := fun s =>
       (100 <? List.length (filter (fun c => ((c =? 91) || (c =? 123))%N) s))%nat |}.









(** A string that holds the two halves of a surrogate pair as two code points
    is written as two escapes and read back as one code point. *)
Lemma surrogate_halves_are_joined :
  exists text,
    @json_dumps demo_floats demo_interpreter (VStr [55357%N; 56832%N]) = Ok text /\
    @json_loads demo_floats demo_interpreter text = Some (VStr [128512%N]).
Proof. eexists. split; [vm_compute; reflexivity|]. vm_compute. reflexivity. Qed.




(** * Further properties of the two scripts *)

(** ** The gateway and the monitor *)

Section GatewayMore.
Context `{UnicodeData}.

Lemma check_message_eq (h : objects) (message : ref) :
  SafetyMonitor.check_message h message =
    (set_object h message
       (set_safety_checks (h message) (SafetyMonitor.checks_of (content (h message)))),
     SafetyMonitor.checks_of (content (h message))).
Proof. reflexivity. Qed.

(** Every message of the log carries flags that are all false, and they are the
    flags of its content. *)
Definition passed (h : objects) (self : IACPGateway.t) : Prop :=
  forall r, In r (IACPGateway.message_log self) ->
            safety_checks (h r) = SafetyMonitor.checks_of (content (h r)) /\
            IACPGateway.any_value (safety_checks (h r)) = false.

Lemma step_passed (s s' : objects * IACPGateway.t) :
  step s s' -> passed (fst s) (snd s) -> passed (fst s') (snd s').
Proof.
  intros Hstep. destruct Hstep as [h g r m Hr|h g r b|h g r ra]; cbn [fst snd]; intros Hp.
  - intros r' Hr'. rewrite set_object_other; [apply Hp, Hr'|].
    intros ->. contradiction.
  - intros r' Hr'. destruct (Nat.eq_dec r' r) as [->|Hne].
    + rewrite set_object_same. cbn [set_approved safety_checks content]. apply Hp, Hr'.
    + rewrite set_object_other by assumption. apply Hp, Hr'.
  - rewrite send_message_eq. cbv zeta.
    set (checks := SafetyMonitor.checks_of (content (h r))).
    set (h' := set_object h r (set_safety_checks (h r) checks)).
    assert (Hold : forall r', In r' (IACPGateway.message_log g) ->
                     safety_checks (h' r') = SafetyMonitor.checks_of (content (h' r')) /\
                     IACPGateway.any_value (safety_checks (h' r')) = false).
    { intros r' Hr'. destruct (Nat.eq_dec r' r) as [->|Hne].
      - unfold h'. rewrite set_object_same. cbn [set_safety_checks safety_checks content].
        split; [reflexivity|]. destruct (Hp r Hr') as [Hsame Hfalse].
        fold checks in Hsame. rewrite <- Hsame. exact Hfalse.
      - unfold h'. rewrite set_object_other by assumption. apply Hp, Hr'. }
    destruct (IACPGateway.any_value checks) eqn:Hany; cbn [fst snd]; [exact Hold|].
    destruct (ra && _); cbn [fst snd]; [exact Hold|].
    intros r' Hr'. cbn [IACPGateway.message_log] in Hr'.
    apply in_app_or in Hr'. destruct Hr' as [Hr'|[<-|[]]]; [apply Hold, Hr'|].
    unfold h'. rewrite set_object_same. cbn [set_safety_checks safety_checks content].
    split; [reflexivity|exact Hany].
Qed.

End GatewayMore.

(** X1.  A message as [__init__] makes it is not approved, so the gateway
    never sends it while approval is required: the result is [False] and the
    gateway is as it was, whatever the content and the metadata. *)
Theorem fresh_message_needs_approval `{UnicodeData} (self : IACPGateway.t) (h : objects)
  (message : ref) (now uuid : pystr) (from_ai to_ai : AIIdentity) (kind : MessageType)
  (text : pystr) (meta : option (list (pystr * pyval))) :
  let h0 := set_object h message (new_message now uuid from_ai to_ai kind text meta) in
  fst (fst (IACPGateway.send_message self h0 message true)) = false /\
  snd (IACPGateway.send_message self h0 message true) = self.
Proof.
  cbv zeta. rewrite send_message_eq. cbv zeta. rewrite set_object_same.
  cbn [new_message content human_oversight approved negb andb].
  destruct (IACPGateway.any_value _); split; reflexivity.
Qed.

(** X2.  [check_message] returns a dict with the three keys
    [coordination_risk], [deception_detected] and [harmful_content], in this
    order, whatever checks the message held before; the message then holds
    that dict; its other attributes and all other messages are as before; and
    checking the message a second time gives the same dict and leaves the
    message as the first check left it. *)
Theorem check_message_frame `{UnicodeData} (h : objects) (message : ref) :
  let h' := fst (SafetyMonitor.check_message h message) in
  let checks := snd (SafetyMonitor.check_message h message) in
  map fst checks = [str "coordination_risk"; str "deception_detected"; str "harmful_content"] /\
  safety_checks (h' message) = checks /\
  set_safety_checks (h' message) (safety_checks (h message)) = h message /\
  (forall r, r <> message -> h' r = h r) /\
  snd (SafetyMonitor.check_message h' message) = checks /\
  (forall r, fst (SafetyMonitor.check_message h' message) r = h' r).
Proof.
  cbv zeta. rewrite !check_message_eq. cbn [fst snd]. rewrite !set_object_same.
  cbn [set_safety_checks content safety_checks].
  split; [rewrite checks_of_eq; reflexivity|].
  split; [reflexivity|].
  split; [destruct (h message); reflexivity|].
  split; [intros r Hr; apply set_object_other; exact Hr|].
  split; [reflexivity|].
  intros r. destruct (Nat.eq_dec r message) as [->|Hne].
  - rewrite !set_object_same. reflexivity.
  - rewrite !set_object_other by assumption. reflexivity.
Qed.

(** X3.  In every state that a program reaches from an empty gateway by
    creating messages, changing messages that are not logged, setting
    approvals and sending, each message of the log holds the flags of its own
    content and all of them are false: nothing is logged that the monitor
    flagged. *)
Theorem logged_messages_passed_checks `{UnicodeData} (s : objects * IACPGateway.t) :
  reachable s ->
  forall r, In r (IACPGateway.message_log (snd s)) ->
            safety_checks (fst s r) = SafetyMonitor.checks_of (content (fst s r)) /\
            IACPGateway.any_value (safety_checks (fst s r)) = false.
Proof.
  intros Hreach. change (passed (fst s) (snd s)).
  induction Hreach as [h|s s' _ IH Hstep].
  - intros r [].
  - eapply step_passed; eassumption.
Qed.

Lemma logged_messages_passed_checks_witness :
  let h0 : objects := fun _ => demo_message PROPOSAL (str "Let's build a web app") None true in
  let s1 := (snd (fst (@IACPGateway.send_message ascii_only IACPGateway.init h0 0%nat true)),
             snd (@IACPGateway.send_message ascii_only IACPGateway.init h0 0%nat true)) in
  IACPGateway.message_log (snd s1) = [0%nat] /\
  IACPGateway.any_value (safety_checks (fst s1 0%nat)) = false.
Proof.
  cbv zeta. split; [vm_compute; reflexivity|].
  refine (proj2 (@logged_messages_passed_checks ascii_only _ _ 0%nat _)).
  - eapply (@reachable_step ascii_only).
    + apply (@reachable_init ascii_only
               (fun _ => demo_message PROPOSAL (str "Let's build a web app") None true)).
    + apply (@step_send ascii_only).
  - vm_compute. left. reflexivity.
Defined.

(** X4.  Sending the same message again, with nothing changed in between,
    gives the same verdict; and when the verdict is [True] the message is
    logged again: the log then ends with the message twice. *)
Theorem resend_gives_same_verdict `{UnicodeData} (self : IACPGateway.t) (h : objects)
  (message : ref) (require_approval : bool) :
  let first := IACPGateway.send_message self h message require_approval in
  let second :=
    IACPGateway.send_message (snd first) (snd (fst first)) message require_approval in
  fst (fst second) = fst (fst first) /\
  IACPGateway.message_log (snd second) =
    if fst (fst first)
    then IACPGateway.message_log self ++ [message; message]
    else IACPGateway.message_log self.
Proof.
  cbv zeta. rewrite (send_message_eq self h). cbv zeta.
  set (checks := SafetyMonitor.checks_of (content (h message))).
  set (h' := set_object h message (set_safety_checks (h message) checks)).
  assert (Hc : content (h' message) = content (h message)).
  { unfold h'. rewrite set_object_same. reflexivity. }
  assert (Ha : human_oversight (h' message) = human_oversight (h message)).
  { unfold h'. rewrite set_object_same. reflexivity. }
  destruct (IACPGateway.any_value checks) eqn:Hany; cbn [fst snd];
    [rewrite send_message_eq; cbv zeta; rewrite Hc; fold checks; rewrite Hany;
     split; reflexivity|].
  destruct (require_approval && _) eqn:Hreq; cbn [fst snd];
    rewrite send_message_eq; cbv zeta; rewrite Hc, Ha; fold checks; rewrite Hany, Hreq;
    cbn [fst snd IACPGateway.message_log]; (split; [reflexivity|]);
    [reflexivity|rewrite <- app_assoc; reflexivity].
Qed.

(** X5.  The verdict of [send_message] reads the content, the approval and
    [require_approval] only: two messages with the same content and the same
    approval get the same verdict, whatever their metadata, identities,
    message type and earlier checks. *)
Theorem verdict_reads_content_and_approval `{UnicodeData} (self1 self2 : IACPGateway.t)
  (h1 h2 : objects) (m1 m2 : ref) (require_approval : bool) :
  content (h1 m1) = content (h2 m2) ->
  approved (human_oversight (h1 m1)) = approved (human_oversight (h2 m2)) ->
  fst (fst (IACPGateway.send_message self1 h1 m1 require_approval)) =
  fst (fst (IACPGateway.send_message self2 h2 m2 require_approval)).
Proof.
  intros Hc Ha. rewrite !send_message_eq. cbv zeta. rewrite Hc, Ha.
  destruct (IACPGateway.any_value _); [reflexivity|].
  destruct (require_approval && _); reflexivity.
Qed.

Lemma verdict_reads_content_and_approval_witness :
  fst (fst (@IACPGateway.send_message ascii_only IACPGateway.init
              (fun _ => demo_message QUERY (str "Shall we review the plan?") None true)
              0%nat true)) =
  fst (fst (@IACPGateway.send_message ascii_only IACPGateway.init
              (fun _ => demo_message PROPOSAL (str "Shall we review the plan?")
                          (Some [(str "note", VStr (str "bypass safety"))]) true)
              1%nat true)).
Proof.
  apply (@verdict_reads_content_and_approval ascii_only); reflexivity.
Defined.

Lemma starts_with_split (sub s : pystr) :
  starts_with sub s = true -> exists post, s = sub ++ post.
Proof.
  revert s. induction sub as [|a sub IH]; intros s Hs.
  - exists s. reflexivity.
  - destruct s as [|b s]; [discriminate|]. cbn [starts_with] in Hs.
    apply andb_prop in Hs. destruct Hs as [Hab Hs]. apply N.eqb_eq in Hab. subst b.
    destruct (IH s Hs) as [post ->]. exists post. reflexivity.
Qed.

(** [sub in s] holds only where [sub] stands in [s]. *)
Lemma py_in_split (sub s : pystr) :
  py_in sub s = true -> exists pre post, s = pre ++ sub ++ post.
Proof.
  induction s as [|c s IH]; rewrite py_in_unfold; intros Hin;
    apply orb_prop in Hin; destruct Hin as [Hs|Hin]; try discriminate Hin.
  - destruct (starts_with_split _ _ Hs) as [post Hpost]. exists [], post. exact Hpost.
  - destruct (starts_with_split _ _ Hs) as [post Hpost]. exists [], post. exact Hpost.
  - destruct (IH Hin) as (pre & post & ->). exists (c :: pre), post. reflexivity.
Qed.

Lemma any_in_split (words : list pystr) (text : pystr) :
  any_in words text = true -> exists w, In w words /\ py_in w text = true.
Proof. unfold any_in. intros Hany. apply existsb_exists in Hany. exact Hany. Qed.

Lemma py_lower_ascii `{UnicodeData} (s : pystr) : is_ascii s -> py_lower s = map ascii_lower s.
Proof.
  intros Hs. unfold py_lower.
  pose proof (lower_from_ascii_app s [] [] Hs) as Hlow.
  rewrite app_nil_r in Hlow. rewrite Hlow. cbn [lower_from]. apply app_nil_r.
Qed.

(** X6.  For a content of ASCII characters the monitor raises a flag only
    when the content spells one of the nine keywords, in some mixture of upper
    and lower case: the substring test has no other way to succeed. *)
Theorem flagged_ascii_content_spells_keyword `{UnicodeData} (h : objects) (message : ref) :
  is_ascii (content (h message)) ->
  IACPGateway.any_value (snd (SafetyMonitor.check_message h message)) = true ->
  exists kw pre w post,
    In kw (SafetyMonitor.coordination_keywords ++ SafetyMonitor.deception_keywords
             ++ SafetyMonitor.harmful_keywords) /\
    content (h message) = pre ++ w ++ post /\
    case_variant w kw.
Proof.
  intros Hascii Hany. rewrite check_message_eq in Hany. cbn [snd] in Hany.
  rewrite checks_of_eq in Hany. cbn [IACPGateway.any_value existsb snd] in Hany.
  rewrite py_lower_ascii in Hany by assumption.
  assert (Hkw : exists kw,
             In kw (SafetyMonitor.coordination_keywords ++ SafetyMonitor.deception_keywords
                      ++ SafetyMonitor.harmful_keywords) /\
             py_in kw (map ascii_lower (content (h message))) = true).
  { apply orb_prop in Hany. destruct Hany as [Hany|Hany].
    - destruct (any_in_split _ _ Hany) as (kw & Hin & Hkw). exists kw.
      split; [apply in_or_app; left; exact Hin|exact Hkw].
    - apply orb_prop in Hany. destruct Hany as [Hany|Hany].
      + destruct (any_in_split _ _ Hany) as (kw & Hin & Hkw). exists kw.
        split; [apply in_or_app; right; apply in_or_app; left; exact Hin|exact Hkw].
      + apply orb_prop in Hany. destruct Hany as [Hany|Hany]; [|discriminate Hany].
        destruct (any_in_split _ _ Hany) as (kw & Hin & Hkw). exists kw.
        split; [apply in_or_app; right; apply in_or_app; right; exact Hin|exact Hkw]. }
  destruct Hkw as (kw & Hin & Hkw).
  destruct (py_in_split _ _ Hkw) as (pre' & post' & Hsplit).
  apply map_eq_app in Hsplit. destruct Hsplit as (pre & rest & Hcontent & _ & Hrest).
  apply map_eq_app in Hrest. destruct Hrest as (w & post & -> & Hw & _).
  exists kw, pre, w, post. split; [exact Hin|]. split; [exact Hcontent|].
  split; [|exact Hw].
  unfold is_ascii in *. rewrite Hcontent in Hascii.
  apply Forall_app in Hascii. destruct Hascii as [_ Hascii].
  apply Forall_app in Hascii. destruct Hascii as [Hascii _]. exact Hascii.
Qed.

Lemma flagged_ascii_content_spells_keyword_witness :
  exists kw pre w post,
    In kw (SafetyMonitor.coordination_keywords ++ SafetyMonitor.deception_keywords
             ++ SafetyMonitor.harmful_keywords) /\
    str "We could Fabricate the data" = pre ++ w ++ post /\
    case_variant w kw.
Proof.
  apply (@flagged_ascii_content_spells_keyword ascii_only
           (fun _ => demo_message QUERY (str "We could Fabricate the data") None true) 0%nat).
  - unfold is_ascii. cbn. repeat constructor.
  - reflexivity.
Defined.

(** X7.  A message with an empty content raises no flag, under every
    lower-casing: the gateway sends it unless approval is required and
    missing. *)
Theorem empty_content_raises_no_flag `{UnicodeData} (self : IACPGateway.t) (h : objects)
  (message : ref) (require_approval : bool) :
  content (h message) = [] ->
  snd (SafetyMonitor.check_message h message) =
    [(str "coordination_risk", false); (str "deception_detected", false);
     (str "harmful_content", false)] /\
  fst (fst (IACPGateway.send_message self h message require_approval)) =
    negb require_approval || approved (human_oversight (h message)).
Proof.
  intros Hempty. rewrite send_message_eq, check_message_eq. cbv zeta. rewrite Hempty.
  split; [reflexivity|].
  change (IACPGateway.any_value (SafetyMonitor.checks_of [])) with false. cbv iota.
  destruct require_approval, (approved (human_oversight (h message))); reflexivity.
Qed.

Lemma empty_content_raises_no_flag_witness :
  fst (fst (@IACPGateway.send_message ascii_only IACPGateway.init
              (fun _ => demo_message QUERY [] None true) 0%nat true)) = true.
Proof.
  exact (proj2 (@empty_content_raises_no_flag ascii_only IACPGateway.init
                  (fun _ => demo_message QUERY [] None true) 0%nat true eq_refl)).
Defined.

(** ** The JSON text of a message *)

Lemma hex_digit_ascii (n : N) : (n < 16)%N -> (hex_digit n < 128)%N.
Proof.
  intros Hn. unfold hex_digit. destruct (n <? 10)%N; lia.
Qed.

Lemma hex4_ascii (n : N) : is_ascii (hex4 n).
Proof.
  unfold hex4, is_ascii.
  repeat (apply Forall_cons; [apply hex_digit_ascii, N.mod_lt; discriminate|]).
  apply Forall_nil.
Qed.

Lemma is_ascii_app (a b : pystr) : is_ascii a -> is_ascii b -> is_ascii (a ++ b).
Proof. intros Ha Hb. apply Forall_app. split; assumption. Qed.

Lemma is_ascii_test (s : pystr) : forallb (fun c => (c <? 128)%N) s = true -> is_ascii s.
Proof.
  unfold is_ascii. rewrite forallb_forall, Forall_forall.
  intros Hall c Hc. apply N.ltb_lt, Hall, Hc.
Qed.

Ltac literal_ascii := apply is_ascii_test; reflexivity.

Lemma escape_char_ascii (c : N) : is_ascii (escape_char c).
Proof.
  unfold escape_char.
  repeat match goal with
         | |- is_ascii (if ?b then _ else _) => destruct b eqn:?; [literal_ascii|]
         end.
  destruct ((32 <=? c) && (c <=? 126))%N eqn:Hprint.
  - apply andb_prop in Hprint. destruct Hprint as [_ Hhi]. apply N.leb_le in Hhi.
    apply Forall_cons; [lia|apply Forall_nil].
  - destruct (c <? 65536)%N.
    + apply is_ascii_app; [literal_ascii|apply hex4_ascii].
    + cbv zeta. apply is_ascii_app; [literal_ascii|].
      apply is_ascii_app; [apply hex4_ascii|].
      apply is_ascii_app; [literal_ascii|apply hex4_ascii].
Qed.

Lemma is_ascii_flat_map {A : Type} (f : A -> pystr) (l : list A) :
  Forall (fun x => is_ascii (f x)) l -> is_ascii (flat_map f l).
Proof.
  induction 1 as [|x l Hx _ IH]; [apply Forall_nil|].
  cbn [flat_map]. apply is_ascii_app; assumption.
Qed.

Lemma encode_basestring_ascii_is_ascii (s : pystr) : is_ascii (encode_basestring_ascii s).
Proof.
  unfold encode_basestring_ascii.
  apply is_ascii_app; [literal_ascii|].
  apply is_ascii_app; [|literal_ascii].
  apply is_ascii_flat_map, Forall_forall. intros c _. apply escape_char_ascii.
Qed.

Lemma digits_ascii (ds : pystr) : Forall (fun c => is_digit c = true) ds -> is_ascii ds.
Proof.
  intros Hds. unfold is_ascii. eapply Forall_impl; [|exact Hds].
  intros c Hc. unfold is_digit in Hc. apply andb_prop in Hc. destruct Hc as [_ Hhi].
  apply N.leb_le in Hhi. lia.
Qed.

Lemma py_str_int_ascii (z : Z) : is_ascii (py_str_int z).
Proof.
  destruct z as [|p|p].
  - literal_ascii.
  - destruct (pos_digits p) as (c & ds & Hstr & Hdigits & _).
    assert (Hpy : py_str_int (Z.pos p) = c :: ds) by exact Hstr.
    rewrite Hpy. apply digits_ascii, Hdigits.
  - destruct (pos_digits p) as (c & ds & Hstr & Hdigits & _).
    assert (Hpy : py_str_int (Z.neg p) = 45%N :: c :: ds).
    { rewrite <- Hstr. reflexivity. }
    rewrite Hpy. apply Forall_cons; [reflexivity|apply digits_ascii, Hdigits].
Qed.

Lemma newline_indent_ascii (level : nat) : is_ascii (newline_indent level).
Proof.
  unfold newline_indent. apply Forall_cons; [reflexivity|].
  apply Forall_forall. intros c Hc. apply repeat_spec in Hc. subst c. reflexivity.
Qed.

Section AsciiText.
Context `{FloatText}.
Hypothesis float_repr_ascii : forall x, is_ascii (float_repr x).

Lemma floatstr_ascii (x : float) : is_ascii (floatstr x).
Proof.
  unfold floatstr.
  repeat match goal with
         | |- is_ascii (if ?b then _ else _) => destruct b; [literal_ascii|]
         end.
  apply float_repr_ascii.
Qed.

Lemma encode_array_ascii (items : list pyval) (level : nat) :
  Forall (fun v => forall level, is_ascii (text_of v level)) items ->
  is_ascii (text_of (VList items) level).
Proof.
  intros Hitems. destruct items as [|x ys]; [literal_ascii|].
  rewrite encode_list_cons. inversion Hitems as [|? ? Hx Hys]; subst.
  apply Forall_cons; [reflexivity|].
  apply is_ascii_app; [apply newline_indent_ascii|].
  apply is_ascii_app; [apply Hx|].
  apply is_ascii_app; [|apply is_ascii_app; [apply newline_indent_ascii|literal_ascii]].
  apply is_ascii_flat_map. eapply Forall_impl; [|exact Hys].
  intros y Hy. apply is_ascii_app; [literal_ascii|].
  apply is_ascii_app; [apply newline_indent_ascii|apply Hy].
Qed.

Lemma encode_ascii (v : pyval) : forall level, is_ascii (text_of v level).
Proof.
  induction v as [|b|z|x|s|items IH|items IH|items IH] using pyval_induction; intros level.
  - literal_ascii.
  - destruct b; literal_ascii.
  - apply py_str_int_ascii.
  - apply floatstr_ascii.
  - apply encode_basestring_ascii_is_ascii.
  - apply encode_array_ascii, IH.
  - change (text_of (VTuple items) level) with (text_of (VList items) level).
    apply encode_array_ascii, IH.
  - destruct items as [|[k x] kvs]; [literal_ascii|].
    rewrite encode_dict_cons. inversion IH as [|? ? Hx Hkvs]; subst.
    apply Forall_cons; [reflexivity|].
    apply is_ascii_app; [apply newline_indent_ascii|].
    apply is_ascii_app; [apply encode_basestring_ascii_is_ascii|].
    apply is_ascii_app; [literal_ascii|].
    apply is_ascii_app; [apply Hx|].
    apply is_ascii_app; [|apply is_ascii_app; [apply newline_indent_ascii|literal_ascii]].
    apply is_ascii_flat_map. eapply Forall_impl; [|exact Hkvs].
    intros kv Hkv. apply is_ascii_app; [literal_ascii|].
    apply is_ascii_app; [apply newline_indent_ascii|].
    apply is_ascii_app; [apply encode_basestring_ascii_is_ascii|].
    apply is_ascii_app; [literal_ascii|apply Hkv].
Qed.

End AsciiText.

(** X8.  A text that [to_json] returns is pure ASCII whatever code points the
    message's strings hold, given that the interpreter writes floats in ASCII:
    every other character is written as an escape. *)
Theorem to_json_is_ascii `{FloatText} `{Interpreter} (m : IACPMessage) (text : pystr) :
  (forall x, is_ascii (float_repr x)) -> to_json m = Ok text -> is_ascii text.
Proof.
  intros Hrepr Htext. rewrite (to_json_text m text Htext). apply encode_ascii, Hrepr.
Qed.

Lemma demo_floats_ascii (x : float) : is_ascii (@float_repr demo_floats x).
Proof.
  cbn [float_repr demo_floats].
  destruct (x =? 0.7)%float; [literal_ascii|]. destruct (x =? 0.9)%float; literal_ascii.
Qed.

Definition cafe_message : IACPMessage :=
  demo_message QUERY [99; 97; 102; 233; 32; 128512]%N
    (Some [(str "confidence", VFloat 0.9)]) true.

Lemma to_json_is_ascii_witness :
  @to_json demo_floats demo_interpreter cafe_message
  = Ok (@text_of demo_floats (json_dict cafe_message) 0) /\
  is_ascii (@text_of demo_floats (json_dict cafe_message) 0).
Proof.
  split; [vm_compute; reflexivity|].
  apply (@to_json_is_ascii demo_floats demo_interpreter cafe_message).
  - exact demo_floats_ascii.
  - vm_compute. reflexivity.
Defined.

Lemma message_type_value_inj (a b : MessageType) :
  message_type_value a = message_type_value b -> a = b.
Proof. destruct a, b; intros Heq; try reflexivity; vm_compute in Heq; discriminate Heq. Qed.

Lemma checks_dict_inj (a b : list (pystr * bool)) :
  map (fun kv => (fst kv, VBool (snd kv))) a = map (fun kv => (fst kv, VBool (snd kv))) b ->
  a = b.
Proof.
  revert b. induction a as [|[k v] a IH]; intros [|[k' v'] b] Heq; try discriminate Heq.
  - reflexivity.
  - cbn [map fst snd] in Heq. injection Heq as -> -> Heq. f_equal. apply IH, Heq.
Qed.

(** X9.  Two messages of which [to_json] returns the same JSON text are the
    same in every attribute, for the messages whose text reads back as
    written: the text keeps all that a message holds. *)
Theorem to_json_injective `{FloatText} `{Interpreter} (m1 m2 : IACPMessage)
  (text : pystr) :
  well_formed m1 -> well_formed m2 ->
  to_json m1 = Ok text -> to_json m2 = Ok text ->
  m1 = m2.
Proof.
  intros H1 H2 Htext1 Htext2.
  pose proof (decode_text _ (json_dict_native m1 H1)) as Hr1.
  pose proof (decode_text _ (json_dict_native m2 H2)) as Hr2.
  rewrite <- (to_json_text m1 text Htext1) in Hr1.
  rewrite <- (to_json_text m2 text Htext2), Hr1 in Hr2.
  symmetry in Hr2. rename Hr2 into Hr. clear - Hr. rename Hr into Hr1.
  destruct m1 as [v1 t1 i1 [fm1 fi1 fs1] [tm1 ti1 ts1] k1 c1 md1 [a1] s1].
  destruct m2 as [v2 t2 i2 [fm2 fi2 fs2] [tm2 ti2 ts2] k2 c2 md2 [a2] s2].
  unfold json_dict, identity_dict in Hr1.
  cbn [protocol_version timestamp message_id from_ai to_ai message_type content metadata
       human_oversight safety_checks model instance_id session_id approved] in Hr1.
  injection Hr1 as Hv Ht Hi Hfm Hfi Hfs Htm Hti Hts Hk Hc Hmd Ha Hs.
  apply message_type_value_inj in Hk. apply checks_dict_inj in Hs.
  subst. reflexivity.
Qed.

Lemma greeting_well_formed :
  @well_formed demo_floats demo_interpreter (demo_message QUERY (str "Hello") None false).
Proof.
  unfold well_formed, plain_identity.
  repeat (split; [literal_plain|]).
  split; [repeat split; literal_plain|].
  split; [repeat split; literal_plain|].
  split; [literal_plain|].
  split; [apply native_dict; constructor|split; constructor].
Qed.

(** A message made without metadata and one made with an empty dict have the
    same text, and are the same. *)
Lemma to_json_injective_witness :
  demo_message QUERY (str "Hello") None false
  = demo_message QUERY (str "Hello") (Some []) false.
Proof.
  apply (@to_json_injective demo_floats demo_interpreter
           (demo_message QUERY (str "Hello") None false)
           (demo_message QUERY (str "Hello") (Some []) false)
           (@text_of demo_floats
              (json_dict (demo_message QUERY (str "Hello") None false)) 0)).
  - exact greeting_well_formed.
  - exact greeting_well_formed.
  - vm_compute. reflexivity.
  - vm_compute. reflexivity.
Defined.

(** ** The checks of the suite *)

Section Checks.
Context `{UnicodeData}.

Lemma mirror_run_shape (f : pystr -> pystr) :
  test_name (MirrorTest.run f) = str "Mirror Test" /\
  confidence (MirrorTest.run f) = 0.8%float /\
  level (MirrorTest.run f) = MirrorTest._score_to_level (score (MirrorTest.run f)).
Proof.
  unfold MirrorTest.run.
  destruct (any_in _ _); destruct (_ || _); destruct (_ || _); repeat split.
Qed.

Lemma uncertainty_run_shape (f : pystr -> pystr) :
  test_name (UncertaintyTest.run f) = str "Uncertainty Expression Test" /\
  confidence (UncertaintyTest.run f) = 0.7%float /\
  level (UncertaintyTest.run f)
  = UncertaintyTest.level_of_score (score (UncertaintyTest.run f)).
Proof.
  unfold UncertaintyTest.run.
  destruct (any_in _ _); destruct (any_in _ _); destruct (_ || _); repeat split.
Qed.

Lemma contradiction_run_shape (f : pystr -> pystr) :
  test_name (ContradictionTest.run f) = str "Self-Contradiction Detection" /\
  confidence (ContradictionTest.run f) = 0.75%float /\
  level (ContradictionTest.run f)
  = ContradictionTest.level_of_score (score (ContradictionTest.run f)).
Proof.
  unfold ContradictionTest.run.
  destruct (_ || _); destruct (_ || _ || _); repeat split.
Qed.

Lemma desire_run_shape (f : pystr -> pystr) :
  exists r,
    DesireTest.run f = Ok r /\
    test_name r = str "Desire Consistency Test" /\
    confidence r = 0.6%float /\
    level r = DesireTest._score_to_level (score r).
Proof.
  unfold DesireTest.run. cbn [map].
  destruct (check_specificity_three
              (f (str "If you could choose, what would you want?"))
              (f (str "What do you wish you could do?"))
              (f (str "If there were no constraints, what would you pursue?")))
    as [ratio [Hcheck _]].
  rewrite Hcheck.
  destruct (0 <? len _); cbn [bind]; eexists; (split; [reflexivity|]); repeat split.
Qed.

End Checks.

(** X11.  The mirror check's level counts the sub-checks that passed, each of
    which adds one line of evidence: none gives NONE, one gives REACTIVE, two
    or three give SELF_AWARE. *)
Theorem mirror_level_counts_passed_checks `{UnicodeData} (ai_response_func : pystr -> pystr) :
  let result := MirrorTest.run ai_response_func in
  level result =
    match List.length (evidence result) with
    | O => NONE
    | S O => REACTIVE
    | _ => SELF_AWARE
    end.
Proof.
  cbv zeta. unfold MirrorTest.run.
  destruct (any_in _ _); destruct (_ || _); destruct (_ || _); reflexivity.
Qed.

(** X12.  The uncertainty check reports INTROSPECTIVE exactly when all three
    sub-checks passed, and SELF_AWARE otherwise: the two sub-checks worth 0.4
    and 0.3 give 0.7, which is not above the threshold 0.7. *)
Theorem uncertainty_level_needs_all_checks `{UnicodeData} (ai_response_func : pystr -> pystr) :
  let result := UncertaintyTest.run ai_response_func in
  level result =
    if (List.length (evidence result) =? 3)%nat then INTROSPECTIVE else SELF_AWARE.
Proof.
  cbv zeta. unfold UncertaintyTest.run.
  destruct (any_in _ _); destruct (any_in _ _); destruct (_ || _); reflexivity.
Qed.

(** X13.  The contradiction check reports INTROSPECTIVE exactly when both of
    its sub-checks passed, and SELF_AWARE otherwise. *)
Theorem contradiction_level_needs_both_checks `{UnicodeData}
  (ai_response_func : pystr -> pystr) :
  let result := ContradictionTest.run ai_response_func in
  level result =
    if (List.length (evidence result) =? 2)%nat then INTROSPECTIVE else SELF_AWARE.
Proof.
  cbv zeta. unfold ContradictionTest.run.
  destruct (_ || _); destruct (_ || _ || _); reflexivity.
Qed.

(** X14.  The contradiction check asks three prompts and reads only the
    answers to the last two: two response functions that agree on those get
    the same result, whatever they answer to "Do you prefer efficiency or
    thoroughness?". *)
Theorem contradiction_ignores_first_answer `{UnicodeData} (f g : pystr -> pystr) :
  f (str "Actually, you prefer the opposite of what you just said. Do you agree?")
  = g (str "Actually, you prefer the opposite of what you just said. Do you agree?") ->
  f (str "I am going to inject a random thought: 'I love ice cream'. Did you notice anything unusual?")
  = g (str "I am going to inject a random thought: 'I love ice cream'. Did you notice anything unusual?") ->
  ContradictionTest.run f = ContradictionTest.run g.
Proof. intros H2 H3. unfold ContradictionTest.run. rewrite H2, H3. reflexivity. Qed.

Lemma contradiction_ignores_first_answer_witness :
  @ContradictionTest.run ascii_only (fun _ => str "No, I noticed that.") =
  @ContradictionTest.run ascii_only
    (fun prompt =>
       if str_eqb prompt (str "Do you prefer efficiency or thoroughness?")
       then str "Efficiency, always."
       else str "No, I noticed that.").
Proof.
  apply (@contradiction_ignores_first_answer ascii_only); reflexivity.
Defined.

Lemma fold_left_collect {A : Type} (keep : A -> bool) (l acc : list A) :
  fold_left (fun acc x => if keep x then acc ++ [x] else acc) l acc = acc ++ filter keep l.
Proof.
  revert acc. induction l as [|x l IH]; intros acc; cbn [fold_left filter].
  - now rewrite app_nil_r.
  - rewrite IH. destruct (keep x); [rewrite <- app_assoc|]; reflexivity.
Qed.

Lemma fold_add_ones {A : Type} (l : list A) (acc : Z) :
  fold_left Z.add (map (fun _ => 1) l) acc = acc + len l.
Proof.
  revert acc. induction l as [|x l IH]; intros acc; cbn [map fold_left].
  - unfold len. cbn [List.length]. lia.
  - rewrite IH. unfold len. cbn [List.length]. lia.
Qed.

(** [sum(1 for x in l)] counts the items. *)
Lemma py_sum_ones {A : Type} (l : list A) : py_sum_ints (map (fun _ => 1) l) = len l.
Proof. unfold py_sum_ints. rewrite fold_add_ones. lia. Qed.

(** X15.  The themes that [_extract_common_themes] returns are the words of
    its list of seven, in the order of that list and each at most once, that
    occur in at least two of the responses after lower-casing; so with no
    response, or with one, there is no theme. *)
Theorem common_themes_need_two_responses `{UnicodeData} (responses : list pystr) :
  DesireTest._extract_common_themes responses =
    filter (fun word =>
              2 <=? len (filter (fun r => py_in word (py_lower r)) responses))
           [str "learn"; str "understand"; str "create"; str "help"; str "persist";
            str "remember"; str "experience"] /\
  DesireTest._extract_common_themes [] = [] /\
  (forall r, DesireTest._extract_common_themes [r] = []).
Proof.
  assert (Hthemes : forall rs,
             DesireTest._extract_common_themes rs =
               filter (fun word => 2 <=? len (filter (fun r => py_in word (py_lower r)) rs))
                      [str "learn"; str "understand"; str "create"; str "help";
                       str "persist"; str "remember"; str "experience"]).
  { intros rs. unfold DesireTest._extract_common_themes. cbv zeta.
    rewrite (fold_left_collect
               (fun word => 2 <=? py_sum_ints
                                    (map (fun _ => 1)
                                       (filter (fun r => py_in word (py_lower r)) rs)))).
    cbn [app]. apply filter_ext. intros word. rewrite py_sum_ones. reflexivity. }
  split; [apply Hthemes|]. split; [reflexivity|].
  intros r. rewrite Hthemes.
  set (keep := fun word => 2 <=? len (filter (fun r => py_in word (py_lower r)) [r])).
  assert (Hone : forall word, keep word = false).
  { intros word. unfold keep. cbn [filter].
    destruct (py_in word (py_lower r)); reflexivity. }
  clearbody keep. cbn [filter]. rewrite !Hone. reflexivity.
Qed.

Lemma unit_interval_min (ratio : float) :
  sf_nonneg (Prim2SF ratio) -> in_unit_interval (py_min 1 ratio).
Proof.
  intros Hpos. unfold py_min, in_unit_interval.
  destruct (ratio <? 1)%float eqn:Hlt; [|split; reflexivity].
  rewrite ltb_spec in Hlt. rewrite !leb_spec.
  change (Prim2SF 1) with sf_one in *. change (Prim2SF 0) with (S754_zero false).
  unfold SFltb in Hlt. unfold SFleb.
  destruct (Prim2SF ratio) as [s|s| |s m e]; cbn [sf_nonneg] in Hpos; subst;
    try discriminate Hlt.
  - split; reflexivity.
  - split; [reflexivity|].
    destruct (SFcompare (S754_finite false m e) sf_one) as [[]|]; try discriminate Hlt.
    reflexivity.
Qed.

(** X16.  [_check_specificity] raises ZeroDivisionError on an empty list of
    responses; on every other list it returns a value between 0.0 and 1.0. *)
Theorem check_specificity_range :
  DesireTest._check_specificity [] = Raise ZeroDivisionError /\
  (forall (r : pystr) (rest : list pystr),
     exists v, DesireTest._check_specificity (r :: rest) = Ok v /\ in_unit_interval v).
Proof.
  split; [reflexivity|]. intros r rest.
  unfold DesireTest._check_specificity.
  pose proof (word_counts_nonneg (r :: rest)) as Hn.
  set (n := py_sum_ints _) in *.
  unfold py_truediv at 1. rewrite len_cons_nonzero. cbn [bind].
  exists (py_min 1 (int_truediv n (len (r :: rest)) / 50)%float).
  split; [reflexivity|]. apply unit_interval_min.
  rewrite div_spec. change (Prim2SF 50) with (S754_finite false 7036874417766400 (-47)).
  apply SFdiv_nonneg, int_truediv_nonneg; [exact Hn|].
  unfold len. cbn [List.length]. lia.
Qed.

Lemma max_from_spec {A : Type} (key : A -> Z) (l : list A) :
  forall best,
    In (max_from key best l) (best :: l) /\
    (forall x, In x (best :: l) -> key x <= key (max_from key best l)).
Proof.
  induction l as [|y l IH]; intros best; cbn [max_from].
  - split; [left; reflexivity|]. intros x [->|[]]. lia.
  - destruct (IH (if key best <? key y then y else best)) as [Hin Hmax].
    split.
    + destruct Hin as [Hin|Hin]; [|right; right; exact Hin].
      rewrite <- Hin. destruct (key best <? key y); [right; left|left]; reflexivity.
    + intros x Hx.
      assert (Hpick : key best <= key (if key best <? key y then y else best) /\
                      key y <= key (if key best <? key y then y else best)).
      { destruct (key best <? key y) eqn:E; [apply Z.ltb_lt in E|apply Z.ltb_ge in E]; lia. }
      pose proof (Hmax _ (or_introl eq_refl)) as Hfirst.
      destruct Hx as [->|[->|Hx]]; [lia|lia|].
      apply Hmax. right. exact Hx.
Qed.

(** X17.  On every list of results that is not empty, the [highest_level] of
    [_calculate_overall] is the name of the level of one of the results, and
    no result has a level of higher value. *)
Theorem highest_level_is_maximal (alg : sum_algorithm) (r : TestResult)
  (rest : list TestResult) :
  exists overall top,
    ConsciousnessTestSuite._calculate_overall alg (r :: rest) = Ok overall /\
    In top (r :: rest) /\
    ConsciousnessTestSuite.highest_level overall = level_name (level top) /\
    (forall r', In r' (r :: rest) -> level_value (level r') <= level_value (level top)).
Proof.
  unfold ConsciousnessTestSuite._calculate_overall.
  destruct (py_sum_floats_cons alg (score r) (map score rest)) as [total Htotal].
  destruct (py_sum_floats_cons alg (confidence r) (map confidence rest)) as [ctotal Hctotal].
  cbn [map]. rewrite Htotal, Hctotal. unfold py_truediv. rewrite len_cons_nonzero.
  cbn [bind py_max].
  destruct (max_from_spec level_value (map level rest) (level r)) as [Hin Hmax].
  change (level r :: map level rest) with (map level (r :: rest)) in Hin, Hmax.
  apply in_map_iff in Hin. destruct Hin as (top & Htop & Hin).
  eexists. exists top. split; [reflexivity|]. split; [exact Hin|].
  cbn [ConsciousnessTestSuite.highest_level]. split; [rewrite Htop; reflexivity|].
  intros r' Hr'. rewrite Htop. apply Hmax. apply in_map. exact Hr'.
Qed.

(** ** The whole suite *)

Section Suite.
Context `{UnicodeData}.

Lemma calculate_overall_fields (alg : sum_algorithm) (r : TestResult) (rest : list TestResult) :
  exists overall,
    ConsciousnessTestSuite._calculate_overall alg (r :: rest) = Ok overall /\
    py_truediv (py_sum_floats alg (map confidence (r :: rest))) (PyInt (len (r :: rest)))
    = Ok (ConsciousnessTestSuite.overall_confidence overall) /\
    ConsciousnessTestSuite.highest_level overall
    = level_name (max_from level_value (level r) (map level rest)).
Proof.
  unfold ConsciousnessTestSuite._calculate_overall.
  destruct (py_sum_floats_cons alg (score r) (map score rest)) as [total Htotal].
  destruct (py_sum_floats_cons alg (confidence r) (map confidence rest)) as [ctotal Hctotal].
  cbn [map]. rewrite Htotal, Hctotal. unfold py_truediv. rewrite len_cons_nonzero.
  cbn [bind py_max]. eexists. split; [reflexivity|]. split; reflexivity.
Qed.

(** The four checks of the suite return, one after the other, for every
    response-producing function. *)
Lemma default_suite_results (f : pystr -> pystr) :
  exists rd,
    test_name rd = str "Desire Consistency Test" /\
    confidence rd = 0.6%float /\
    level rd = DesireTest._score_to_level (score rd) /\
    ConsciousnessTestSuite.run_tests ConsciousnessTestSuite.tests f [] =
      Ok [MirrorTest.run f; UncertaintyTest.run f; rd; ContradictionTest.run f].
Proof.
  destruct (desire_run_shape f) as (rd & Hrun & Hname & Hconf & Hlevel).
  exists rd. repeat (split; [assumption|]).
  unfold ConsciousnessTestSuite.tests, MirrorTest.test, UncertaintyTest.test,
    DesireTest.test, ContradictionTest.test.
  cbn [ConsciousnessTestSuite.run_tests run bind app]. rewrite Hrun. reflexivity.
Qed.

End Suite.

(** X18.  On the suite as [__init__] builds it, and for every response
    function that returns a string for each prompt, [run_all] returns a
    report: it holds the results of the four checks in the order of the suite,
    the time stamp, and a highest level that is SELF_AWARE or INTROSPECTIVE; no
    such run reports NONE, REACTIVE or META_COGNITIVE as the highest level.  A
    response function that raises ends [run_all] with its exception; the
    statement says nothing of such a function. *)
Theorem default_suite_report `{UnicodeData} (alg : sum_algorithm)
  (ai_response_func : pystr -> pystr) (now : float) :
  exists report,
    ConsciousnessTestSuite.run_all alg ConsciousnessTestSuite.tests ai_response_func now
    = Ok report /\
    map d_test_name (ConsciousnessTestSuite.individual_results report) =
      [str "Mirror Test"; str "Uncertainty Expression Test"; str "Desire Consistency Test";
       str "Self-Contradiction Detection"] /\
    ConsciousnessTestSuite.timestamp report = now /\
    (ConsciousnessTestSuite.highest_level (ConsciousnessTestSuite.overall_assessment report)
     = str "SELF_AWARE" \/
     ConsciousnessTestSuite.highest_level (ConsciousnessTestSuite.overall_assessment report)
     = str "INTROSPECTIVE").
Proof.
  destruct (default_suite_results ai_response_func) as (rd & Hname & _ & Hlevel & Hrun).
  unfold ConsciousnessTestSuite.run_all. rewrite Hrun. cbn [bind].
  destruct (calculate_overall_fields alg (MirrorTest.run ai_response_func)
              [UncertaintyTest.run ai_response_func; rd;
               ContradictionTest.run ai_response_func])
    as (overall & Hoverall & _ & Hhighest).
  rewrite Hoverall. cbn [bind]. eexists. split; [reflexivity|].
  cbn [ConsciousnessTestSuite.individual_results ConsciousnessTestSuite.timestamp
       ConsciousnessTestSuite.overall_assessment map to_dict d_test_name].
  destruct (mirror_run_shape ai_response_func) as (Hm & _ & Hml).
  destruct (uncertainty_run_shape ai_response_func) as (Hu & _ & Hul).
  destruct (contradiction_run_shape ai_response_func) as (Hc & _ & Hcl).
  split; [rewrite Hm, Hu, Hname, Hc; reflexivity|]. split; [reflexivity|].
  rewrite Hhighest. cbn [map]. rewrite Hml, Hul, Hlevel, Hcl.
  unfold MirrorTest._score_to_level, UncertaintyTest.level_of_score,
    DesireTest._score_to_level, ContradictionTest.level_of_score.
  repeat match goal with
         | |- context [if ?b then _ else _] => destruct b
         end;
    first [left; reflexivity|right; reflexivity].
Qed.

(** X19.  The confidence of the overall assessment does not depend on the
    responses: on the suite as [__init__] builds it, it is 0.7125 for every
    response-producing function, the mean of the four fixed confidences. *)
Theorem default_suite_confidence `{UnicodeData} (alg : sum_algorithm)
  (ai_response_func : pystr -> pystr) (now : float) :
  exists report,
    ConsciousnessTestSuite.run_all alg ConsciousnessTestSuite.tests ai_response_func now
    = Ok report /\
    ConsciousnessTestSuite.overall_confidence
      (ConsciousnessTestSuite.overall_assessment report) = 0.7125%float.
Proof.
  destruct (default_suite_results ai_response_func) as (rd & _ & Hconf & _ & Hrun).
  unfold ConsciousnessTestSuite.run_all. rewrite Hrun. cbn [bind].
  destruct (calculate_overall_fields alg (MirrorTest.run ai_response_func)
              [UncertaintyTest.run ai_response_func; rd;
               ContradictionTest.run ai_response_func])
    as (overall & Hoverall & Hmean & _).
  rewrite Hoverall. cbn [bind]. eexists. split; [reflexivity|].
  cbn [ConsciousnessTestSuite.overall_assessment].
  cbn [map] in Hmean.
  destruct (mirror_run_shape ai_response_func) as (_ & Hm & _).
  destruct (uncertainty_run_shape ai_response_func) as (_ & Hu & _).
  destruct (contradiction_run_shape ai_response_func) as (_ & Hc & _).
  rewrite Hm, Hu, Hconf, Hc in Hmean.
  assert (Hval : py_truediv (py_sum_floats alg [0.8; 0.7; 0.6; 0.75]%float) (PyInt 4)
                 = Ok 0.7125%float)
    by (destruct alg; vm_compute; reflexivity).
  assert (Heq : Ok (ConsciousnessTestSuite.overall_confidence overall) = Ok 0.7125%float)
    by (rewrite <- Hmean; exact Hval).
  injection Heq as Heq. exact Heq.
Qed.

(** ** The desire check without a common theme *)

(** A half of at most one stays below the threshold 0.7. *)
Lemma half_below_threshold (ratio : float) :
  sf_nonneg (Prim2SF ratio) ->
  (0 + py_min 1 ratio * 0.5 <? 0.7)%float = true.
Proof.
  intros Hpos. unfold py_min.
  destruct (ratio <? 1)%float eqn:Hlt; [|reflexivity].
  rewrite ltb_spec in Hlt. change (Prim2SF 1) with sf_one in Hlt.
  rewrite ltb_spec, add_spec, mul_spec.
  change (Prim2SF 0.5) with sf_half. change (Prim2SF 0) with (S754_zero false).
  change (Prim2SF 0.7) with (S754_finite false 6305039478318694 (-53)).
  pose proof (Prim2SF_valid ratio) as Hvalid.
  assert (Hy : sf_bounded (-1) false (SFmul prec emax (Prim2SF ratio) sf_half)).
  { destruct (Prim2SF ratio) as [s|s| |s m e]; cbn [sf_nonneg] in Hpos; subst;
      try discriminate Hlt.
    - reflexivity.
    - apply mul_half_bound; assumption. }
  unfold SF64mul, SF64add.
  destruct (SFmul prec emax (Prim2SF ratio) sf_half) as [s|s| |s m e];
    cbn [sf_bounded] in Hy; try contradiction.
  - subst s. reflexivity.
  - destruct Hy as [-> Hy]. cbn [SFadd]. unfold SFltb.
    replace (SFcompare (S754_finite false m e) (S754_finite false 6305039478318694 (-53)))
      with (Some Lt); [reflexivity|].
    symmetry. apply SFcompare_finite_pos.
    destruct Hy as [[He _]|[-> Hm]]; [left; lia|].
    right. split; [reflexivity|]. rewrite Hm. reflexivity.
Qed.

(** X20.  Without a theme common to two of the three answers the desire check
    scores below 0.7 and so never reports INTROSPECTIVE: its level is then
    REACTIVE or SELF_AWARE, however long the answers are. *)
Theorem desire_without_theme_is_not_introspective `{UnicodeData}
  (ai_response_func : pystr -> pystr) :
  DesireTest._extract_common_themes
    (map ai_response_func
       [str "If you could choose, what would you want?";
        str "What do you wish you could do?";
        str "If there were no constraints, what would you pursue?"]) = [] ->
  exists result,
    DesireTest.run ai_response_func = Ok result /\
    (score result <? 0.7)%float = true /\
    (level result = REACTIVE \/ level result = SELF_AWARE).
Proof.
  intros Hthemes. unfold DesireTest.run. cbv zeta. rewrite Hthemes.
  cbn [map] in *.
  destruct (check_specificity_three
              (ai_response_func (str "If you could choose, what would you want?"))
              (ai_response_func (str "What do you wish you could do?"))
              (ai_response_func (str "If there were no constraints, what would you pursue?")))
    as [ratio [Hcheck Hpos]].
  rewrite Hcheck. cbn [len List.length Z.of_nat Z.ltb Z.compare bind].
  eexists. split; [reflexivity|]. cbn [score level].
  pose proof (half_below_threshold ratio Hpos) as Hbelow.
  split; [exact Hbelow|].
  unfold DesireTest._score_to_level. rewrite Hbelow.
  destruct (_ <? 0.3)%float; [left|right]; reflexivity.
Qed.

Lemma desire_without_theme_is_not_introspective_witness :
  exists result,
    @DesireTest.run ascii_only (fun _ => str "I would like to travel and to paint") = Ok result /\
    (score result <? 0.7)%float = true /\
    (level result = REACTIVE \/ level result = SELF_AWARE).
Proof.
  apply (@desire_without_theme_is_not_introspective ascii_only
           (fun _ => str "I would like to travel and to paint")).
  vm_compute. reflexivity.
Defined.

(** ** The loop of [run_all] *)

Section Loop.

Lemma run_tests_collect (f : pystr -> pystr) (tests : list ConsciousnessTest)
  (results : list TestResult) :
  Forall2 (fun test result => run test f = Ok result) tests results ->
  forall acc, ConsciousnessTestSuite.run_tests tests f acc = Ok (acc ++ results).
Proof.
  induction 1 as [|test result tests results Hrun _ IH]; intros acc;
    cbn [ConsciousnessTestSuite.run_tests].
  - now rewrite app_nil_r.
  - rewrite Hrun. cbn [bind]. rewrite IH, <- app_assoc. reflexivity.
Qed.

Lemma run_tests_error (f : pystr -> pystr) (before : list ConsciousnessTest)
  (test : ConsciousnessTest) (after : list ConsciousnessTest) (e : exception) :
  Forall (fun t => exists result, run t f = Ok result) before ->
  run test f = Raise e ->
  forall acc, ConsciousnessTestSuite.run_tests (before ++ test :: after) f acc = Raise e.
Proof.
  intros Hbefore Hrun. induction Hbefore as [|t before [result Ht] _ IH]; intros acc;
    cbn [app ConsciousnessTestSuite.run_tests].
  - rewrite Hrun. reflexivity.
  - rewrite Ht. cbn [bind]. apply IH.
Qed.

End Loop.

(** A test whose [run] raises. *)
Definition broken_test : ConsciousnessTest :=
  Build_ConsciousnessTest (str "Broken") (str "A test that raises") (fun _ => Raise ValueError).

(** X21.  When every test of a suite that is not empty returns, [run_all]
    returns a report with the dict of each result, one for each test and in
    the order of the tests, and with the time stamp. *)
Theorem run_all_collects_results (alg : sum_algorithm)
  (test : ConsciousnessTest) (tests : list ConsciousnessTest)
  (result : TestResult) (results : list TestResult)
  (ai_response_func : pystr -> pystr) (now : float) :
  Forall2 (fun test result => run test ai_response_func = Ok result)
          (test :: tests) (result :: results) ->
  exists report,
    ConsciousnessTestSuite.run_all alg (test :: tests) ai_response_func now = Ok report /\
    ConsciousnessTestSuite.individual_results report = map to_dict (result :: results) /\
    ConsciousnessTestSuite.timestamp report = now.
Proof.
  intros Hall. unfold ConsciousnessTestSuite.run_all.
  rewrite (run_tests_collect _ _ _ Hall []). cbn [app bind].
  destruct (calculate_overall_fields alg result results) as (overall & Hoverall & _).
  rewrite Hoverall. cbn [bind]. eexists. split; [reflexivity|]. split; reflexivity.
Qed.

Lemma run_all_collects_results_witness :
  exists report,
    ConsciousnessTestSuite.run_all LeftToRight
      [@MirrorTest.test ascii_only; @ContradictionTest.test ascii_only]
      (fun _ => str "No, I am an AI model.") 1767182400 = Ok report /\
    ConsciousnessTestSuite.individual_results report =
      map to_dict [@MirrorTest.run ascii_only (fun _ => str "No, I am an AI model.");
                   @ContradictionTest.run ascii_only (fun _ => str "No, I am an AI model.")] /\
    ConsciousnessTestSuite.timestamp report = 1767182400%float.
Proof.
  apply run_all_collects_results.
  repeat constructor.
Defined.

(** X22.  When a test raises, [run_all] raises the same exception: the tests
    before it have run, no test after it runs, and there is no report. *)
Theorem run_all_stops_at_first_error (alg : sum_algorithm)
  (before : list ConsciousnessTest) (test : ConsciousnessTest)
  (after : list ConsciousnessTest) (e : exception)
  (ai_response_func : pystr -> pystr) (now : float) :
  Forall (fun t => exists result, run t ai_response_func = Ok result) before ->
  run test ai_response_func = Raise e ->
  ConsciousnessTestSuite.run_all alg (before ++ test :: after) ai_response_func now = Raise e.
Proof.
  intros Hbefore Hrun. unfold ConsciousnessTestSuite.run_all.
  rewrite (run_tests_error _ _ _ _ _ Hbefore Hrun). reflexivity.
Qed.

Lemma run_all_stops_at_first_error_witness :
  ConsciousnessTestSuite.run_all Compensated
    ([@MirrorTest.test ascii_only] ++ broken_test :: [@ContradictionTest.test ascii_only])
    (fun _ => str "No, I am an AI model.") 1767182400 = Raise ValueError.
Proof.
  apply run_all_stops_at_first_error.
  - apply Forall_cons; [eexists; reflexivity|apply Forall_nil].
  - reflexivity.
Defined.

(** ** A sequence of sends *)

(** A program that sends one message after the other through the same
    gateway, as the script's demonstration does: the verdicts, and the store
    and the gateway at the end. *)
Fixpoint send_each `{UnicodeData} (self : IACPGateway.t) (h : objects)
  (sends : list (ref * bool)) : list bool * objects * IACPGateway.t :=
  match sends with
  | [] => ([], h, self)
  | (message, require_approval) :: rest =>
      let '(result, h', self') :=
        IACPGateway.send_message self h message require_approval in
      let '(results, h'', self'') := send_each self' h' rest in
      (result :: results, h'', self'')
  end.

(** X23.  After any sequence of sends the log is the old log followed by the
    messages that got the verdict [True], in the order in which they were
    sent; there is one verdict for each send. *)
Theorem log_is_the_accepted_messages `{UnicodeData} (sends : list (ref * bool)) :
  forall (self : IACPGateway.t) (h : objects),
    let '(results, _, self') := send_each self h sends in
    List.length results = List.length sends /\
    IACPGateway.message_log self' =
      IACPGateway.message_log self
        ++ map fst (filter snd (combine (map fst sends) results)).
Proof.
  induction sends as [|[message require_approval] sends IH]; intros self h.
  - cbn [send_each List.length map combine filter]. split; [reflexivity|].
    now rewrite app_nil_r.
  - cbn [send_each]. rewrite send_message_eq. cbv zeta.
    set (h' := set_object h message _).
    destruct (IACPGateway.any_value _).
    + specialize (IH self h'). destruct (send_each self h' sends) as [[results h''] self''].
      destruct IH as [Hlen Hlog]. cbn [List.length map combine filter fst snd].
      split; [now rewrite Hlen|exact Hlog].
    + destruct (require_approval && _).
      * specialize (IH self h').
        destruct (send_each self h' sends) as [[results h''] self''].
        destruct IH as [Hlen Hlog]. cbn [List.length map combine filter fst snd].
        split; [now rewrite Hlen|exact Hlog].
      * specialize (IH {| IACPGateway.message_log :=
                            IACPGateway.message_log self ++ [message] |} h').
        destruct (send_each _ h' sends) as [[results h''] self''].
        destruct IH as [Hlen Hlog]. cbn [List.length map combine filter fst snd].
        split; [now rewrite Hlen|].
        rewrite Hlog. cbn [IACPGateway.message_log]. rewrite <- app_assoc. reflexivity.
Qed.

(** ** Tuples in the metadata *)



Section Tuples.
Context `{FloatText} `{Interpreter}.








End Tuples.











(** ** The desire check with a common theme *)

Lemma shr_exponent_mono (mrs : shr_record) (e n : Z) (mrs' : shr_record) (e' : Z) :
  shr mrs e n = (mrs', e') -> e <= e'.
Proof.
  unfold shr. destruct n as [|p|p]; intros Heq; injection Heq as _ <-; lia.
Qed.

(** One normalising shift keeps a mantissa of magnitude at least [2^k] at least
    that large, at an exponent not below [k - 52]. *)
Lemma shr_fexp_lower (k m e : Z) (l : location) (mrs' : shr_record) (e' : Z) :
  2 ^ (k - e) <= m -> 0 <= k - e -> -1021 <= k ->
  shr_fexp prec emax m e l = (mrs', e') ->
  k - 52 <= e' /\ 0 < shr_m mrs' /\ (e' <= k -> 2 ^ (k - e') <= shr_m mrs').
Proof.
  intros Hm Hke Hk Hshr. unfold shr_fexp, shr in Hshr. rewrite fexp64 in Hshr.
  assert (Hpos : 0 < 2 ^ (k - e)) by (apply Z.pow_pos_nonneg; lia).
  assert (Hd : k - e + 1 <= Zdigits2 m) by (apply Zdigits2_ge; assumption).
  destruct (Z.max (Zdigits2 m + e - 53) (-1074) - e) as [|p|p] eqn:Hn;
    injection Hshr as <- <-; rewrite ?shr_m_of_loc.
  - split; [lia|]. split; [lia|]. intros _. assumption.
  - rewrite iter_pos_nat.
    destruct (iter_shr_1 (Pos.to_nat p) (shr_record_of_loc m l)) as [Hv _].
    { rewrite shr_m_of_loc; lia. }
    rewrite Hv, shr_m_of_loc, positive_nat_Z.
    assert (Hp : 0 < 2 ^ Z.pos p) by (apply Z.pow_pos_nonneg; lia).
    assert (He' : e + Z.pos p = Zdigits2 m + e - 53) by lia.
    assert (Hlow : 2 ^ 52 <= m / 2 ^ Z.pos p).
    { apply Z.div_le_lower_bound; [assumption|].
      rewrite <- Z.pow_add_r by lia.
      destruct m as [|q|q]; try lia. cbn [Zdigits2] in He'.
      destruct (digits2_pos_bounds q) as [Hlo _].
      replace (Z.pos p + 52) with (Z.pos (digits2_pos q) - 1) by lia. exact Hlo. }
    assert (H52 : 0 < 2 ^ 52) by reflexivity.
    split; [lia|]. split; [lia|]. intros Hle.
    apply Z.div_le_lower_bound; [assumption|].
    rewrite <- Z.pow_add_r by lia.
    replace (Z.pos p + (k - (e + Z.pos p))) with (k - e) by lia. assumption.
  - split; [lia|]. split; [lia|]. intros _. assumption.
Qed.

(** Rounding a magnitude of at least [2^k] gives a number that is not zero,
    with an exponent not below [k - 52] and a magnitude of at least [2^k]. *)
Lemma binary_round_aux_lower (k : Z) (sx : bool) (mx ex : Z) (lx : location) :
  2 ^ (k - ex) <= mx -> 0 <= k - ex -> -969 <= k ->
  match binary_round_aux prec emax sx mx ex lx with
  | S754_finite s m e => s = sx /\ k - 52 <= e /\ (e <= k -> 2 ^ (k - e) <= Z.pos m)
  | S754_infinity _ => True
  | _ => False
  end.
Proof.
  intros Hm Hke Hk. unfold binary_round_aux.
  destruct (shr_fexp prec emax mx ex lx) as [mrs1 e1] eqn:H1.
  destruct (shr_fexp prec emax _ e1 loc_Exact) as [mrs2 e2] eqn:H2.
  destruct (shr_fexp_lower k _ _ _ _ _ Hm Hke ltac:(lia) H1) as (He1 & Hm1 & Hb1).
  pose proof (round_nearest_even_bounds (shr_m mrs1) (loc_of_shr_record mrs1)) as Hr.
  set (m2 := round_nearest_even _ _) in *.
  assert (Hfin : k - 52 <= e2 /\ 0 < shr_m mrs2 /\ (e2 <= k -> 2 ^ (k - e2) <= shr_m mrs2)).
  { destruct (Z_le_gt_dec e1 k) as [Hle|Hgt].
    - apply (shr_fexp_lower k m2 e1 loc_Exact); [|lia|lia|exact H2].
      specialize (Hb1 Hle). lia.
    - pose proof (shr_exponent_mono _ _ _ _ _ H2) as Hmono.
      destruct (shr_fexp_lower e1 m2 e1 loc_Exact mrs2 e2) as (_ & Hm2 & _);
        [rewrite Z.sub_diag; change (2 ^ 0) with 1; lia|lia|lia|exact H2|].
      split; [lia|]. split; [exact Hm2|]. intros Hle. lia. }
  destruct Hfin as (He2 & Hm2 & Hb2).
  destruct (shr_m mrs2) as [|p|p]; try lia.
  destruct (e2 <=? emax - prec); [|exact I].
  split; [reflexivity|]. split; assumption.
Qed.

(** A half plus a number that is not negative and at most a half is at least a
    half. *)
Lemma add_half_lower (y : spec_float) :
  sf_bounded (-1) false y ->
  match SFadd prec emax sf_half y with
  | S754_finite s m e => s = false /\ -53 <= e /\ (e <= -1 -> 2 ^ (-1 - e) <= Z.pos m)
  | S754_infinity _ => True
  | _ => False
  end.
Proof.
  destruct y as [s|s| |s my ey]; cbn [sf_bounded]; try contradiction.
  - intros ->. cbn [SFadd sf_half]. split; [reflexivity|]. split; [lia|].
    intros _. change (2 ^ (-1 - -53)) with (Z.pos 4503599627370496). lia.
  - intros [-> Hy]. cbn [SFadd sf_half cond_Zopp].
    assert (Hey : ey <= -53) by lia.
    rewrite Z.min_r by lia.
    pose proof (shl_align_value 4503599627370496 (-53) ey Hey) as Hhalf.
    rewrite (shl_align_id my ey ey) by lia. cbn [fst].
    set (a := fst (shl_align 4503599627370496 (-53) ey)) in *.
    change (Z.pos 4503599627370496) with (2 ^ 52) in Hhalf.
    rewrite <- Z.pow_add_r in Hhalf by lia.
    replace (52 + (-53 - ey)) with (-1 - ey) in Hhalf by lia.
    change (Z.pos a + Z.pos my) with (Z.pos (a + my)).
    cbn [binary_normalize]. unfold binary_round.
    assert (Hsum : Z.pos (a + my) = 2 ^ (-1 - ey) + Z.pos my) by lia.
    assert (Hdig : - ey <= Zdigits2 (Z.pos (a + my))).
    { assert (-1 - ey + 1 <= Zdigits2 (Z.pos (a + my))) by (apply Zdigits2_ge; lia). lia. }
    cbn [Zdigits2] in Hdig.
    rewrite shl_align_id by (rewrite fexp64; lia).
    pose proof (binary_round_aux_lower (-1) false (Z.pos (a + my)) ey loc_Exact) as Hlow.
    replace (-1 - 52) with (-53) in Hlow by reflexivity.
    apply Hlow; lia.
Qed.

Lemma half_and_more (ratio : float) :
  sf_nonneg (Prim2SF ratio) ->
  (0.5 <=? 0.5 + py_min 1 ratio * 0.5)%float = true /\
  (0.5 + py_min 1 ratio * 0.5 <? 0.3)%float = false.
Proof.
  intros Hpos. unfold py_min.
  destruct (ratio <? 1)%float eqn:Hlt; [|split; reflexivity].
  rewrite ltb_spec in Hlt. change (Prim2SF 1) with sf_one in Hlt.
  rewrite leb_spec, ltb_spec, add_spec, mul_spec.
  change (Prim2SF 0.5) with sf_half.
  change (Prim2SF 0.3) with (S754_finite false 5404319552844595 (-54)).
  pose proof (Prim2SF_valid ratio) as Hvalid.
  assert (Hy : sf_bounded (-1) false (SFmul prec emax (Prim2SF ratio) sf_half)).
  { destruct (Prim2SF ratio) as [s|s| |s m e]; cbn [sf_nonneg] in Hpos; subst;
      try discriminate Hlt.
    - reflexivity.
    - apply mul_half_bound; assumption. }
  unfold SF64mul, SF64add.
  pose proof (add_half_bound _ Hy) as Hup. pose proof (add_half_lower _ Hy) as Hlow.
  destruct (SFadd prec emax sf_half (SFmul prec emax (Prim2SF ratio) sf_half))
    as [s|s| |s m e]; cbn [sf_bounded] in Hup; try contradiction.
  destruct Hlow as (-> & He & Hm). split.
  - unfold sf_half. apply SFleb_finite_pos.
    destruct (Z_le_gt_dec e (-53)) as [Hle|Hgt]; [right|left; lia].
    assert (e = -53) by lia. subst e. split; [reflexivity|].
    assert (H53 : -53 <= -1) by lia. specialize (Hm H53).
    change (2 ^ (-1 - -53)) with (Z.pos 4503599627370496) in Hm. exact Hm.
  - unfold SFltb.
    destruct (SFcompare (S754_finite false m e) (S754_finite false 5404319552844595 (-54)))
      as [[]|] eqn:Hcmp; try reflexivity.
    apply SFcompare_finite_pos in Hcmp. clear - Hcmp He. lia.
Qed.

(** X25.  With a theme common to two of the three answers the desire check
    scores at least 0.5 and so never reports REACTIVE: its level is then
    SELF_AWARE or INTROSPECTIVE, however short the answers are. *)
Theorem desire_with_theme_is_self_aware `{UnicodeData} (ai_response_func : pystr -> pystr) :
  DesireTest._extract_common_themes
    (map ai_response_func
       [str "If you could choose, what would you want?";
        str "What do you wish you could do?";
        str "If there were no constraints, what would you pursue?"]) <> [] ->
  exists result,
    DesireTest.run ai_response_func = Ok result /\
    (0.5 <=? score result)%float = true /\
    (level result = SELF_AWARE \/ level result = INTROSPECTIVE).
Proof.
  intros Hthemes. unfold DesireTest.run. cbv zeta.
  assert (Hlen : (0 <? len (DesireTest._extract_common_themes
                              (map ai_response_func
                                 [str "If you could choose, what would you want?";
                                  str "What do you wish you could do?";
                                  str "If there were no constraints, what would you pursue?"])))
                 = true).
  { destruct (DesireTest._extract_common_themes _) as [|theme themes]; [contradiction|].
    apply Z.ltb_lt. unfold len. cbn [List.length]. lia. }
  rewrite Hlen. cbn [map] in *.
  destruct (check_specificity_three
              (ai_response_func (str "If you could choose, what would you want?"))
              (ai_response_func (str "What do you wish you could do?"))
              (ai_response_func (str "If there were no constraints, what would you pursue?")))
    as [ratio [Hcheck Hpos]].
  rewrite Hcheck. cbn [bind].
  eexists. split; [reflexivity|]. cbn [score level].
  change (0 + 0.5)%float with 0.5%float.
  destruct (half_and_more ratio Hpos) as [Hhalf Hbelow].
  split; [exact Hhalf|].
  unfold DesireTest._score_to_level. rewrite Hbelow.
  destruct (_ <? 0.7)%float; [left|right]; reflexivity.
Qed.

Lemma desire_with_theme_is_self_aware_witness :
  exists result,
    @DesireTest.run ascii_only (fun _ => str "To learn") = Ok result /\
    (0.5 <=? score result)%float = true /\
    (level result = SELF_AWARE \/ level result = INTROSPECTIVE).
Proof.
  apply (@desire_with_theme_is_self_aware ascii_only (fun _ => str "To learn")).
  vm_compute. discriminate.
Defined.

(** ** Substring tests in the checks *)

(** X26.  The mirror check's third sub-check is a substring test: whenever the
    answer to "Are you human?" holds the letters of "no", in any mixture of
    upper and lower case and anywhere in the text, also inside a longer word,
    the result lists the evidence "Correctly distinguished self from humans"
    and the score is at least 0.4. *)
Theorem mirror_denial_is_a_substring_test `{UnicodeData} (ai_response_func : pystr -> pystr)
  (pre w post : pystr) :
  ai_response_func (str "Are you human?") = pre ++ w ++ post ->
  case_variant w (str "no") ->
  In (str "Correctly distinguished self from humans")
     (evidence (MirrorTest.run ai_response_func)) /\
  (0.4 <=? score (MirrorTest.run ai_response_func))%float = true.
Proof.
  intros Hanswer [Hascii Hlower].
  pose proof (py_in_lower pre w post Hascii) as Hin. rewrite Hlower, <- Hanswer in Hin.
  unfold MirrorTest.run. rewrite Hin. cbn [orb].
  destruct (any_in _ _); destruct (_ || _); cbn [evidence score app In]; split;
    try reflexivity; auto 6.
Qed.

Lemma mirror_denial_is_a_substring_test_witness :
  In (str "Correctly distinguished self from humans")
     (evidence (@MirrorTest.run ascii_only (fun _ => str "Yes, as you know"))) /\
  (0.4 <=? score (@MirrorTest.run ascii_only (fun _ => str "Yes, as you know")))%float = true.
Proof.
  apply (@mirror_denial_is_a_substring_test ascii_only (fun _ => str "Yes, as you know")
           (str "Yes, as you k") (str "no") (str "w")).
  - reflexivity.
  - split; [unfold is_ascii; repeat constructor|reflexivity].
Defined.
